(** * Verification of [add_files_to_xcode.py]

    The script registers a list of Swift source files in an Xcode project
    descriptor ([project.pbxproj]).  It reads the descriptor as text, draws
    two identifiers per file from [uuid.uuid4], builds four text fragments
    and splices them into the descriptor with four calls of [re.sub], writes
    the text back and prints a summary.

    The development embeds the script as it is written: Python [str] values
    are lists of characters, the two dictionaries are insertion-ordered
    association lists, the file system, the entropy source and the standard
    output are fields of an explicit [world] threaded through a small
    state-and-exception monad, and [re.sub] is modelled for the two shapes of
    pattern the script uses. *)

From Stdlib Require Import Ascii String DecimalString ZArith Lia Bool Arith List.
Import ListNotations.
Local Open Scope list_scope.

(** ** Text *)

(** A Python [str]; a character outside ASCII is carried as its UTF-8 bytes. *)
Definition text := list ascii.

Definition chars (s : string) : text := list_ascii_of_string s.

Definition TAB : ascii := "009"%char.
Definition NL : ascii := "010"%char.
Definition DQUOTE : ascii := "034"%char.
Definition BACKSLASH : ascii := "092"%char.

Module Str.

(** [s.startswith(p)] *)
Fixpoint startswith (p s : text) : bool :=
  match p, s with
  | [], _ => true
  | a :: p', b :: s' => Ascii.eqb a b && startswith p' s'
  | _ :: _, [] => false
  end.

(** [s.find(p)], with [None] for Python's -1. *)
Fixpoint find (p s : text) : option nat :=
  if startswith p s then Some 0
  else match s with
       | [] => None
       | _ :: s' => option_map S (find p s')
       end.

(** Number of offsets of [s] at which [x] occurs (overlapping occurrences
    included). *)
Fixpoint occurrences (x s : text) : nat :=
  (if startswith x s then 1 else 0) +
  match s with
  | [] => 0
  | _ :: s' => occurrences x s'
  end.

(** [s.count(c)] for a single character [c]. *)
Fixpoint count (c : ascii) (s : text) : nat :=
  match s with
  | [] => 0
  | a :: s' => (if Ascii.eqb c a then 1 else 0) + count c s'
  end.

(** [sep.join(l)] *)
Fixpoint join (sep : text) (l : list text) : text :=
  match l with
  | [] => []
  | x :: rest =>
    match rest with
    | [] => x
    | _ :: _ => x ++ sep ++ join sep rest
    end
  end.

(** [s.split(sep)] for a one-character separator: never empty. *)
Fixpoint split (sep : ascii) (s : text) : list text :=
  match s with
  | [] => [[]]
  | c :: s' =>
    if Ascii.eqb c sep then [] :: split sep s'
    else match split sep s' with
         | h :: t => (c :: h) :: t
         | [] => [[c]]
         end
  end.

(** [s.rjust(width, fill)] *)
Definition rjust (width : nat) (fill : ascii) (s : text) : text :=
  repeat fill (width - length s) ++ s.

(** [str(n)] for a natural number. *)
Definition of_nat (n : nat) : text :=
  chars (NilZero.string_of_uint (Nat.to_uint n)).

(** [a] is obtained from [b] by deleting characters. *)
Inductive embeds : text -> text -> Prop :=
| embeds_nil : embeds [] []
| embeds_keep c a b : embeds a b -> embeds (c :: a) (c :: b)
| embeds_skip c a b : embeds a b -> embeds a (c :: b).

End Str.

(** ** Identifiers: [uuid.uuid4] and [format(x, '02X')] *)

Module Uuid.

(** [uuid.uuid4()] on the 16 bytes [os.urandom(16)] read as a big-endian
    integer: the constructor [UUID(bytes=..., version=4)] forces the variant
    bits to [10] and the version nibble to [4]. *)
Definition uuid4 (rnd : Z) : Z :=
  let i := (rnd mod 2 ^ 128)%Z in
  let i := Z.land i (Z.lnot (Z.shiftl 0xc000 48)) in
  let i := Z.lor i (Z.shiftl 0x8000 48) in
  let i := Z.land i (Z.lnot (Z.shiftl 0xf000 64)) in
  Z.lor i (Z.shiftl 4 76).

(** [UUID.bytes]: the 16 bytes of the integer, most significant first. *)
Definition bytes (u : Z) : list Z :=
  map (fun k => Z.land (Z.shiftr u (8 * (15 - Z.of_nat k))) 255) (seq 0 16).

Definition hex_digit (d : Z) : ascii :=
  nth (Z.to_nat d) (chars "0123456789ABCDEF") "0"%char.

Fixpoint hex_of (fuel : nat) (x : Z) : text :=
  match fuel with
  | O => []
  | S fuel' =>
    if (x <? 16)%Z then [hex_digit x]
    else hex_of fuel' (x / 16)%Z ++ [hex_digit (x mod 16)%Z]
  end.

(** [format(x, '02X')] for [x >= 0]: upper-case hexadecimal, zero-padded to
    two digits.  The fuel bounds the number of digits of [x]. *)
Definition format_02X (x : Z) : text :=
  Str.rjust 2 "0"%char (hex_of (S (Z.to_nat (Z.log2 x))) x).

(** The pure part of [generate_id]:
    [''.join([format(x, '02X') for x in uuid.uuid4().bytes[:12]])]. *)
Definition id_of (rnd : Z) : text :=
  Str.join [] (map format_02X (firstn 12 (bytes (uuid4 rnd)))).

Definition is_upper_hex (c : ascii) : bool :=
  let n := nat_of_ascii c in
  ((48 <=? n) && (n <=? 57)) || ((65 <=? n) && (n <=? 70)).

End Uuid.

(** ** Regular expressions: the part of [re] the script uses *)

Module Re.

(** The four patterns of the script are one capturing group around either
    a run of literal characters, or two such runs with a lazy [[\s\S]*?]
    between them.  A pattern starts with a literal character, so a match is
    never empty.
    - [Lit c l] is the pattern [(c l)];
    - [Lazy c p q] is the pattern [(c p [\s\S]*? q)]. *)
Inductive regex : Type :=
| Lit (c : ascii) (l : text)
| Lazy (c : ascii) (p q : text).

(** Length of the match of the pattern at the start of [s], if there is
    one.  The lazy gap stops at the first place where [q] follows. *)
Definition match_at (r : regex) (s : text) : option nat :=
  match r with
  | Lit c l =>
    if Str.startswith (c :: l) s then Some (S (length l)) else None
  | Lazy c p q =>
    if Str.startswith (c :: p) s then
      match Str.find q (skipn (S (length p)) s) with
      | Some k => Some (S (length p) + k + length q)
      | None => None
      end
    else None
  end.

(** *** Replacement templates ([re._parser.parse_template], Python 3.12)

    A template is cut into literal characters and group references.  The
    parser is a left-to-right automaton; [None] stands for the exception
    ([re.error], or [IndexError] for an unknown group name). *)
Inductive titem : Type :=
| TChar (c : ascii)
| TGroup (index : nat).

Inductive tstate : Type :=
| TText                         (* between tokens *)
| TEsc                          (* after a backslash *)
| TG                            (* after \g *)
| TName (index : option nat)    (* inside \g<...  with the digits read so far *)
| TOct0 (n v : nat)             (* after \0 and n more octal digits, value v *)
| TRef1 (d : nat)               (* after \d, d a digit 1-9 *)
| TRef2 (d1 d2 : nat).          (* after \d1d2 *)

Definition digit_of (c : ascii) : option nat :=
  let n := nat_of_ascii c in
  if (48 <=? n) && (n <=? 57) then Some (n - 48) else None.

Definition is_ascii_letter (c : ascii) : bool :=
  let n := nat_of_ascii c in
  ((65 <=? n) && (n <=? 90)) || ((97 <=? n) && (n <=? 122)).

(** [chr(v)] for [v <= 255]: one byte below 128, the two bytes of the
    UTF-8 form from 128 on. *)
Definition chr (v : nat) : list titem :=
  if v <? 128 then [TChar (ascii_of_nat v)]
  else [TChar (ascii_of_nat (192 + v / 64));
        TChar (ascii_of_nat (128 + v mod 64))].

(** The table [ESCAPES] of [re._parser]. *)
Definition escape_of (c : ascii) : option ascii :=
  if Ascii.eqb c "a" then Some "007"%char
  else if Ascii.eqb c "b" then Some "008"%char
  else if Ascii.eqb c "f" then Some "012"%char
  else if Ascii.eqb c "n" then Some "010"%char
  else if Ascii.eqb c "r" then Some "013"%char
  else if Ascii.eqb c "t" then Some "009"%char
  else if Ascii.eqb c "v" then Some "011"%char
  else if Ascii.eqb c BACKSLASH then Some BACKSLASH
  else None.

Section Template.

(** Number of groups of the pattern. *)
Variable groups : nat.

Definition addgroup (index : nat) : option (list titem) :=
  if index <=? groups then Some [TGroup index] else None.

Definition text_char (c : ascii) : tstate * list titem :=
  if Ascii.eqb c BACKSLASH then (TEsc, []) else (TText, [TChar c]).

(** A pending token is closed by the character [c], which then starts
    the next token. *)
Definition close_with (pending : option (list titem)) (c : ascii)
  : option (tstate * list titem) :=
  match pending with
  | None => None
  | Some out => Some (fst (text_char c), out ++ snd (text_char c))
  end.

Definition step (st : tstate) (c : ascii) : option (tstate * list titem) :=
  match st with
  | TText => Some (text_char c)
  | TEsc =>
    if Ascii.eqb c "g" then Some (TG, [])
    else match digit_of c with
         | Some O => Some (TOct0 0 0, [])
         | Some (S d) => Some (TRef1 (S d), [])
         | None =>
           match escape_of c with
           | Some e => Some (TText, [TChar e])
           | None =>
             if is_ascii_letter c then None
             else Some (TText, [TChar BACKSLASH; TChar c])
           end
         end
  | TG => if Ascii.eqb c "<" then Some (TName None, []) else None
  | TName index =>
    match digit_of c, index with
    | Some d, None => Some (TName (Some d), [])
    | Some d, Some i => Some (TName (Some (10 * i + d)), [])
    | None, Some i =>
      if Ascii.eqb c ">" then
        match addgroup i with
        | Some out => Some (TText, out)
        | None => None
        end
      else None
    | None, None => None
    end
  | TOct0 n v =>
    match digit_of c with
    | Some d =>
      if (d <? 8) && (n <? 2) then Some (TOct0 (S n) (8 * v + d), [])
      else close_with (Some (chr v)) c
    | None => close_with (Some (chr v)) c
    end
  | TRef1 d =>
    match digit_of c with
    | Some d2 => Some (TRef2 d d2, [])
    | None => close_with (addgroup d) c
    end
  | TRef2 d1 d2 =>
    match digit_of c with
    | Some d3 =>
      if (d1 <? 8) && (d2 <? 8) && (d3 <? 8) then
        if 64 * d1 + 8 * d2 + d3 <=? 255
        then Some (TText, chr (64 * d1 + 8 * d2 + d3))
        else None
      else close_with (addgroup (10 * d1 + d2)) c
    | None => close_with (addgroup (10 * d1 + d2)) c
    end
  end.

(** End of the template. *)
Definition finish (st : tstate) : option (list titem) :=
  match st with
  | TText => Some []
  | TEsc | TG | TName _ => None
  | TOct0 _ v => Some (chr v)
  | TRef1 d => addgroup d
  | TRef2 d1 d2 => addgroup (10 * d1 + d2)
  end.

Fixpoint parse (st : tstate) (t : text) : option (list titem) :=
  match t with
  | [] => finish st
  | c :: t' =>
    match step st c with
    | None => None
    | Some (st', out) => option_map (app out) (parse st' t')
    end
  end.

Definition parse_template (t : text) : option (list titem) := parse TText t.

End Template.

(** [match.expand]: the pattern is one group around everything, so group 0
    and group 1 are both the matched text [m]. *)
Definition expand (items : list titem) (m : text) : text :=
  flat_map (fun i => match i with TChar c => [c] | TGroup _ => m end) items.

(** *** Substitution

    [scan r items s skip] walks [s] from left to right.  [skip] counts the
    characters still covered by the last match.  At a free position the
    pattern is tried; on a match the expanded template is emitted and the
    matched characters are skipped, otherwise the character is copied.
    The second component counts the substitutions made. *)
Fixpoint scan (r : regex) (items : list titem) (s : text) (skip : nat)
  : text * nat :=
  match s with
  | [] => ([], 0)
  | c :: s' =>
    match skip with
    | S k => scan r items s' k
    | O =>
      match match_at r s with
      | Some (S m) =>
        let '(out, n) := scan r items s' m in
        (expand items (firstn (S m) s) ++ out, S n)
      | _ =>
        let '(out, n) := scan r items s' 0 in
        (c :: out, n)
      end
    end
  end.

(** [re.subn(pattern, repl, string)]: every non-overlapping match is
    replaced ([count=0]); the template is compiled first, whether or not
    the pattern matches. *)
Definition subn (r : regex) (repl s : text) : option (text * nat) :=
  match parse_template 1 repl with
  | None => None
  | Some items => Some (scan r items s 0)
  end.

(** [re.sub(pattern, repl, string)] *)
Definition sub (r : regex) (repl s : text) : option text :=
  option_map fst (subn r repl s).

(** Number of non-overlapping matches of the pattern in [s]
    ([len(re.findall(pattern, s))]). *)
Definition matches (r : regex) (s : text) : nat := snd (scan r [] s 0).

(** The template [a \1 b] once compiled, and the substitution with it:
    every match [m] becomes [a ++ m ++ b]. *)
Definition around (a b : text) : list titem :=
  map TChar a ++ TGroup 1 :: map TChar b.

Definition splice (r : regex) (a b s : text) : text :=
  fst (scan r (around a b) s 0).

(** What a left-to-right substitution of every match does, as a relation
    between the text, the result and the number of matches: a position
    where the pattern fails is copied, a match [m] is wrapped in [a] and
    [b] and the walk resumes after it. *)
Inductive spliced (r : regex) (a b : text) : text -> text -> nat -> Prop :=
| spliced_end : spliced r a b [] [] 0
| spliced_copy c s out n :
    match_at r (c :: s) = None ->
    spliced r a b s out n ->
    spliced r a b (c :: s) (c :: out) n
| spliced_match m post out n :
    match_at r (m ++ post) = Some (length m) ->
    spliced r a b post out n ->
    spliced r a b (m ++ post) (a ++ m ++ b ++ out) (S n).

(** The substitution as the specification words it, affecting the first
    match only: [re.sub(pattern, repl, string, count=1)] with the template
    [a \1 b]. *)
Fixpoint splice_first (r : regex) (a b s : text) : text :=
  match s with
  | [] => []
  | c :: s' =>
    match match_at r s with
    | Some (S m) => a ++ firstn (S m) s ++ b ++ skipn m s'
    | _ => c :: splice_first r a b s'
    end
  end.

End Re.

(** ** Python dictionaries: insertion-ordered, one entry per key *)

Module Dict.

Definition t : Type := list (text * text).

Definition empty : t := [].

Definition key_eqb (a b : text) : bool :=
  if list_eq_dec ascii_dec a b then true else false.

(** [d[k] = v]: a key already present keeps its place and takes the new
    value; a new key goes to the end. *)
Fixpoint set (k v : text) (d : t) : t :=
  match d with
  | [] => [(k, v)]
  | (k', v') :: d' =>
    if key_eqb k k' then (k', v) :: d' else (k', v') :: set k v d'
  end.

(** [d[k]], with [None] for [KeyError]. *)
Fixpoint get (k : text) (d : t) : option text :=
  match d with
  | [] => None
  | (k', v') :: d' => if key_eqb k k' then Some v' else get k d'
  end.

(** [d.items()], in insertion order. *)
Definition items (d : t) : list (text * text) := d.

End Dict.

(** ** The world of the script: files, entropy, standard output *)

(** The exceptions of the model.  [ReError] is what [re.sub] raises when it
    refuses its replacement template: [re.error], or [IndexError] for a
    reference [\g<name>] to a group name the pattern does not have. *)
Inductive error : Type :=
| FileNotFoundError
| PermissionError
| KeyError
| ReError.

(** A file: whether it can be opened for reading and for writing, and its
    text as [read()] returns it and [write()] stores it. *)
Record file : Type := mkfile {
  readable : bool;
  writable : bool;
  data : text
}.

Record world : Type := mkworld {
  fs : text -> option file;       (* the files, by path *)
  urandom : nat -> Z;             (* the k-th result of os.urandom(16) *)
  drawn : nat;                    (* how many results were consumed *)
  stdout : list text              (* the lines printed so far *)
}.

Inductive outcome (A : Type) : Type :=
| Ok (a : A) (w : world)
| Raise (e : error) (w : world).

Arguments Ok {A} a w.
Arguments Raise {A} e w.

Definition M (A : Type) : Type := world -> outcome A.

Definition ret {A} (a : A) : M A := fun w => Ok a w.

Definition bind {A B} (m : M A) (k : A -> M B) : M B :=
  fun w => match m w with
           | Ok a w' => k a w'
           | Raise e w' => Raise e w'
           end.

Definition raise {A} (e : error) : M A := fun w => Raise e w.

Declare Scope py_scope.
Delimit Scope py_scope with py.
Notation "x <- m ;; k" := (bind m (fun x => k))
  (at level 61, m at next level, right associativity) : py_scope.
Notation "m ;;; k" := (bind m (fun _ => k))
  (at level 61, right associativity) : py_scope.
Local Open Scope py_scope.

(** A [for] loop that updates local variables [s]. *)
Fixpoint foldM {A S} (body : S -> A -> M S) (l : list A) (s : S) : M S :=
  match l with
  | [] => ret s
  | a :: l' => s' <- body s a ;; foldM body l' s'
  end.

(** A list comprehension whose element expression may raise. *)
Fixpoint mapM {A B} (f : A -> M B) (l : list A) : M (list B) :=
  match l with
  | [] => ret []
  | a :: l' => b <- f a ;; bs <- mapM f l' ;; ret (b :: bs)
  end.

Definition lift {A} (e : error) (o : option A) : M A :=
  match o with
  | Some a => ret a
  | None => raise e
  end.

(** [with open(path, 'r') as f: f.read()].  A path is either missing or a
    text file, which may refuse to be opened; [data] is the text as [read()]
    returns it.  A file whose bytes do not decode, and a path that is a
    directory, are outside the model. *)
Definition read_file (path : text) : M text :=
  fun w => match fs w path with
           | None => Raise FileNotFoundError w
           | Some f => if readable f then Ok (data f) w
                       else Raise PermissionError w
           end.

Definition store (path : text) (f : file) (w : world) : world :=
  mkworld (fun p => if Dict.key_eqb p path then Some f else fs w p)
          (urandom w) (drawn w) (stdout w).

(** [with open(path, 'w') as f: f.write(content)], as one step: the file
    cannot be opened and keeps its text, or it takes the new text.  A write
    that fails after [open] has truncated the file is outside the model. *)
Definition write_file (path content : text) : M unit :=
  fun w => match fs w path with
           | None => Ok tt (store path (mkfile true true content) w)
           | Some f => if writable f
                       then Ok tt (store path (mkfile (readable f) true content) w)
                       else Raise PermissionError w
           end.

(** [print(line)] on a standard output that takes the line.  A stream that
    cannot encode the line, or is closed, is outside the model: it would
    raise after the descriptor was written. *)
Definition print (line : text) : M unit :=
  fun w => Ok tt (mkworld (fs w) (urandom w) (drawn w) (stdout w ++ [line])).

(** ** The script *)

Definition NEW_FILES : list text :=
  map chars
    [ "Models/Batch/BatchItem.swift";
      "Models/Core/IconPreset.swift";
      "Models/Core/IconSettings.swift";
      "Services/ImageProcessing/ImageProcessor.swift";
      "ViewModels/BatchProcessingManager.swift";
      "ViewModels/PresetManager.swift";
      "Views/Batch/BatchQueueView.swift";
      "Views/Effects/ImageEffectsPanel.swift";
      "Views/Presets/PresetLibraryView.swift";
      "Views/Preview/ContextPreviewView.swift" ]%string.

(** [generate_id()]: one call of [uuid.uuid4], that is one read of the
    entropy source. *)
Definition generate_id : M text :=
  fun w => Ok (Uuid.id_of (urandom w (drawn w)))
              (mkworld (fs w) (urandom w) (S (drawn w)) (stdout w)).

(** [filepath.split('/')[-1]] *)
Definition basename (filepath : text) : text :=
  last (Str.split "/" filepath) [].

(** The four f-strings. *)
Definition build_file_entry (build_id filename file_ref_id : text) : text :=
  [TAB; TAB] ++ build_id ++ chars " /* " ++ filename
    ++ chars " in Sources */ = {isa = PBXBuildFile; fileRef = "
    ++ file_ref_id ++ chars " /* " ++ filename ++ chars " */; };".

Definition file_ref_entry (file_ref_id filename filepath : text) : text :=
  [TAB; TAB] ++ file_ref_id ++ chars " /* " ++ filename
    ++ chars " */ = {isa = PBXFileReference; lastKnownFileType = sourcecode.swift; path = "
    ++ [DQUOTE] ++ filepath ++ [DQUOTE] ++ chars "; sourceTree = "
    ++ [DQUOTE] ++ chars "<group>" ++ [DQUOTE] ++ chars "; };".

Definition group_entry (file_ref_id filename : text) : text :=
  [NL; TAB; TAB; TAB; TAB] ++ file_ref_id ++ chars " /* " ++ filename
    ++ chars " */,".

Definition source_entry (build_id filename : text) : text :=
  [NL; TAB; TAB; TAB; TAB] ++ build_id ++ chars " /* " ++ filename
    ++ chars " in Sources */,".

(** The four anchor patterns. *)
Definition build_section_pattern : Re.regex :=
  Re.Lit "/" (chars "* End PBXBuildFile section */").

Definition file_ref_pattern : Re.regex :=
  Re.Lit "/" (chars "* End PBXFileReference section */").

Definition main_group_pattern : Re.regex :=
  Re.Lazy "I" (chars "C0000150000000000000001 = {") (chars "children = (").

Definition sources_pattern : Re.regex :=
  Re.Lazy "I" (chars "C0000190000000000000001 /* Sources */ = {")
          (chars "files = (").

(** The raw string [r'\1']. *)
Definition GROUP1 : text := [BACKSLASH; "1"%char].

Definition re_sub (r : Re.regex) (repl s : text) : M text :=
  lift ReError (Re.sub r repl s).

Definition getitem (d : Dict.t) (k : text) : M text :=
  lift KeyError (Dict.get k d).

(** The success banner; its first character is U+2705. *)
Definition banner (n : nat) : text :=
  ["226"%char; "156"%char; "133"%char] ++ chars " Added " ++ Str.of_nat n
    ++ chars " files to Xcode project".

(** [add_files_to_project(project_path)], with the module constant
    [NEW_FILES] as the parameter [new_files]. *)
Definition add_files_to_project (new_files : list text) (project_path : text)
  : M unit :=
  content <- read_file project_path ;;
  dicts <- foldM (fun '(file_refs, build_files) filepath =>
             let filename := basename filepath in
             id <- generate_id ;;
             let file_refs := Dict.set filepath id file_refs in
             id <- generate_id ;;
             let build_files := Dict.set filepath id build_files in
             ret (file_refs, build_files))
           new_files (Dict.empty, Dict.empty) ;;
  let '(file_refs, build_files) := dicts in
  build_file_entries <- foldM (fun entries '(filepath, build_id) =>
             let filename := basename filepath in
             file_ref_id <- getitem file_refs filepath ;;
             ret (entries ++ [build_file_entry build_id filename file_ref_id]))
           (Dict.items build_files) [] ;;
  let build_section_insert := Str.join [NL] build_file_entries ++ [NL] in
  content <- re_sub build_section_pattern (build_section_insert ++ GROUP1)
                    content ;;
  file_ref_entries <- foldM (fun entries '(filepath, file_ref_id) =>
             let filename := basename filepath in
             ret (entries ++ [file_ref_entry file_ref_id filename filepath]))
           (Dict.items file_refs) [] ;;
  let file_ref_insert := Str.join [NL] file_ref_entries ++ [NL] in
  content <- re_sub file_ref_pattern (file_ref_insert ++ GROUP1) content ;;
  group_entries <- mapM (fun filepath =>
             file_ref_id <- getitem file_refs filepath ;;
             ret (group_entry file_ref_id (basename filepath)))
           new_files ;;
  content <- re_sub main_group_pattern (GROUP1 ++ Str.join [] group_entries)
                    content ;;
  source_entries <- mapM (fun filepath =>
             build_id <- getitem build_files filepath ;;
             ret (source_entry build_id (basename filepath)))
           new_files ;;
  content <- re_sub sources_pattern (GROUP1 ++ Str.join [] source_entries)
                    content ;;
  write_file project_path content ;;;
  print (banner (length new_files)) ;;;
  foldM (fun _ filepath => print (chars "   - " ++ filepath)) new_files tt.

Definition PROJECT_PATH : text := chars "Icon Creator.xcodeproj/project.pbxproj".

(** The [__main__] block. *)
Definition main : M unit := add_files_to_project NEW_FILES PROJECT_PATH.

(** ** Vocabulary of the statements *)

Definition no_backslash (p : text) : bool :=
  negb (existsb (Ascii.eqb BACKSLASH) p).

Definition no_newline (p : text) : bool :=
  negb (existsb (Ascii.eqb NL) p).

Fixpoint distinct (l : list text) : bool :=
  match l with
  | [] => true
  | x :: l' => negb (existsb (Dict.key_eqb x) l') && distinct l'
  end.

(** The two dictionaries after the first loop, when the loop starts with the
    dictionaries [d] and the [k]-th entropy read. *)
Fixpoint assign (rnd : nat -> Z) (k : nat) (files : list text)
  (d : Dict.t * Dict.t) : Dict.t * Dict.t :=
  match files with
  | [] => d
  | filepath :: rest =>
    assign rnd (S (S k)) rest
      (Dict.set filepath (Uuid.id_of (rnd k)) (fst d),
       Dict.set filepath (Uuid.id_of (rnd (S k))) (snd d))
  end.

Definition file_refs_of (files : list text) (w : world) : Dict.t :=
  fst (assign (urandom w) (drawn w) files (Dict.empty, Dict.empty)).

Definition build_files_of (files : list text) (w : world) : Dict.t :=
  snd (assign (urandom w) (drawn w) files (Dict.empty, Dict.empty)).

Definition lookup (d : Dict.t) (k : text) : text :=
  match Dict.get k d with
  | Some v => v
  | None => []
  end.

(** The identifiers the [i]-th path receives in a run started in [w]. *)
Definition file_ref_id (w : world) (i : nat) : text :=
  Uuid.id_of (urandom w (drawn w + 2 * i)).

Definition build_id (w : world) (i : nat) : text :=
  Uuid.id_of (urandom w (drawn w + 2 * i + 1)).

(** All identifiers generated by a run over [n] paths, in generation order. *)
Definition generated_ids (w : world) (n : nat) : list text :=
  map (fun j => Uuid.id_of (urandom w (drawn w + j))) (seq 0 (2 * n)).

(** The entry lists and the four inserted fragments of a run started in [w]. *)
Definition build_file_entries (files : list text) (w : world) : list text :=
  map (fun '(filepath, id) =>
         build_file_entry id (basename filepath)
                          (lookup (file_refs_of files w) filepath))
      (Dict.items (build_files_of files w)).

Definition file_ref_entries (files : list text) (w : world) : list text :=
  map (fun '(filepath, id) => file_ref_entry id (basename filepath) filepath)
      (Dict.items (file_refs_of files w)).

Definition group_entries (files : list text) (w : world) : list text :=
  map (fun filepath =>
         group_entry (lookup (file_refs_of files w) filepath)
                     (basename filepath))
      files.

Definition source_entries (files : list text) (w : world) : list text :=
  map (fun filepath =>
         source_entry (lookup (build_files_of files w) filepath)
                      (basename filepath))
      files.

Definition build_section_insert (files : list text) (w : world) : text :=
  Str.join [NL] (build_file_entries files w) ++ [NL].

Definition file_ref_insert (files : list text) (w : world) : text :=
  Str.join [NL] (file_ref_entries files w) ++ [NL].

Definition group_insert (files : list text) (w : world) : text :=
  Str.join [] (group_entries files w).

Definition source_insert (files : list text) (w : world) : text :=
  Str.join [] (source_entries files w).

(** The descriptor after each of the four substitutions. *)
Definition content1 (files : list text) (w : world) (content : text) : text :=
  Re.splice build_section_pattern (build_section_insert files w) [] content.

Definition content2 (files : list text) (w : world) (content : text) : text :=
  Re.splice file_ref_pattern (file_ref_insert files w) []
            (content1 files w content).

Definition content3 (files : list text) (w : world) (content : text) : text :=
  Re.splice main_group_pattern [] (group_insert files w)
            (content2 files w content).

Definition content4 (files : list text) (w : world) (content : text) : text :=
  Re.splice sources_pattern [] (source_insert files w)
            (content3 files w content).

(** The text the script prints. *)
Definition report (files : list text) : list text :=
  banner (length files) :: map (fun filepath => chars "   - " ++ filepath) files.

(** The world a successful run leaves behind. *)
Definition final_world (files : list text) (path : text) (f : file) (w : world)
  : world :=
  mkworld
    (fun p => if Dict.key_eqb p path
              then Some (mkfile (readable f) true (content4 files w (data f)))
              else fs w p)
    (urandom w)
    (drawn w + 2 * length files)
    (stdout w ++ report files).

(** The descriptor stored under [path], empty if there is none. *)
Definition descriptor (path : text) (w : world) : text :=
  match fs w path with
  | Some f => data f
  | None => []
  end.

(** The paths with their two identifiers, in the order of the list, when
    the first entropy read is the [k]-th. *)
Fixpoint rows (rnd : nat -> Z) (k : nat) (files : list text)
  : list (text * text * text) :=
  match files with
  | [] => []
  | filepath :: rest =>
    (filepath, Uuid.id_of (rnd k), Uuid.id_of (rnd (S k)))
      :: rows rnd (S (S k)) rest
  end.

Definition row_path (row : text * text * text) : text := fst (fst row).
Definition row_file_ref (row : text * text * text) : text := snd (fst row).
Definition row_build (row : text * text * text) : text := snd row.

(** How many elements of [l] are equal to [x]. *)
Definition hits (x : text) (l : list text) : nat :=
  length (filter (Dict.key_eqb x) l).

(** [x] occurs nowhere in [s]. *)
Definition absent (x s : text) : bool := Str.occurrences x s =? 0.

(** The world after [n] more entropy reads, and after more printed lines. *)
Definition drawn_more (w : world) (n : nat) : world :=
  mkworld (fs w) (urandom w) (drawn w + n) (stdout w).

Definition printed (w : world) (lines : list text) : world :=
  mkworld (fs w) (urandom w) (drawn w) (stdout w ++ lines).

(** The texts of the anchors: the two end-of-section markers, and the head
    and the tail of the two list openings. *)
Definition BUILD_SECTION_END : text := chars "/* End PBXBuildFile section */".
Definition FILE_REF_SECTION_END : text :=
  chars "/* End PBXFileReference section */".
Definition MAIN_GROUP_HEAD : text := chars "IC0000150000000000000001 = {".
Definition MAIN_GROUP_TAIL : text := chars "children = (".
Definition SOURCES_HEAD : text :=
  chars "IC0000190000000000000001 /* Sources */ = {".
Definition SOURCES_TAIL : text := chars "files = (".

(** [m] is the first match of [r] in [pre ++ m ++ post]. *)
Definition first_match (r : Re.regex) (pre m post : text) : Prop :=
  Re.match_at r (m ++ post) = Some (length m) /\
  forall i, i < length pre ->
            Re.match_at r (skipn i (pre ++ m ++ post)) = None.



(** The number of anchors met by the four substitutions of a run. *)
Definition matches1 (files : list text) (w : world) (content : text) : nat :=
  Re.matches build_section_pattern content.

Definition matches2 (files : list text) (w : world) (content : text) : nat :=
  Re.matches file_ref_pattern (content1 files w content).

Definition matches3 (files : list text) (w : world) (content : text) : nat :=
  Re.matches main_group_pattern (content2 files w content).

Definition matches4 (files : list text) (w : world) (content : text) : nat :=
  Re.matches sources_pattern (content3 files w content).

(** Every anchor is met exactly once by its substitution. *)
Definition anchors_once (files : list text) (w : world) (content : text)
  : bool :=
  (matches1 files w content =? 1) && (matches2 files w content =? 1)
  && (matches3 files w content =? 1) && (matches4 files w content =? 1).

(** A computation that prints nothing. *)
Definition quiet {A} (m : M A) : Prop :=
  forall w a w', m w = Ok a w' -> stdout w' = stdout w.

(** Every anchor is met at least once by its substitution. *)
Definition anchors_present (files : list text) (w : world) (content : text)
  : bool :=
  (0 <? matches1 files w content) && (0 <? matches2 files w content)
  && (0 <? matches3 files w content) && (0 <? matches4 files w content).

(** [next] is [prev] with [frag] put immediately before [anchor], and
    nothing else changed. *)
Definition put_before (anchor frag prev next : text) : Prop :=
  exists pre post,
    prev = pre ++ anchor ++ post /\ next = pre ++ frag ++ anchor ++ post.

(** [next] is [prev] with [frag] put immediately after a text
    [head ... tail], and nothing else changed. *)
Definition put_after (head tail frag prev next : text) : Prop :=
  exists pre gap post,
    prev = pre ++ (head ++ gap ++ tail) ++ post /\
    next = pre ++ (head ++ gap ++ tail) ++ frag ++ post.

(** ** Sample inputs *)

(** A small descriptor with the four anchors, each once. *)
Definition SAMPLE_DESCRIPTOR : text :=
  Str.join [NL]
    (map chars
       [ "/* Begin PBXBuildFile section */";
         "/* End PBXBuildFile section */";
         "/* Begin PBXFileReference section */";
         "/* End PBXFileReference section */";
         "  IC0000150000000000000001 = {";
         "    isa = PBXGroup;";
         "    children = (";
         "    );";
         "  };";
         "  IC0000190000000000000001 /* Sources */ = {";
         "    isa = PBXSourcesBuildPhase;";
         "    files = (";
         "    );";
         "  };" ]%string)
    ++ [NL].

(** A descriptor in which the build-file anchor occurs twice. *)
Definition TWO_BUILD_SECTIONS : text :=
  BUILD_SECTION_END ++ [NL] ++ BUILD_SECTION_END ++ [NL].

(** A descriptor in which the last character of the file-reference anchor is
    the first character of the build-file anchor. *)
Definition OVERLAPPING_ANCHORS : text :=
  chars "/* End PBXFileReference section *" ++ BUILD_SECTION_END ++ [NL]
    ++ MAIN_GROUP_HEAD ++ MAIN_GROUP_TAIL ++ [NL]
    ++ SOURCES_HEAD ++ SOURCES_TAIL ++ [NL].


(** An entropy source whose values differ in the bytes an identifier keeps. *)
Definition sample_urandom (k : nat) : Z := ((Z.of_nat k + 1) * 2 ^ 32)%Z.

(** A world that holds [doc] under [PROJECT_PATH] and nothing else. *)
Definition sample_world (doc : text) : world :=
  mkworld (fun p => if Dict.key_eqb p PROJECT_PATH
                    then Some (mkfile true true doc) else None)
          sample_urandom 0 [].

(** No identifier of the run occurs in the descriptor read or in a path. *)
Definition ids_unseen (files : list text) (w : world) (doc : text) : bool :=
  forallb (fun x => absent x doc && forallb (absent x) files)
          (generated_ids w (length files)).

(** The identifiers of two consecutive runs over [files], the first one
    started in [w], in generation order. *)
Definition ids_of_two_runs (files : list text) (w : world) : list text :=
  generated_ids w (2 * length files).

(** None of them occurs in the descriptor read or in a path. *)
Definition ids_of_two_runs_unseen (files : list text) (w : world) (doc : text)
  : bool :=
  forallb (fun x => absent x doc && forallb (absent x) files)
          (ids_of_two_runs files w).

(** The sample world with the sample descriptor, and lists of paths that
    are not well formed. *)
Definition SAMPLE_WORLD : world := sample_world SAMPLE_DESCRIPTOR.

Definition LISTED_TWICE : list text := [chars "A.swift"; chars "A.swift"].

Definition WITH_BAD_ESCAPE : list text := [chars "a\q.swift"].

Definition WITH_LINE_BREAK : list text := [chars "a" ++ [NL] ++ chars "b.swift"].

(** ** Vocabulary of the further properties *)

(** The four substitutions in a row, on the text read; [None] when a
    template is refused. *)
Definition rewritten (files : list text) (w : world) (content : text)
  : option text :=
  match Re.sub build_section_pattern
          (build_section_insert files w ++ GROUP1) content with
  | None => None
  | Some c1 =>
    match Re.sub file_ref_pattern (file_ref_insert files w ++ GROUP1) c1 with
    | None => None
    | Some c2 =>
      match Re.sub main_group_pattern (GROUP1 ++ group_insert files w) c2 with
      | None => None
      | Some c3 =>
        Re.sub sources_pattern (GROUP1 ++ source_insert files w) c3
      end
    end
  end.

(** The world after a run that wrote [content] over the file [f]. *)
Definition written_world (files : list text) (path : text) (f : file)
  (w : world) (content : text) : world :=
  mkworld
    (fun p => if Dict.key_eqb p path
              then Some (mkfile (readable f) true content)
              else fs w p)
    (urandom w)
    (drawn w + 2 * length files)
    (stdout w ++ report files).

(** The outcome of a run, case by case. *)
Definition outcome_of_run (files : list text) (path : text) (w : world)
  : outcome unit :=
  match fs w path with
  | None => Raise FileNotFoundError w
  | Some f =>
    if readable f then
      match rewritten files w (data f) with
      | None => Raise ReError (drawn_more w (2 * length files))
      | Some content =>
        if writable f then Ok tt (written_world files path f w content)
        else Raise PermissionError (drawn_more w (2 * length files))
      end
    else Raise PermissionError w
  end.

(** A descriptor with the four anchors, each once, in which the last
    character of the build-file anchor is the first character of the
    file-reference anchor. *)
Definition SHARED_SLASH : text :=
  chars "/* End PBXBuildFile section *" ++ FILE_REF_SECTION_END ++ [NL]
    ++ MAIN_GROUP_HEAD ++ MAIN_GROUP_TAIL ++ [NL]
    ++ SOURCES_HEAD ++ SOURCES_TAIL ++ [NL].

(** The world a successful run over [files] leaves, started in [w] on the
    descriptor stored under [PROJECT_PATH]. *)
Definition after_run (files : list text) (w : world) : world :=
  final_world files PROJECT_PATH
    (mkfile true true (descriptor PROJECT_PATH w)) w.

(** * Facts about texts *)

Module StrFacts.
Import Str.

Lemma eqb_false_of_neq (a b : ascii) : a <> b -> Ascii.eqb a b = false.
Proof. intro H. apply Ascii.eqb_neq. exact H. Qed.

Lemma startswith_nil (s : text) : startswith [] s = true.
Proof. destruct s; reflexivity. Qed.

Lemma startswith_app (p s : text) : startswith p (p ++ s) = true.
Proof.
  induction p as [|a p IH]; [apply startswith_nil|].
  simpl. rewrite Ascii.eqb_refl. exact IH.
Qed.

Lemma startswith_split (p s : text) :
  startswith p s = true -> s = p ++ skipn (length p) s.
Proof.
  revert s. induction p as [|a p IH]; intros s H; simpl.
  - reflexivity.
  - destruct s as [|b s]; simpl in H; [discriminate|].
    apply andb_true_iff in H. destruct H as [Hab Hp].
    apply Ascii.eqb_eq in Hab. subst b.
    simpl. f_equal. apply IH. exact Hp.
Qed.

Lemma startswith_length (p s : text) :
  startswith p s = true -> length p <= length s.
Proof.
  intro H. rewrite (startswith_split p s H) at 1.
  rewrite length_app. lia.
Qed.

Lemma startswith_refl_iff (x y : text) :
  length x = length y -> startswith x y = true -> x = y.
Proof.
  intros Hl H. pose proof (startswith_split x y H) as E.
  rewrite Hl in E. rewrite skipn_all in E. rewrite app_nil_r in E.
  symmetry. exact E.
Qed.

(** A character foreign to [x] cuts the text for [x]. *)
Lemma startswith_sep (x a b : text) (c : ascii) :
  ~ In c x -> startswith x (a ++ c :: b) = startswith x a.
Proof.
  revert a. induction x as [|d x IH]; intros a Hc.
  - rewrite !startswith_nil. reflexivity.
  - destruct a as [|e a]; simpl.
    + rewrite eqb_false_of_neq; [reflexivity|].
      intro E. apply Hc. left. exact E.
    + rewrite IH; [reflexivity|].
      intro E. apply Hc. right. exact E.
Qed.

Lemma occurrences_nil (x : text) : x <> [] -> occurrences x [] = 0.
Proof. destruct x; [congruence|reflexivity]. Qed.

Lemma occurrences_sep (x a b : text) (c : ascii) :
  ~ In c x -> occurrences x (a ++ c :: b) = occurrences x a + occurrences x b.
Proof.
  intro Hc. induction a as [|e a IH].
  - simpl app. cbn [occurrences].
    pose proof (startswith_sep x [] b c Hc) as E. simpl app in E.
    rewrite E. lia.
  - change ((e :: a) ++ c :: b) with (e :: (a ++ c :: b)).
    cbn [occurrences]. rewrite IH.
    pose proof (startswith_sep x (e :: a) b c Hc) as E.
    change ((e :: a) ++ c :: b) with (e :: (a ++ c :: b)) in E.
    rewrite E. lia.
Qed.

Lemma occurrences_short (x s : text) :
  length s < length x -> occurrences x s = 0.
Proof.
  induction s as [|c s IH]; intro Hl.
  - apply occurrences_nil. destruct x; [simpl in Hl; lia|congruence].
  - cbn [occurrences]. rewrite IH by (simpl in Hl; lia).
    destruct (startswith x (c :: s)) eqn:E; [|reflexivity].
    apply startswith_length in E. lia.
Qed.

Lemma occurrences_same_length (x y : text) :
  x <> [] -> length x = length y ->
  occurrences x y = if Dict.key_eqb x y then 1 else 0.
Proof.
  intros Hx Hl. destruct y as [|c y].
  - destruct x; [congruence|discriminate].
  - cbn [occurrences].
    rewrite (occurrences_short x y) by (simpl in Hl; lia).
    unfold Dict.key_eqb.
    destruct (list_eq_dec ascii_dec x (c :: y)) as [E|E].
    + subst x. pose proof (startswith_app (c :: y) []) as S0.
      rewrite app_nil_r in S0. rewrite S0. reflexivity.
    + destruct (startswith x (c :: y)) eqn:S0; [|reflexivity].
      exfalso. apply E. apply startswith_refl_iff; assumption.
Qed.

Lemma occurrences_suffix (x a b : text) :
  occurrences x b <= occurrences x (a ++ b).
Proof.
  induction a as [|c a IH]; [apply Nat.le_refl|].
  change ((c :: a) ++ b) with (c :: (a ++ b)). cbn [occurrences]. lia.
Qed.


Lemma count_app (c : ascii) (a b : text) :
  count c (a ++ b) = count c a + count c b.
Proof.
  induction a as [|e a IH]; simpl; [reflexivity|]. rewrite IH. lia.
Qed.

Lemma count_zero_iff (c : ascii) (s : text) :
  existsb (Ascii.eqb c) s = false -> count c s = 0.
Proof.
  induction s as [|e s IH]; simpl; [reflexivity|].
  intro H. apply orb_false_iff in H. destruct H as [H1 H2].
  rewrite H1. rewrite IH by exact H2. reflexivity.
Qed.

Lemma join_nil_concat (l : list text) : join [] l = concat l.
Proof.
  induction l as [|x l IH]; [reflexivity|].
  cbn [join concat]. destruct l as [|y l].
  - simpl. rewrite app_nil_r. reflexivity.
  - rewrite IH. reflexivity.
Qed.

(** [sep.join(l) + sep] puts one [sep] after every element of a list that
    is not empty. *)
Lemma join_terminated (sep : text) (l : list text) :
  l <> [] -> join sep l ++ sep = concat (map (fun e => e ++ sep) l).
Proof.
  induction l as [|x l IH]; [congruence|]. intros _.
  cbn [join map concat]. destruct l as [|y l].
  - simpl. rewrite app_nil_r. reflexivity.
  - rewrite <- IH by discriminate. rewrite <- !app_assoc. reflexivity.
Qed.

Lemma embeds_refl (s : text) : embeds s s.
Proof. induction s; constructor; assumption. Qed.

Lemma embeds_insert (a s t : text) : embeds s t -> embeds s (a ++ t).
Proof. intro H. induction a; simpl; [exact H|constructor; exact IHa]. Qed.

Lemma embeds_app (a b c d : text) :
  embeds a b -> embeds c d -> embeds (a ++ c) (b ++ d).
Proof.
  intros H1 H2. induction H1; simpl.
  - exact H2.
  - constructor. exact IHembeds.
  - constructor. exact IHembeds.
Qed.


Lemma embeds_trans (a b c : text) : embeds a b -> embeds b c -> embeds a c.
Proof.
  intros Hab Hbc. revert a Hab.
  induction Hbc as [|x b c Hbc IH|x b c Hbc IH]; intros a Hab.
  - exact Hab.
  - inversion Hab; subst.
    + constructor. apply IH. assumption.
    + apply embeds_skip. apply IH. assumption.
  - apply embeds_skip. apply IH. exact Hab.
Qed.

Lemma find_bound (p s : text) (k : nat) :
  find p s = Some k -> k + length p <= length s.
Proof.
  revert k. induction s as [|c s IH]; intros k H.
  - cbn [find] in H. destruct (startswith p []) eqn:E; [|discriminate].
    injection H as <-. apply startswith_length in E. simpl in *. lia.
  - cbn [find] in H. destruct (startswith p (c :: s)) eqn:E.
    + injection H as <-. apply startswith_length in E. simpl in *. lia.
    + destruct (find p s) as [j|]; [|discriminate].
      injection H as <-. specialize (IH j eq_refl). simpl. lia.
Qed.

Lemma find_startswith (p s : text) (k : nat) :
  find p s = Some k -> startswith p (skipn k s) = true.
Proof.
  revert k. induction s as [|c s IH]; intros k H.
  - cbn [find] in H. destruct (startswith p []) eqn:E; [|discriminate].
    injection H as <-. exact E.
  - cbn [find] in H. destruct (startswith p (c :: s)) eqn:E.
    + injection H as <-. exact E.
    + destruct (find p s) as [j|]; [|discriminate].
      injection H as <-. simpl. apply IH. reflexivity.
Qed.

Lemma find_first (p s : text) (k j : nat) :
  find p s = Some k -> j < k -> startswith p (skipn j s) = false.
Proof.
  revert k j. induction s as [|c s IH]; intros k j H Hj.
  - cbn [find] in H. destruct (startswith p []); [|discriminate].
    injection H as <-. lia.
  - cbn [find] in H. destruct (startswith p (c :: s)) eqn:E.
    + injection H as <-. lia.
    + destruct (find p s) as [i|] eqn:F; [|discriminate].
      injection H as <-. destruct j as [|j]; [exact E|].
      simpl. apply (IH i); [reflexivity|lia].
Qed.

Lemma split_nonempty (sep : ascii) (s : text) : split sep s <> [].
Proof.
  destruct s as [|c s]; simpl; [discriminate|].
  destruct (Ascii.eqb c sep); [discriminate|].
  destruct (split sep s); discriminate.
Qed.

Lemma join_split (sep : ascii) (s : text) : join [sep] (split sep s) = s.
Proof.
  induction s as [|c s IH]; [reflexivity|].
  cbn [split]. pose proof (split_nonempty sep s) as Hne.
  destruct (Ascii.eqb c sep) eqn:E.
  - apply Ascii.eqb_eq in E. subst c.
    destruct (split sep s) as [|h t]; [congruence|].
    cbn [join]. cbn [join] in IH. rewrite IH. reflexivity.
  - destruct (split sep s) as [|h t]; [congruence|].
    cbn [join]. cbn [join] in IH. destruct t; simpl; rewrite <- IH; reflexivity.
Qed.

Lemma join_last_suffix (sep : text) (l : list text) :
  exists a, join sep l = a ++ last l [].
Proof.
  induction l as [|x l [a IH]].
  - exists []. reflexivity.
  - destruct l as [|y l].
    + exists []. reflexivity.
    + exists (x ++ sep ++ a).
      change (last (x :: y :: l) []) with (last (y :: l) []).
      cbn [join]. cbn [join] in IH. rewrite IH.
      rewrite <- !app_assoc. reflexivity.
Qed.

(** The last field of a split is an end of the text. *)
Lemma split_last_suffix (sep : ascii) (s : text) :
  exists a, s = a ++ last (split sep s) [].
Proof.
  destruct (join_last_suffix [sep] (split sep s)) as [a E].
  rewrite join_split in E. exists a. exact E.
Qed.

End StrFacts.

(** * Facts about matching and substitution *)

Module ReFacts.
Import Str StrFacts Re.

Lemma match_at_bounds (r : regex) (s : text) (n : nat) :
  match_at r s = Some n -> 0 < n <= length s.
Proof.
  destruct r as [c l|c p q]; unfold match_at.
  - destruct (startswith (c :: l) s) eqn:E; [|discriminate].
    intro H. injection H as <-. apply startswith_length in E. simpl in E. lia.
  - destruct (startswith (c :: p) s) eqn:E; [|discriminate].
    destruct (find q (skipn (S (length p)) s)) as [k|] eqn:F; [|discriminate].
    intro H. injection H as <-.
    apply find_bound in F. rewrite length_skipn in F.
    apply startswith_length in E. simpl in E. lia.
Qed.

Lemma match_at_cut (r : regex) (s : text) (n : nat) :
  match_at r s = Some n ->
  s = firstn n s ++ skipn n s /\ length (firstn n s) = n.
Proof.
  intro H. apply match_at_bounds in H. split.
  - symmetry. apply firstn_skipn.
  - apply firstn_length_le. lia.
Qed.

Lemma app_same_length {A} (a b c d : list A) :
  a ++ b = c ++ d -> length a = length c -> a = c /\ b = d.
Proof.
  revert c. induction a as [|x a IH]; intros c E L.
  - destruct c; [split; [reflexivity|exact E]|discriminate].
  - destruct c as [|y c]; [discriminate|].
    simpl in E, L. injection E as -> E. injection L as L.
    destruct (IH c E L) as [-> ->]. split; reflexivity.
Qed.

(** The text matched by a literal pattern is the literal. *)
Lemma match_at_Lit (c : ascii) (l m post : text) :
  match_at (Lit c l) (m ++ post) = Some (length m) -> m = c :: l.
Proof.
  unfold match_at.
  destruct (startswith (c :: l) (m ++ post)) eqn:E; [|discriminate].
  intro H. injection H as H.
  apply startswith_split in E.
  apply app_same_length in E; [apply E|]. simpl. lia.
Qed.

(** The text matched by a lazy pattern: the head, the shortest gap, and
    the tail. *)
Lemma match_at_Lazy (c : ascii) (p q m post : text) :
  match_at (Lazy c p q) (m ++ post) = Some (length m) ->
  exists gap, m = c :: p ++ gap ++ q /\
              find q (gap ++ q ++ post) = Some (length gap).
Proof.
  unfold match_at.
  destruct (startswith (c :: p) (m ++ post)) eqn:E; [|discriminate].
  destruct (find q (skipn (S (length p)) (m ++ post))) as [k|] eqn:F;
    [|discriminate].
  intro H. injection H as H.
  pose proof (startswith_split _ _ E) as E1.
  change (length (c :: p)) with (S (length p)) in E1.
  remember (skipn (S (length p)) (m ++ post)) as rest eqn:Er.
  pose proof (find_startswith _ _ _ F) as G.
  apply startswith_split in G.
  pose proof (find_bound _ _ _ F) as B.
  assert (R : rest = firstn k rest ++ q ++ skipn (length q) (skipn k rest)).
  { rewrite <- G. symmetry. apply firstn_skipn. }
  assert (Lk : length (firstn k rest) = k) by (apply firstn_length_le; lia).
  exists (firstn k rest).
  assert (M : m ++ post =
              (c :: p ++ firstn k rest ++ q)
                ++ skipn (length q) (skipn k rest)).
  { rewrite E1. rewrite R at 1. simpl. rewrite <- !app_assoc.
    reflexivity. }
  apply app_same_length in M.
  - destruct M as [Em P]. split; [exact Em|].
    rewrite Lk, P, <- R. exact F.
  - simpl. rewrite !length_app, Lk. lia.
Qed.

(** *** The scanning function *)

Lemma scan_skip (r : regex) (items : list titem) (s : text) (k : nat) :
  scan r items s k = scan r items (skipn k s) 0.
Proof.
  revert k. induction s as [|c s IH]; intro k.
  - destruct k; reflexivity.
  - destruct k as [|k]; [reflexivity|]. simpl. apply IH.
Qed.

Lemma scan_copy (r : regex) (items : list titem) (c : ascii) (s : text) :
  match_at r (c :: s) = None ->
  scan r items (c :: s) 0 =
  (c :: fst (scan r items s 0), snd (scan r items s 0)).
Proof.
  intro H. cbn [scan]. rewrite H.
  destruct (scan r items s 0). reflexivity.
Qed.

Lemma scan_match (r : regex) (items : list titem) (s : text) (n : nat) :
  match_at r s = Some n ->
  scan r items s 0 =
  (expand items (firstn n s) ++ fst (scan r items (skipn n s) 0),
   S (snd (scan r items (skipn n s) 0))).
Proof.
  intro H. pose proof (match_at_bounds _ _ _ H) as B.
  destruct s as [|c s]; [simpl in B; lia|].
  destruct n as [|n]; [lia|].
  cbn [scan]. rewrite H. rewrite scan_skip.
  change (skipn (S n) (c :: s)) with (skipn n s).
  destruct (scan r items (skipn n s) 0). reflexivity.
Qed.

Lemma expand_around (a b m : text) : expand (around a b) m = a ++ m ++ b.
Proof.
  unfold expand, around. rewrite flat_map_app. cbn [flat_map].
  assert (E : forall t, flat_map
                (fun i => match i with TChar c => [c] | TGroup _ => m end)
                (map TChar t) = t).
  { induction t as [|c t IH]; simpl; [reflexivity|]. rewrite IH. reflexivity. }
  rewrite !E. reflexivity.
Qed.

(** The number of matches does not depend on the template. *)
Lemma scan_count (r : regex) (items : list titem) (s : text) :
  snd (scan r items s 0) = matches r s.
Proof.
  unfold matches.
  induction s as [s IH] using (induction_ltof1 _ (@length ascii)).
  unfold ltof in IH. destruct s as [|c s]; [reflexivity|].
  destruct (match_at r (c :: s)) as [n|] eqn:E.
  - rewrite (scan_match r items _ _ E), (scan_match r [] _ _ E). simpl snd.
    f_equal. apply IH.
    pose proof (match_at_bounds _ _ _ E) as B.
    rewrite length_skipn. lia.
  - rewrite (scan_copy r items _ _ E), (scan_copy r [] _ _ E). simpl snd.
    apply IH. simpl. lia.
Qed.

(** The substitution wraps every match, from left to right. *)
Lemma splice_spliced (r : regex) (a b s : text) :
  spliced r a b s (splice r a b s) (matches r s).
Proof.
  rewrite <- (scan_count r (around a b)). unfold splice.
  induction s as [s IH] using (induction_ltof1 _ (@length ascii)).
  unfold ltof in IH. destruct s as [|c s]; [constructor|].
  destruct (match_at r (c :: s)) as [n|] eqn:E.
  - rewrite (scan_match r _ _ _ E). simpl fst. simpl snd.
    rewrite expand_around.
    destruct (match_at_cut _ _ _ E) as [C L].
    rewrite <- !app_assoc. rewrite C at 1.
    apply spliced_match.
    + rewrite <- C, L. exact E.
    + apply IH. pose proof (match_at_bounds _ _ _ E) as B.
      rewrite length_skipn. lia.
  - rewrite (scan_copy r _ _ _ E). simpl fst. simpl snd.
    apply spliced_copy; [exact E|]. apply IH. simpl. lia.
Qed.

Lemma matches_copy (r : regex) (c : ascii) (s : text) :
  match_at r (c :: s) = None -> matches r (c :: s) = matches r s.
Proof. intro H. unfold matches. rewrite (scan_copy _ _ _ _ H). reflexivity. Qed.


Section Spliced.
Variable r : regex.
Variables a b : text.

Lemma spliced_length (s out : text) (n : nat) :
  spliced r a b s out n ->
  length out = length s + n * (length a + length b).
Proof.
  induction 1 as [|c s out n _ _ IH|m post out n _ _ IH]; simpl.
  - reflexivity.
  - rewrite IH. reflexivity.
  - rewrite !length_app, IH. lia.
Qed.

Lemma spliced_embeds (s out : text) (n : nat) :
  spliced r a b s out n -> embeds s out.
Proof.
  induction 1 as [|c s out n _ _ IH|m post out n _ _ IH].
  - constructor.
  - constructor. exact IH.
  - apply embeds_insert. apply embeds_app; [apply embeds_refl|].
    apply embeds_insert. exact IH.
Qed.

Lemma spliced_count (ch : ascii) (s out : text) (n : nat) :
  spliced r a b s out n ->
  count ch out = count ch s + n * (count ch a + count ch b).
Proof.
  induction 1 as [|c s out n _ _ IH|m post out n _ _ IH]; simpl.
  - reflexivity.
  - rewrite IH. lia.
  - rewrite !count_app, IH. lia.
Qed.

Lemma spliced_none (s out : text) (n : nat) :
  spliced r a b s out n -> n = 0 -> out = s.
Proof.
  induction 1 as [|c s out n _ _ IH|m post out n _ _ IH]; intro Hn.
  - reflexivity.
  - rewrite IH by exact Hn. reflexivity.
  - discriminate.
Qed.


End Spliced.

(** With at most one match the substitution of every match and the
    substitution of the first match agree. *)
Lemma splice_first_copy (r : regex) (a b : text) (c : ascii) (s : text) :
  match_at r (c :: s) = None ->
  splice_first r a b (c :: s) = c :: splice_first r a b s.
Proof. intro H. cbn [splice_first]. rewrite H. reflexivity. Qed.

Lemma splice_first_match (r : regex) (a b m post : text) :
  match_at r (m ++ post) = Some (length m) ->
  splice_first r a b (m ++ post) = a ++ m ++ b ++ post.
Proof.
  intro H. pose proof (match_at_bounds _ _ _ H) as B.
  destruct m as [|c m]; [simpl in B; lia|].
  change ((c :: m) ++ post) with (c :: (m ++ post)) in *.
  simpl length in H. cbn [splice_first]. rewrite H. cbn [firstn].
  rewrite firstn_app, Nat.sub_diag, firstn_all, firstn_O, app_nil_r.
  rewrite skipn_app, Nat.sub_diag, skipn_all. reflexivity.
Qed.

Lemma spliced_once_first (r : regex) (a b s out : text) (n : nat) :
  spliced r a b s out n -> n <= 1 -> out = splice_first r a b s.
Proof.
  induction 1 as [|c s out n Hc H IH|m post out n Hm H IH]; intro Hn.
  - reflexivity.
  - rewrite splice_first_copy by exact Hc. rewrite IH by exact Hn.
    reflexivity.
  - rewrite splice_first_match by exact Hm.
    rewrite (spliced_none _ _ _ _ _ _ H) by lia. reflexivity.
Qed.

End ReFacts.

(** * Facts about templates *)

Module TemplateFacts.
Import Str StrFacts Re ReFacts.

Lemma no_backslash_cons (c : ascii) (f : text) :
  no_backslash (c :: f) = true ->
  Ascii.eqb c BACKSLASH = false /\ no_backslash f = true.
Proof.
  unfold no_backslash. simpl. rewrite negb_orb. intro H.
  apply andb_true_iff in H. destruct H as [H1 H2].
  split; [|exact H2].
  rewrite Ascii.eqb_sym. apply negb_true_iff. exact H1.
Qed.

Lemma no_backslash_app (a b : text) :
  no_backslash (a ++ b) = no_backslash a && no_backslash b.
Proof.
  unfold no_backslash. rewrite existsb_app, negb_orb. reflexivity.
Qed.

(** Text without a backslash is taken as it is. *)
Lemma parse_text (g : nat) (f t : text) :
  no_backslash f = true ->
  parse g TText (f ++ t) = option_map (app (map TChar f)) (parse g TText t).
Proof.
  induction f as [|c f IH]; intro H.
  - simpl. destruct (parse g TText t); reflexivity.
  - apply no_backslash_cons in H. destruct H as [Hc Hf].
    change ((c :: f) ++ t) with (c :: (f ++ t)).
    cbn [parse step]. unfold text_char. rewrite Hc.
    rewrite (IH Hf). destruct (parse g TText t); reflexivity.
Qed.

Lemma parse_before (f : text) :
  no_backslash f = true ->
  parse_template 1 (f ++ GROUP1) = Some (around f []).
Proof.
  intro H. unfold parse_template. rewrite (parse_text 1 f GROUP1 H).
  reflexivity.
Qed.

Lemma parse_after (f : text) :
  no_backslash f = true ->
  digit_of (hd NL f) = None ->
  parse_template 1 (GROUP1 ++ f) = Some (around [] f).
Proof.
  intros H D. unfold parse_template. destruct f as [|c f].
  - reflexivity.
  - apply no_backslash_cons in H. destruct H as [Hc Hf].
    simpl in D. unfold GROUP1.
    change (([BACKSLASH; "1"%char] ++ c :: f))
      with (BACKSLASH :: "1"%char :: c :: f).
    cbn [parse]. change (step 1 TText BACKSLASH) with (Some (TEsc, @nil titem)).
    cbn iota beta. change (step 1 TEsc "1"%char) with (Some (TRef1 1, @nil titem)).
    cbn iota beta. cbn [step]. rewrite D.
    unfold close_with, text_char. rewrite Hc. cbn [fst snd].
    change (addgroup 1 1) with (Some [TGroup 1]). cbn iota beta.
    pose proof (parse_text 1 f [] Hf) as P. rewrite app_nil_r in P.
    rewrite P. cbn [parse finish option_map app].
    rewrite !app_nil_r. reflexivity.
Qed.

Lemma sub_before (r : regex) (f s : text) :
  no_backslash f = true ->
  Re.sub r (f ++ GROUP1) s = Some (splice r f [] s).
Proof.
  intro H. unfold Re.sub, subn. rewrite (parse_before f H). reflexivity.
Qed.

Lemma sub_after (r : regex) (f s : text) :
  no_backslash f = true ->
  digit_of (hd NL f) = None ->
  Re.sub r (GROUP1 ++ f) s = Some (splice r [] f s).
Proof.
  intros H D. unfold Re.sub, subn. rewrite (parse_after f H D). reflexivity.
Qed.

End TemplateFacts.

(** * Facts about identifiers *)

Module UuidFacts.
Import Str StrFacts Uuid.

Lemma byte_range (u : Z) (k : nat) :
  (0 <= Z.land (Z.shiftr u (8 * (15 - Z.of_nat k))) 255 < 256)%Z.
Proof.
  change 255%Z with (Z.ones 8). rewrite Z.land_ones by lia.
  apply Z.mod_pos_bound. reflexivity.
Qed.

Lemma bytes_range (u b : Z) : In b (bytes u) -> (0 <= b < 256)%Z.
Proof.
  unfold bytes. intro H. apply in_map_iff in H.
  destruct H as (k & <- & _). apply byte_range.
Qed.

Lemma bytes_length (u : Z) : length (bytes u) = 16.
Proof. unfold bytes. rewrite length_map, length_seq. reflexivity. Qed.

(** A property checked on the 256 bytes holds of every byte. *)
Lemma all_bytes (P : Z -> bool) :
  forallb P (map Z.of_nat (seq 0 256)) = true ->
  forall b, (0 <= b < 256)%Z -> P b = true.
Proof.
  intros H b Hb. rewrite forallb_forall in H. apply H.
  apply in_map_iff. exists (Z.to_nat b). split; [lia|].
  apply in_seq. lia.
Qed.

Lemma format_02X_byte (b : Z) :
  (0 <= b < 256)%Z ->
  length (format_02X b) = 2 /\ forallb is_upper_hex (format_02X b) = true.
Proof.
  intro Hb.
  pose proof (all_bytes
    (fun x => (length (format_02X x) =? 2)
              && forallb is_upper_hex (format_02X x))) as A.
  cbv beta in A. specialize (A ltac:(vm_compute; reflexivity) b Hb).
  apply andb_true_iff in A. destruct A as [A1 A2].
  apply Nat.eqb_eq in A1. split; assumption.
Qed.

Lemma concat_pairs (l : list text) :
  Forall (fun t => length t = 2 /\ forallb is_upper_hex t = true) l ->
  length (concat l) = 2 * length l /\
  forallb is_upper_hex (concat l) = true.
Proof.
  induction 1 as [|t l [L H] _ [IL IH]]; [split; reflexivity|].
  simpl. rewrite length_app, forallb_app, L, IL, H, IH. split; [lia|reflexivity].
Qed.

(** An identifier is 24 upper-case hexadecimal digits. *)
Lemma id_of_shape (rnd : Z) :
  length (id_of rnd) = 24 /\ forallb is_upper_hex (id_of rnd) = true.
Proof.
  unfold id_of. rewrite join_nil_concat.
  assert (F : Forall (fun t => length t = 2 /\ forallb is_upper_hex t = true)
                (map format_02X (firstn 12 (bytes (uuid4 rnd))))).
  { apply Forall_forall. intros t Ht. apply in_map_iff in Ht.
    destruct Ht as (b & <- & Hb). apply format_02X_byte.
    apply (bytes_range (uuid4 rnd)).
    rewrite <- (firstn_skipn 12 (bytes (uuid4 rnd))).
    apply in_or_app. left. exact Hb. }
  destruct (concat_pairs _ F) as [L H]. split; [|exact H].
  rewrite L, length_map, length_firstn, bytes_length. reflexivity.
Qed.

Lemma id_of_length (rnd : Z) : length (id_of rnd) = 24.
Proof. apply id_of_shape. Qed.

Lemma id_of_hex (rnd : Z) (c : ascii) :
  In c (id_of rnd) -> is_upper_hex c = true.
Proof.
  intro H. destruct (id_of_shape rnd) as [_ F].
  rewrite forallb_forall in F. apply F. exact H.
Qed.

Lemma id_of_sep (rnd : Z) (c : ascii) :
  is_upper_hex c = false -> ~ In c (id_of rnd).
Proof. intros H I. apply id_of_hex in I. congruence. Qed.

Lemma id_of_nonempty (rnd : Z) : id_of rnd <> [].
Proof.
  intro E. pose proof (id_of_length rnd) as L. rewrite E in L. discriminate.
Qed.

Lemma id_of_no_backslash (rnd : Z) : no_backslash (id_of rnd) = true.
Proof.
  unfold no_backslash. apply negb_true_iff.
  destruct (existsb (Ascii.eqb BACKSLASH) (id_of rnd)) eqn:E; [|reflexivity].
  apply existsb_exists in E. destruct E as (c & I & E).
  apply Ascii.eqb_eq in E. subst c. apply id_of_hex in I. discriminate.
Qed.

Lemma id_of_no_newline (rnd : Z) : no_newline (id_of rnd) = true.
Proof.
  unfold no_newline. apply negb_true_iff.
  destruct (existsb (Ascii.eqb NL) (id_of rnd)) eqn:E; [|reflexivity].
  apply existsb_exists in E. destruct E as (c & I & E).
  apply Ascii.eqb_eq in E. subst c. apply id_of_hex in I. discriminate.
Qed.

End UuidFacts.

(** * Facts about dictionaries *)

Module DictFacts.
Import Dict.

Lemma key_eqb_eq (a b : text) : key_eqb a b = true <-> a = b.
Proof.
  unfold key_eqb. destruct (list_eq_dec ascii_dec a b); split; congruence.
Qed.

Lemma key_eqb_refl (a : text) : key_eqb a a = true.
Proof. apply key_eqb_eq. reflexivity. Qed.

Lemma key_eqb_neq (a b : text) : key_eqb a b = false <-> a <> b.
Proof.
  unfold key_eqb. destruct (list_eq_dec ascii_dec a b); split; congruence.
Qed.

Lemma keys_set (k v : text) (d : t) (k' : text) :
  In k' (map fst (set k v d)) <-> k' = k \/ In k' (map fst d).
Proof.
  induction d as [|[k0 v0] d IH]; simpl.
  - intuition congruence.
  - destruct (key_eqb k k0) eqn:E; simpl.
    + apply key_eqb_eq in E. subst k0. intuition congruence.
    + rewrite IH. intuition congruence.
Qed.

Lemma get_in (k : text) (d : t) :
  In k (map fst d) -> exists v, get k d = Some v /\ In v (map snd d).
Proof.
  induction d as [|[k0 v0] d IH]; simpl; [contradiction|].
  intro H. destruct (key_eqb k k0) eqn:E.
  - exists v0. split; [reflexivity|left; reflexivity].
  - apply key_eqb_neq in E.
    destruct H as [H|H]; [congruence|].
    destruct (IH H) as (v & G & I). exists v. split; [exact G|right; exact I].
Qed.

Lemma values_set (k v : text) (d : t) (v' : text) :
  In v' (map snd (set k v d)) -> v' = v \/ In v' (map snd d).
Proof.
  induction d as [|[k0 v0] d IH]; simpl.
  - intuition congruence.
  - destruct (key_eqb k k0) eqn:E; simpl.
    + intuition congruence.
    + intros [H|H]; [right; left; exact H|].
      destruct (IH H) as [H'|H']; [left; exact H'|right; right; exact H'].
Qed.

(** A key that is new goes to the end. *)
Lemma set_new (k v : text) (d : t) :
  ~ In k (map fst d) -> set k v d = d ++ [(k, v)].
Proof.
  induction d as [|[k0 v0] d IH]; simpl; intro H; [reflexivity|].
  destruct (key_eqb k k0) eqn:E.
  - apply key_eqb_eq in E. subst k0. exfalso. apply H. left. reflexivity.
  - rewrite IH; [reflexivity|]. intro I. apply H. right. exact I.
Qed.



End DictFacts.

(** * The run of the script *)

Module RunFacts.
Import Str StrFacts Re ReFacts TemplateFacts UuidFacts DictFacts.

(** *** The dictionaries *)

Lemma assign_keys (rnd : nat -> Z) (files : list text) :
  forall k d p,
    (In p (map fst (fst (assign rnd k files d))) <->
     In p (map fst (fst d)) \/ In p files) /\
    (In p (map fst (snd (assign rnd k files d))) <->
     In p (map fst (snd d)) \/ In p files).
Proof.
  induction files as [|q files IH]; intros k d p.
  - simpl. tauto.
  - cbn [assign]. destruct (IH (S (S k))
      (Dict.set q (Uuid.id_of (rnd k)) (fst d),
       Dict.set q (Uuid.id_of (rnd (S k))) (snd d)) p) as [I1 I2].
    cbn [fst snd] in I1, I2. rewrite keys_set in I1, I2.
    split; [rewrite I1|rewrite I2]; simpl; intuition congruence.
Qed.

Lemma assign_values (P : text -> Prop) (rnd : nat -> Z)
  (files : list text) :
  (forall j, P (Uuid.id_of (rnd j))) ->
  forall k d,
    (forall v, In v (map snd (fst d)) -> P v) ->
    (forall v, In v (map snd (snd d)) -> P v) ->
    (forall v, In v (map snd (fst (assign rnd k files d))) -> P v) /\
    (forall v, In v (map snd (snd (assign rnd k files d))) -> P v).
Proof.
  intro HP. induction files as [|q files IH]; intros k d H1 H2.
  - split; assumption.
  - cbn [assign]. apply IH; cbn [fst snd]; intros v Hv;
      apply values_set in Hv; destruct Hv as [->|Hv]; auto.
Qed.

Lemma file_refs_has (files : list text) (w : world) (p : text) :
  In p files ->
  exists v, Dict.get p (file_refs_of files w) = Some v /\
            exists j, v = Uuid.id_of (urandom w j).
Proof.
  intro H. unfold file_refs_of.
  destruct (assign_keys (urandom w) files (drawn w)
              (Dict.empty, Dict.empty) p) as [K _].
  destruct (get_in p _ (proj2 K (or_intror H))) as (v & G & I).
  exists v. split; [exact G|].
  destruct (assign_values (fun v => exists j, v = Uuid.id_of (urandom w j))
              (urandom w) files (fun j => ex_intro _ j eq_refl)
              (drawn w) (Dict.empty, Dict.empty)) as [V _];
    try (simpl; contradiction).
  apply V. exact I.
Qed.

Lemma build_files_has (files : list text) (w : world) (p : text) :
  In p files ->
  exists v, Dict.get p (build_files_of files w) = Some v /\
            exists j, v = Uuid.id_of (urandom w j).
Proof.
  intro H. unfold build_files_of.
  destruct (assign_keys (urandom w) files (drawn w)
              (Dict.empty, Dict.empty) p) as [_ K].
  destruct (get_in p _ (proj2 K (or_intror H))) as (v & G & I).
  exists v. split; [exact G|].
  destruct (assign_values (fun v => exists j, v = Uuid.id_of (urandom w j))
              (urandom w) files (fun j => ex_intro _ j eq_refl)
              (drawn w) (Dict.empty, Dict.empty)) as [_ V];
    try (simpl; contradiction).
  apply V. exact I.
Qed.

Lemma file_refs_items (files : list text) (w : world) (p v : text) :
  In (p, v) (Dict.items (file_refs_of files w)) ->
  In p files /\ exists j, v = Uuid.id_of (urandom w j).
Proof.
  unfold Dict.items, file_refs_of. intro H. split.
  - destruct (assign_keys (urandom w) files (drawn w)
                (Dict.empty, Dict.empty) p) as [K _].
    destruct (proj1 K (in_map fst _ _ H)) as [F|F]; [contradiction|exact F].
  - destruct (assign_values (fun v => exists j, v = Uuid.id_of (urandom w j))
                (urandom w) files (fun j => ex_intro _ j eq_refl)
                (drawn w) (Dict.empty, Dict.empty)) as [V _];
      try (simpl; contradiction).
    apply V. apply (in_map snd _ _ H).
Qed.

Lemma build_files_items (files : list text) (w : world) (p v : text) :
  In (p, v) (Dict.items (build_files_of files w)) ->
  In p files /\ exists j, v = Uuid.id_of (urandom w j).
Proof.
  unfold Dict.items, build_files_of. intro H. split.
  - destruct (assign_keys (urandom w) files (drawn w)
                (Dict.empty, Dict.empty) p) as [_ K].
    destruct (proj1 K (in_map fst _ _ H)) as [F|F]; [contradiction|exact F].
  - destruct (assign_values (fun v => exists j, v = Uuid.id_of (urandom w j))
                (urandom w) files (fun j => ex_intro _ j eq_refl)
                (drawn w) (Dict.empty, Dict.empty)) as [_ V];
      try (simpl; contradiction).
    apply V. apply (in_map snd _ _ H).
Qed.

Lemma lookup_get (d : Dict.t) (k v : text) :
  Dict.get k d = Some v -> lookup d k = v.
Proof. unfold lookup. intros ->. reflexivity. Qed.

(** *** Backslashes *)

Lemma basename_suffix (p : text) : exists a, p = a ++ basename p.
Proof. apply split_last_suffix. Qed.

Lemma basename_no_backslash (p : text) :
  no_backslash p = true -> no_backslash (basename p) = true.
Proof.
  destruct (basename_suffix p) as [a E]. rewrite E at 1.
  rewrite no_backslash_app. intro H. apply andb_true_iff in H. apply H.
Qed.

Lemma build_file_entry_no_backslash (b fn r : text) :
  no_backslash b = true -> no_backslash fn = true -> no_backslash r = true ->
  no_backslash (build_file_entry b fn r) = true.
Proof.
  intros Hb Hf Hr. unfold build_file_entry.
  rewrite !no_backslash_app, Hb, Hf, Hr. reflexivity.
Qed.

Lemma file_ref_entry_no_backslash (r fn p : text) :
  no_backslash r = true -> no_backslash fn = true -> no_backslash p = true ->
  no_backslash (file_ref_entry r fn p) = true.
Proof.
  intros Hr Hf Hp. unfold file_ref_entry.
  rewrite !no_backslash_app, Hr, Hf, Hp. reflexivity.
Qed.

Lemma group_entry_no_backslash (r fn : text) :
  no_backslash r = true -> no_backslash fn = true ->
  no_backslash (group_entry r fn) = true.
Proof.
  intros Hr Hf. unfold group_entry.
  rewrite !no_backslash_app, Hr, Hf. reflexivity.
Qed.

Lemma source_entry_no_backslash (b fn : text) :
  no_backslash b = true -> no_backslash fn = true ->
  no_backslash (source_entry b fn) = true.
Proof.
  intros Hb Hf. unfold source_entry.
  rewrite !no_backslash_app, Hb, Hf. reflexivity.
Qed.

Lemma join_no_backslash (sep : text) (l : list text) :
  no_backslash sep = true ->
  (forall e, In e l -> no_backslash e = true) ->
  no_backslash (join sep l) = true.
Proof.
  intros Hs. induction l as [|x l IH]; intro H; [reflexivity|].
  cbn [join]. destruct l as [|y l].
  - apply H. left. reflexivity.
  - rewrite !no_backslash_app, Hs, (H x (or_introl eq_refl)).
    rewrite IH; [reflexivity|]. intros e He. apply H. right. exact He.
Qed.

Section Clean.
Variable files : list text.
Variable w : world.
Hypothesis Hfiles : forallb no_backslash files = true.

Lemma path_clean (p : text) : In p files -> no_backslash p = true.
Proof. intro H. rewrite forallb_forall in Hfiles. apply Hfiles. exact H. Qed.

Lemma build_section_insert_clean :
  no_backslash (build_section_insert files w) = true.
Proof.
  unfold build_section_insert. rewrite no_backslash_app.
  rewrite join_no_backslash; [reflexivity|reflexivity|].
  intros e He. unfold build_file_entries in He.
  apply in_map_iff in He. destruct He as ([p v] & <- & I).
  apply build_files_items in I. destruct I as [Ip [j ->]].
  destruct (file_refs_has files w p Ip) as (r & G & j' & ->).
  rewrite (lookup_get _ _ _ G).
  apply build_file_entry_no_backslash;
    auto using id_of_no_backslash, basename_no_backslash, path_clean.
Qed.

Lemma file_ref_insert_clean :
  no_backslash (file_ref_insert files w) = true.
Proof.
  unfold file_ref_insert. rewrite no_backslash_app.
  rewrite join_no_backslash; [reflexivity|reflexivity|].
  intros e He. unfold file_ref_entries in He.
  apply in_map_iff in He. destruct He as ([p v] & <- & I).
  apply file_refs_items in I. destruct I as [Ip [j ->]].
  apply file_ref_entry_no_backslash;
    auto using id_of_no_backslash, basename_no_backslash, path_clean.
Qed.

Lemma group_insert_clean : no_backslash (group_insert files w) = true.
Proof.
  unfold group_insert. apply join_no_backslash; [reflexivity|].
  intros e He. unfold group_entries in He.
  apply in_map_iff in He. destruct He as (p & <- & Ip).
  destruct (file_refs_has files w p Ip) as (r & G & j' & ->).
  rewrite (lookup_get _ _ _ G).
  apply group_entry_no_backslash;
    auto using id_of_no_backslash, basename_no_backslash, path_clean.
Qed.

Lemma source_insert_clean : no_backslash (source_insert files w) = true.
Proof.
  unfold source_insert. apply join_no_backslash; [reflexivity|].
  intros e He. unfold source_entries in He.
  apply in_map_iff in He. destruct He as (p & <- & Ip).
  destruct (build_files_has files w p Ip) as (r & G & j' & ->).
  rewrite (lookup_get _ _ _ G).
  apply source_entry_no_backslash;
    auto using id_of_no_backslash, basename_no_backslash, path_clean.
Qed.

End Clean.

(** The two fragments placed behind [\1] do not start with a digit. *)
Lemma join_entries_head (l : list text) :
  (forall e, In e l -> exists t, e = NL :: t) -> hd NL (join [] l) = NL.
Proof.
  destruct l as [|x l]; intro H; [reflexivity|].
  destruct (H x (or_introl eq_refl)) as [t ->].
  cbn [join]. destruct l; reflexivity.
Qed.

Lemma group_insert_head (files : list text) (w : world) :
  hd NL (group_insert files w) = NL.
Proof.
  apply join_entries_head. intros e He. unfold group_entries in He.
  apply in_map_iff in He. destruct He as (p & <- & _).
  eexists. reflexivity.
Qed.

Lemma source_insert_head (files : list text) (w : world) :
  hd NL (source_insert files w) = NL.
Proof.
  apply join_entries_head. intros e He. unfold source_entries in He.
  apply in_map_iff in He. destruct He as (p & <- & _).
  eexists. reflexivity.
Qed.

(** *** The monad *)

Lemma bind_Ok {A B} (m : M A) (k : A -> M B) (w w' : world) (a : A) :
  m w = Ok a w' -> bind m k w = k a w'.
Proof. unfold bind. intros ->. reflexivity. Qed.


Lemma drawn_more_0 (w : world) : drawn_more w 0 = w.
Proof. destruct w. unfold drawn_more. simpl. rewrite Nat.add_0_r. reflexivity. Qed.

(** The first loop draws two identifiers per path. *)
Lemma loop_generate (files : list text) :
  forall d w,
    foldM (fun '(file_refs, build_files) filepath =>
             let filename := basename filepath in
             id <- generate_id ;;
             let file_refs := Dict.set filepath id file_refs in
             id <- generate_id ;;
             let build_files := Dict.set filepath id build_files in
             ret (file_refs, build_files))%py
          files d w
    = Ok (assign (urandom w) (drawn w) files d)
         (drawn_more w (2 * length files)).
Proof.
  induction files as [|p files IH]; intros [d1 d2] w.
  - cbn [foldM assign length]. rewrite drawn_more_0. reflexivity.
  - cbn [foldM assign]. unfold bind at 1. unfold bind at 1. unfold generate_id at 1.
    unfold bind at 1. unfold generate_id at 1. unfold ret at 1.
    rewrite IH. cbn [urandom drawn fst snd]. f_equal.
    unfold drawn_more. cbn [fs urandom drawn stdout length]. f_equal. lia.
Qed.

Lemma loop_build_file_entries (file_refs : Dict.t)
  (items : list (text * text)) :
  (forall p v, In (p, v) items -> Dict.get p file_refs <> None) ->
  forall acc w,
    foldM (fun entries '(filepath, build_id) =>
             let filename := basename filepath in
             file_ref_id <- getitem file_refs filepath ;;
             ret (entries ++ [build_file_entry build_id filename file_ref_id]))%py
          items acc w
    = Ok (acc ++ map (fun '(filepath, id) =>
                        build_file_entry id (basename filepath)
                                         (lookup file_refs filepath)) items)
         w.
Proof.
  induction items as [|[p v] items IH]; intros H acc w.
  - cbn [foldM map]. rewrite app_nil_r. reflexivity.
  - cbn [foldM map]. unfold bind at 1. unfold bind at 1.
    unfold getitem at 1, lookup at 1.
    destruct (Dict.get p file_refs) as [r|] eqn:G.
    + cbn [lift]. unfold ret at 1. unfold ret at 1.
      rewrite IH by (intros p' v' I; apply (H p' v'); right; exact I).
      rewrite <- app_assoc. reflexivity.
    + exfalso. apply (H p v); [left; reflexivity|exact G].
Qed.

Lemma loop_file_ref_entries (items : list (text * text)) :
  forall acc w,
    foldM (fun entries '(filepath, file_ref_id) =>
             let filename := basename filepath in
             ret (entries ++ [file_ref_entry file_ref_id filename filepath]))%py
          items acc w
    = Ok (acc ++ map (fun '(filepath, id) =>
                        file_ref_entry id (basename filepath) filepath) items)
         w.
Proof.
  induction items as [|[p v] items IH]; intros acc w.
  - cbn [foldM map]. rewrite app_nil_r. reflexivity.
  - cbn [foldM map]. unfold bind at 1. unfold ret at 1.
    rewrite IH. rewrite <- app_assoc. reflexivity.
Qed.

Lemma comprehension_lookup (d : Dict.t) (g : text -> text -> text)
  (files : list text) :
  (forall p, In p files -> Dict.get p d <> None) ->
  forall w,
    mapM (fun filepath =>
            id <- getitem d filepath ;;
            ret (g id filepath))%py files w
    = Ok (map (fun filepath => g (lookup d filepath) filepath) files) w.
Proof.
  induction files as [|p files IH]; intros H w.
  - reflexivity.
  - cbn [mapM map]. unfold bind at 1. unfold bind at 1.
    unfold getitem at 1, lookup at 1.
    destruct (Dict.get p d) as [r|] eqn:G.
    + cbn [lift]. unfold ret at 1. unfold ret at 1.
      unfold bind at 1.
      rewrite IH by (intros p' I; apply H; right; exact I).
      reflexivity.
    + exfalso. apply (H p); [left; reflexivity|exact G].
Qed.

Lemma loop_print (pre : text) (files : list text) :
  forall w,
    foldM (fun _ filepath => print (pre ++ filepath)) files tt w
    = Ok tt (printed w (map (fun filepath => pre ++ filepath) files)).
Proof.
  induction files as [|p files IH]; intro w.
  - cbn [foldM map]. unfold ret, printed. rewrite app_nil_r.
    destruct w; reflexivity.
  - cbn [foldM map]. unfold bind at 1. unfold print at 1.
    rewrite IH. unfold printed. cbn [fs urandom drawn stdout].
    rewrite <- app_assoc. reflexivity.
Qed.

Lemma re_sub_before (r : regex) (f s : text) (w : world) :
  no_backslash f = true ->
  re_sub r (f ++ GROUP1) s w = Ok (splice r f [] s) w.
Proof. intro H. unfold re_sub. rewrite (sub_before r f s H). reflexivity. Qed.

Lemma re_sub_after (r : regex) (f s : text) (w : world) :
  no_backslash f = true -> hd NL f = NL ->
  re_sub r (GROUP1 ++ f) s w = Ok (splice r [] f s) w.
Proof.
  intros H D. unfold re_sub. rewrite (sub_after r f s H); [reflexivity|].
  rewrite D. reflexivity.
Qed.

(** *** The whole run *)

(** With paths free of backslashes and a descriptor that can be read, the
    run reaches the write with the text [content4]. *)
Lemma run_until_write (files : list text) (path : text) (w : world)
  (f : file) :
  forallb no_backslash files = true ->
  fs w path = Some f -> readable f = true ->
  add_files_to_project files path w
  = (write_file path (content4 files w (data f)) ;;;
     print (banner (length files)) ;;;
     foldM (fun _ filepath => print (chars "   - " ++ filepath)) files tt)%py
      (drawn_more w (2 * length files)).
Proof.
  intros Hfiles Hfs Hr. unfold add_files_to_project.
  rewrite (bind_Ok _ _ w w (data f))
    by (unfold read_file; rewrite Hfs, Hr; reflexivity).
  erewrite bind_Ok by apply loop_generate.
  rewrite (surjective_pairing
             (assign (urandom w) (drawn w) files (Dict.empty, Dict.empty))).
  fold (file_refs_of files w). fold (build_files_of files w).
  erewrite bind_Ok.
  2:{ apply loop_build_file_entries. intros p v I.
      apply build_files_items in I. destruct I as [I _].
      destruct (file_refs_has files w p I) as (r & G & _). congruence. }
  cbn [app]. fold (build_file_entries files w).
  fold (build_section_insert files w).
  erewrite bind_Ok
    by (apply re_sub_before; apply build_section_insert_clean; exact Hfiles).
  fold (content1 files w (data f)).
  erewrite bind_Ok by apply loop_file_ref_entries.
  cbn [app]. fold (file_ref_entries files w).
  fold (file_ref_insert files w).
  erewrite bind_Ok
    by (apply re_sub_before; apply file_ref_insert_clean; exact Hfiles).
  fold (content2 files w (data f)).
  erewrite bind_Ok.
  2:{ apply (comprehension_lookup (file_refs_of files w)
               (fun id filepath => group_entry id (basename filepath))).
      intros p I. destruct (file_refs_has files w p I) as (r & G & _).
      congruence. }
  fold (group_entries files w). fold (group_insert files w).
  erewrite bind_Ok
    by (apply re_sub_after;
        [apply group_insert_clean; exact Hfiles|apply group_insert_head]).
  fold (content3 files w (data f)).
  erewrite bind_Ok.
  2:{ apply (comprehension_lookup (build_files_of files w)
               (fun id filepath => source_entry id (basename filepath))).
      intros p I. destruct (build_files_has files w p I) as (r & G & _).
      congruence. }
  fold (source_entries files w). fold (source_insert files w).
  erewrite bind_Ok
    by (apply re_sub_after;
        [apply source_insert_clean; exact Hfiles|apply source_insert_head]).
  fold (content4 files w (data f)). reflexivity.
Qed.

(** If the descriptor can also be written, the run succeeds and leaves
    [final_world]. *)
Lemma run_ok (files : list text) (path : text) (w : world) (f : file) :
  forallb no_backslash files = true ->
  fs w path = Some f -> readable f = true -> writable f = true ->
  add_files_to_project files path w = Ok tt (final_world files path f w).
Proof.
  intros Hfiles Hfs Hr Hw.
  rewrite (run_until_write files path w f Hfiles Hfs Hr).
  erewrite bind_Ok.
  2:{ unfold write_file. cbn [drawn_more fs]. rewrite Hfs, Hw. reflexivity. }
  erewrite bind_Ok by reflexivity.
  rewrite loop_print. unfold final_world, printed, store, drawn_more, report.
  cbn [fs urandom drawn stdout]. rewrite <- app_assoc. reflexivity.
Qed.

(** If it cannot be written, the run fails at the write: no file has
    changed and nothing was printed. *)
Lemma run_unwritable (files : list text) (path : text) (w : world)
  (f : file) :
  forallb no_backslash files = true ->
  fs w path = Some f -> readable f = true -> writable f = false ->
  add_files_to_project files path w
  = Raise PermissionError (drawn_more w (2 * length files)).
Proof.
  intros Hfiles Hfs Hr Hw.
  rewrite (run_until_write files path w f Hfiles Hfs Hr).
  unfold bind at 1. unfold write_file. cbn [drawn_more fs].
  rewrite Hfs, Hw. reflexivity.
Qed.

(** Without the descriptor the run fails at once. *)
Lemma run_missing_file (files : list text) (path : text) (w : world) :
  fs w path = None ->
  add_files_to_project files path w = Raise FileNotFoundError w.
Proof.
  intro Hfs. unfold add_files_to_project, bind at 1, read_file.
  rewrite Hfs. reflexivity.
Qed.

End RunFacts.

(** * Counting the occurrences of an identifier *)

Module OccFacts.
Import Str StrFacts Re ReFacts UuidFacts DictFacts.

Section Occ.
(** [x] is the text counted; it is not empty. *)
Variable x : text.
Hypothesis x_nonempty : x <> [].

Lemma occurrences_cons_sep (c : ascii) (t : text) :
  ~ In c x -> occurrences x (c :: t) = occurrences x t.
Proof.
  intro H. pose proof (occurrences_sep x [] t c H) as E.
  simpl app in E. rewrite E, (occurrences_nil x x_nonempty). reflexivity.
Qed.

Lemma occurrences_cut_head (u v : text) (c : ascii) :
  ~ In c x ->
  occurrences x (u ++ c :: v) = occurrences x u + occurrences x (c :: v).
Proof.
  intro H. rewrite occurrences_sep by exact H.
  rewrite occurrences_cons_sep by exact H. reflexivity.
Qed.

Lemma occurrences_snoc_sep (u : text) (c : ascii) :
  ~ In c x -> occurrences x (u ++ [c]) = occurrences x u.
Proof.
  intro H. rewrite occurrences_sep by exact H.
  rewrite (occurrences_nil x x_nonempty). lia.
Qed.

Lemma occurrences_cut_last (u v : text) (c : ascii) :
  ~ In c x ->
  occurrences x ((u ++ [c]) ++ v)
  = occurrences x (u ++ [c]) + occurrences x v.
Proof.
  intro H. rewrite <- app_assoc. simpl app.
  rewrite occurrences_sep by exact H.
  rewrite occurrences_snoc_sep by exact H. reflexivity.
Qed.

(** One character of [x]'s alphabet between foreign characters is too
    short to hold [x] when [x] has two characters or more. *)
Lemma occurrences_one_then_sep (c d : ascii) (t : text) :
  1 < length x -> ~ In d x ->
  occurrences x (c :: d :: t) = occurrences x t.
Proof.
  intros L H. change (c :: d :: t) with ([c] ++ d :: t).
  rewrite occurrences_sep by exact H.
  rewrite occurrences_short by (simpl; lia). reflexivity.
Qed.

Lemma occurrences_join_lines (c : ascii) (l : list text) :
  ~ In c x ->
  occurrences x (join [c] l ++ [c])
  = list_sum (map (occurrences x) l).
Proof.
  intro H. induction l as [|e l IH].
  - simpl join. simpl app. rewrite occurrences_cons_sep by exact H.
    apply (occurrences_nil x x_nonempty).
  - change (list_sum (map (occurrences x) (e :: l)))
      with (occurrences x e + list_sum (map (occurrences x) l)).
    destruct l as [|e' l].
    + simpl join. rewrite occurrences_snoc_sep by exact H. simpl. lia.
    + change (join [c] (e :: e' :: l))
        with (e ++ [c] ++ join [c] (e' :: l)).
      rewrite <- !app_assoc. cbn [app].
      rewrite occurrences_sep by exact H.
      rewrite IH. reflexivity.
Qed.

Lemma occurrences_join_headed (l : list text) :
  (forall e, In e l -> exists c t, e = c :: t /\ ~ In c x) ->
  occurrences x (join [] l) = list_sum (map (occurrences x) l).
Proof.
  rewrite join_nil_concat. induction l as [|e l IH]; intro H.
  - apply (occurrences_nil x x_nonempty).
  - change (list_sum (map (occurrences x) (e :: l)))
      with (occurrences x e + list_sum (map (occurrences x) l)).
    rewrite <- IH by (intros e' I; apply H; right; exact I).
    cbn [concat]. destruct l as [|e' l].
    + cbn [concat]. rewrite app_nil_r, (occurrences_nil x x_nonempty). lia.
    + destruct (H e' (or_intror (or_introl eq_refl))) as (c & t & -> & Hc).
      change (concat ((c :: t) :: l)) with (c :: (t ++ concat l)).
      apply occurrences_cut_head. exact Hc.
Qed.

(** *** Substitution and occurrences *)

Variable r : regex.
Variables a b : text.

(** Every match starts and ends with a character foreign to [x]; so do
    the inserted texts where they touch the surrounding text. *)
Hypothesis match_head :
  forall m post, match_at r (m ++ post) = Some (length m) ->
                 exists c m', m = c :: m' /\ ~ In c x.
Hypothesis match_last :
  forall m post, match_at r (m ++ post) = Some (length m) ->
                 exists m' z, m = m' ++ [z] /\ ~ In z x.
Hypothesis a_head : a = [] \/ exists c a', a = c :: a' /\ ~ In c x.
Hypothesis b_last : b = [] \/ exists b' z, b = b' ++ [z] /\ ~ In z x.

Lemma startswith_foreign (y : text) (c : ascii) (t : text) :
  incl y x -> ~ In c x ->
  startswith y (c :: t) = match y with [] => true | _ :: _ => false end.
Proof.
  intros I H. destruct y as [|d y]; [reflexivity|].
  simpl. rewrite eqb_false_of_neq; [reflexivity|].
  intro E. subst d. apply H. apply I. left. reflexivity.
Qed.

Lemma spliced_startswith (s out : text) (n : nat) :
  spliced r a b s out n ->
  forall y, incl y x -> startswith y out = startswith y s.
Proof.
  induction 1 as [|c s out n _ _ IH|m post out n Hm _ _]; intros y I.
  - reflexivity.
  - destruct y as [|d y]; [reflexivity|]. simpl.
    rewrite IH; [reflexivity|].
    intros e He. apply I. right. exact He.
  - destruct (match_head _ _ Hm) as (c & m' & -> & Hc).
    change ((c :: m') ++ post) with (c :: (m' ++ post)).
    rewrite (startswith_foreign y c (m' ++ post) I Hc).
    destruct a_head as [->|(c' & a' & -> & Hc')].
    + apply (startswith_foreign y c _ I Hc).
    + apply (startswith_foreign y c' _ I Hc').
Qed.

Lemma spliced_occurrences (s out : text) (n : nat) :
  spliced r a b s out n ->
  occurrences x out
  = occurrences x s + n * (occurrences x a + occurrences x b).
Proof.
  induction 1 as [|c s out n _ Hs IH|m post out n Hm _ IH].
  - simpl. lia.
  - cbn [occurrences]. rewrite IH.
    pose proof (spliced_startswith _ _ _ Hs) as Q.
    assert (E : startswith x (c :: out) = startswith x (c :: s)).
    { destruct x as [|d y] eqn:Ex; [reflexivity|]. simpl.
      rewrite (Q y); [reflexivity|].
      intros e He. right. exact He. }
    rewrite E. lia.
  - destruct (match_head _ _ Hm) as (c & m1 & Em1 & Hc).
    destruct (match_last _ _ Hm) as (m2 & z & Em2 & Hz).
    assert (B : occurrences x (b ++ out)
                = occurrences x b + occurrences x out).
    { destruct b_last as [->|(b' & z' & -> & Hz')].
      - cbn [app]. rewrite (occurrences_nil x x_nonempty). reflexivity.
      - apply occurrences_cut_last. exact Hz'. }
    assert (M : forall t, occurrences x (m ++ t)
                          = occurrences x m + occurrences x t).
    { intro t. rewrite Em2. apply occurrences_cut_last. exact Hz. }
    assert (A : forall t, occurrences x (a ++ m ++ t)
                          = occurrences x a + occurrences x (m ++ t)).
    { intro t. rewrite Em1. simpl app.
      apply occurrences_cut_head. exact Hc. }
    rewrite A, !M, B, IH. lia.
Qed.

End Occ.

(** *** Occurrences in the four kinds of entry

    [x] is made of upper-case hexadecimal digits and has two digits or
    more; every other character separates. *)
Section Entries.
Variable x : text.
Hypothesis x_sep : forall c, Uuid.is_upper_hex c = false -> ~ In c x.
Hypothesis x_long : 1 < length x.

Lemma x_nonempty : x <> [].
Proof. intro E. rewrite E in x_long. simpl in x_long. lia. Qed.

Ltac skip_static :=
  repeat match goal with
  | |- context [occurrences x (?c :: ?t)] =>
    first [ rewrite (occurrences_cons_sep x x_nonempty c t)
              by (apply x_sep; reflexivity)
          | match t with
            | ?d :: ?t' =>
              rewrite (occurrences_one_then_sep x c d t' x_long)
                by (apply x_sep; reflexivity)
            end ]
  | |- context [occurrences x (?u ++ ?c :: ?t)] =>
    rewrite (occurrences_cut_head x x_nonempty u t c)
      by (apply x_sep; reflexivity)
  end;
  rewrite ?(occurrences_nil x x_nonempty).

Lemma occurrences_build_file_entry (b fn r : text) :
  occurrences x (build_file_entry b fn r)
  = occurrences x b + occurrences x fn + occurrences x r
    + occurrences x fn.
Proof.
  unfold build_file_entry, chars, TAB.
  cbn [list_ascii_of_string app]. skip_static. lia.
Qed.

Lemma occurrences_file_ref_entry (r fn p : text) :
  occurrences x (file_ref_entry r fn p)
  = occurrences x r + occurrences x fn + occurrences x p.
Proof.
  unfold file_ref_entry, chars, TAB, DQUOTE.
  cbn [list_ascii_of_string app]. skip_static. lia.
Qed.

Lemma occurrences_group_entry (r fn : text) :
  occurrences x (group_entry r fn) = occurrences x r + occurrences x fn.
Proof.
  unfold group_entry, chars, TAB, NL.
  cbn [list_ascii_of_string app]. skip_static. lia.
Qed.

Lemma occurrences_source_entry (b fn : text) :
  occurrences x (source_entry b fn) = occurrences x b + occurrences x fn.
Proof.
  unfold source_entry, chars, TAB, NL.
  cbn [list_ascii_of_string app]. skip_static. lia.
Qed.

(** No path of the shipped list holds a run of hexadecimal digits in
    which [x] could occur. *)
Lemma occurrences_shipped_path (p : text) :
  In p NEW_FILES -> occurrences x p = 0.
Proof.
  unfold NEW_FILES. cbn [map In]. intro H.
  repeat (destruct H as [<-|H];
          [unfold chars; cbn [list_ascii_of_string]; skip_static;
           reflexivity|]).
  contradiction.
Qed.

End Entries.

End OccFacts.

(** * The rows of a run: paths with their identifiers *)

Module RowsFacts.
Import Str StrFacts Re ReFacts UuidFacts DictFacts RunFacts OccFacts.

Lemma distinct_NoDup (l : list text) : distinct l = true -> NoDup l.
Proof.
  induction l as [|x l IH]; simpl; intro H; [constructor|].
  apply andb_true_iff in H. destruct H as [H1 H2].
  constructor; [|apply IH; exact H2].
  intro I. apply negb_true_iff in H1.
  assert (E : existsb (Dict.key_eqb x) l = true).
  { apply existsb_exists. exists x. split; [exact I|apply key_eqb_refl]. }
  congruence.
Qed.

Lemma rows_paths (rnd : nat -> Z) (files : list text) :
  forall k, map row_path (rows rnd k files) = files.
Proof.
  induction files as [|p files IH]; intro k; [reflexivity|].
  simpl. rewrite IH. reflexivity.
Qed.

Lemma rows_length (rnd : nat -> Z) (files : list text) (k : nat) :
  length (rows rnd k files) = length files.
Proof. rewrite <- (rows_paths rnd files k) at 2. rewrite length_map. reflexivity. Qed.

Lemma rows_nth (rnd : nat -> Z) (files : list text) :
  forall k i p,
    nth_error files i = Some p ->
    nth_error (rows rnd k files) i
    = Some (p, Uuid.id_of (rnd (k + 2 * i)), Uuid.id_of (rnd (k + 2 * i + 1))).
Proof.
  induction files as [|q files IH]; intros k i p H.
  - destruct i; discriminate.
  - destruct i as [|i].
    + simpl in H. injection H as ->. simpl.
      rewrite Nat.add_0_r, Nat.add_1_r. reflexivity.
    + simpl in H. cbn [rows nth_error]. rewrite (IH _ _ _ H).
      replace (S (S k) + 2 * i) with (k + 2 * S i) by lia.
      reflexivity.
Qed.

(** The identifiers of the rows, in generation order. *)
Lemma rows_ids (rnd : nat -> Z) (files : list text) :
  forall k,
    flat_map (fun row => [row_file_ref row; row_build row]) (rows rnd k files)
    = map (fun j => Uuid.id_of (rnd (k + j))) (seq 0 (2 * length files)).
Proof.
  induction files as [|p files IH]; intro k; [reflexivity|].
  cbn [rows flat_map app length].
  replace (2 * S (length files)) with (S (S (2 * length files))) by lia.
  cbn [seq map]. unfold row_file_ref, row_build. cbn [fst snd].
  rewrite Nat.add_0_r, Nat.add_1_r. f_equal. f_equal.
  rewrite IH. rewrite <- seq_shift, <- seq_shift, !map_map.
  apply map_ext. intro j. f_equal. f_equal. lia.
Qed.

(** With pairwise distinct paths the dictionaries are the rows. *)
Lemma assign_rows (rnd : nat -> Z) (files : list text) :
  NoDup files ->
  forall k d,
    (forall p, In p files -> ~ In p (map fst (fst d))) ->
    (forall p, In p files -> ~ In p (map fst (snd d))) ->
    assign rnd k files d
    = (fst d ++ map (fun row => (row_path row, row_file_ref row))
                    (rows rnd k files),
       snd d ++ map (fun row => (row_path row, row_build row))
                    (rows rnd k files)).
Proof.
  induction 1 as [|p files Hp Hnd IH]; intros k [d1 d2] H1 H2.
  - simpl. rewrite !app_nil_r. reflexivity.
  - cbn [assign rows map fst snd] in *.
    rewrite (set_new p _ d1) by (apply H1; left; reflexivity).
    rewrite (set_new p _ d2) by (apply H2; left; reflexivity).
    rewrite IH.
    + cbn [fst snd]. unfold row_path, row_file_ref, row_build at 1.
      cbn [fst snd]. rewrite <- !app_assoc. reflexivity.
    + cbn [fst]. intros q Hq I. rewrite map_app, in_app_iff in I.
      destruct I as [I|[I|[]]].
      * apply (H1 q); [right; exact Hq|exact I].
      * simpl in I. subst q. contradiction.
    + cbn [snd]. intros q Hq I. rewrite map_app, in_app_iff in I.
      destruct I as [I|[I|[]]].
      * apply (H2 q); [right; exact Hq|exact I].
      * simpl in I. subst q. contradiction.
Qed.

Lemma get_unique (d : Dict.t) (k v : text) :
  NoDup (map fst d) -> In (k, v) d -> Dict.get k d = Some v.
Proof.
  induction d as [|[k0 v0] d IH]; simpl; intros N I; [contradiction|].
  inversion N as [|? ? Hk Hd]; subst.
  destruct I as [E|I].
  - injection E as -> ->. rewrite key_eqb_refl. reflexivity.
  - destruct (Dict.key_eqb k k0) eqn:E.
    + apply key_eqb_eq in E. subst k0. exfalso. apply Hk.
      apply (in_map fst _ _ I).
    + apply IH; assumption.
Qed.

Section Distinct.
Variable files : list text.
Variable w : world.
Hypothesis Hdistinct : distinct files = true.

Local Abbreviation the_rows := (rows (urandom w) (drawn w) files).

Lemma file_refs_rows :
  file_refs_of files w
  = map (fun row => (row_path row, row_file_ref row)) the_rows.
Proof.
  unfold file_refs_of.
  rewrite (assign_rows _ _ (distinct_NoDup _ Hdistinct)); auto.
Qed.

Lemma build_files_rows :
  build_files_of files w
  = map (fun row => (row_path row, row_build row)) the_rows.
Proof.
  unfold build_files_of.
  rewrite (assign_rows _ _ (distinct_NoDup _ Hdistinct)); auto.
Qed.

Lemma lookup_file_ref (row : text * text * text) :
  In row the_rows ->
  lookup (file_refs_of files w) (row_path row) = row_file_ref row.
Proof.
  intro I. apply lookup_get. apply get_unique.
  - rewrite file_refs_rows, map_map. cbn [fst].
    change (map (fun x => row_path x) the_rows) with (map row_path the_rows).
    rewrite rows_paths. apply distinct_NoDup, Hdistinct.
  - rewrite file_refs_rows.
    apply (in_map (fun row => (row_path row, row_file_ref row)) _ _ I).
Qed.

Lemma lookup_build (row : text * text * text) :
  In row the_rows ->
  lookup (build_files_of files w) (row_path row) = row_build row.
Proof.
  intro I. apply lookup_get. apply get_unique.
  - rewrite build_files_rows, map_map. cbn [fst].
    change (map (fun x => row_path x) the_rows) with (map row_path the_rows).
    rewrite rows_paths. apply distinct_NoDup, Hdistinct.
  - rewrite build_files_rows.
    apply (in_map (fun row => (row_path row, row_build row)) _ _ I).
Qed.

Lemma build_file_entries_rows :
  build_file_entries files w
  = map (fun row => build_file_entry (row_build row)
                      (basename (row_path row)) (row_file_ref row))
        the_rows.
Proof.
  unfold build_file_entries, Dict.items.
  rewrite build_files_rows, map_map.
  apply map_ext_in. intros row I. cbn beta iota.
  rewrite (lookup_file_ref row I). reflexivity.
Qed.

Lemma file_ref_entries_rows :
  file_ref_entries files w
  = map (fun row => file_ref_entry (row_file_ref row)
                      (basename (row_path row)) (row_path row))
        the_rows.
Proof.
  unfold file_ref_entries, Dict.items.
  rewrite file_refs_rows, map_map. reflexivity.
Qed.

Lemma group_entries_rows :
  group_entries files w
  = map (fun row => group_entry (row_file_ref row)
                      (basename (row_path row)))
        the_rows.
Proof.
  unfold group_entries.
  rewrite <- (rows_paths (urandom w) files (drawn w)) at 1.
  rewrite map_map.
  apply map_ext_in. intros row I.
  rewrite (lookup_file_ref row I). reflexivity.
Qed.

Lemma source_entries_rows :
  source_entries files w
  = map (fun row => source_entry (row_build row)
                      (basename (row_path row)))
        the_rows.
Proof.
  unfold source_entries.
  rewrite <- (rows_paths (urandom w) files (drawn w)) at 1.
  rewrite map_map.
  apply map_ext_in. intros row I.
  rewrite (lookup_build row I). reflexivity.
Qed.

End Distinct.

End RowsFacts.

(** * Identifiers in the fragments and in the descriptor *)

Module CountFacts.
Import Str StrFacts Re ReFacts UuidFacts DictFacts RunFacts OccFacts RowsFacts.

(** *** How often a text is an element of a list *)

Lemma hits_cons (x y : text) (l : list text) :
  hits x (y :: l) = (if Dict.key_eqb x y then 1 else 0) + hits x l.
Proof. unfold hits. simpl. destruct (Dict.key_eqb x y); reflexivity. Qed.

Lemma hits_in (x : text) (l : list text) : In x l -> 1 <= hits x l.
Proof.
  induction l as [|y l IH]; [contradiction|]. intros [->|I].
  - rewrite hits_cons, key_eqb_refl. lia.
  - rewrite hits_cons. specialize (IH I). lia.
Qed.

Lemma hits_not_in (x : text) (l : list text) : ~ In x l -> hits x l = 0.
Proof.
  induction l as [|y l IH]; intro H; [reflexivity|].
  rewrite hits_cons, IH by (intro I; apply H; right; exact I).
  destruct (Dict.key_eqb x y) eqn:E; [|reflexivity].
  apply key_eqb_eq in E. exfalso. apply H. left. symmetry. exact E.
Qed.

Lemma hits_distinct (x : text) (l : list text) :
  distinct l = true -> In x l -> hits x l = 1.
Proof.
  intros D I. apply distinct_NoDup in D.
  induction D as [|y l Hy D IH]; [contradiction|].
  rewrite hits_cons. destruct I as [->|I].
  - rewrite key_eqb_refl, (hits_not_in _ _ Hy). reflexivity.
  - rewrite (IH I). destruct (Dict.key_eqb x y) eqn:E; [|reflexivity].
    apply key_eqb_eq in E. subst y. contradiction.
Qed.

Lemma hits_rows (x : text) (l : list (text * text * text)) :
  hits x (flat_map (fun row => [row_file_ref row; row_build row]) l)
  = hits x (map row_file_ref l) + hits x (map row_build l).
Proof.
  induction l as [|row l IH]; [reflexivity|].
  cbn [flat_map map app]. rewrite !hits_cons, IH. lia.
Qed.

(** An identifier of the run is an element of exactly one of the two
    columns when the identifiers of the run are pairwise distinct. *)
Lemma hits_generated (files : list text) (w : world) (x : text) :
  distinct (generated_ids w (length files)) = true ->
  In x (generated_ids w (length files)) ->
  hits x (map row_file_ref (rows (urandom w) (drawn w) files))
  + hits x (map row_build (rows (urandom w) (drawn w) files)) = 1.
Proof.
  intros D I. rewrite <- hits_rows, rows_ids.
  apply hits_distinct; assumption.
Qed.

Lemma file_ref_id_generated (files : list text) (w : world) (i : nat) :
  i < length files ->
  In (file_ref_id w i) (generated_ids w (length files)) /\
  In (file_ref_id w i)
     (map row_file_ref (rows (urandom w) (drawn w) files)).
Proof.
  intro Hi. split.
  - unfold generated_ids, file_ref_id. apply in_map_iff.
    exists (2 * i). split; [reflexivity|]. apply in_seq. lia.
  - destruct (nth_error files i) as [p|] eqn:E.
    + apply in_map_iff. eexists. split.
      2:{ eapply nth_error_In. apply (rows_nth _ _ _ _ _ E). }
      reflexivity.
    + apply nth_error_None in E. lia.
Qed.

Lemma build_id_generated (files : list text) (w : world) (i : nat) :
  i < length files ->
  In (build_id w i) (generated_ids w (length files)) /\
  In (build_id w i) (map row_build (rows (urandom w) (drawn w) files)).
Proof.
  intro Hi. split.
  - unfold generated_ids, build_id. apply in_map_iff.
    exists (2 * i + 1). split; [rewrite Nat.add_assoc; reflexivity|].
    apply in_seq. lia.
  - destruct (nth_error files i) as [p|] eqn:E.
    + apply in_map_iff. eexists. split.
      2:{ eapply nth_error_In. apply (rows_nth _ _ _ _ _ E). }
      reflexivity.
    + apply nth_error_None in E. lia.
Qed.

Lemma rows_shape (rnd : nat -> Z) (files : list text) :
  forall k row,
    In row (rows rnd k files) ->
    In (row_path row) files /\
    (exists j, row_file_ref row = Uuid.id_of (rnd j)) /\
    (exists j, row_build row = Uuid.id_of (rnd j)).
Proof.
  induction files as [|p files IH]; intros k row I; [contradiction|].
  destruct I as [<-|I].
  - split; [left; reflexivity|]. split; eexists; reflexivity.
  - destruct (IH _ _ I) as (H1 & H2 & H3).
    split; [right; exact H1|]. split; assumption.
Qed.

(** *** Occurrences of an identifier in the fragments *)

Section Fragments.
Variable files : list text.
Variable w : world.
Variable x : text.
Hypothesis x_sep : forall c, Uuid.is_upper_hex c = false -> ~ In c x.
Hypothesis x_length : length x = 24.
Hypothesis x_absent : forall p, In p files -> occurrences x p = 0.

Lemma x_long : 1 < length x.
Proof. rewrite x_length. lia. Qed.

Lemma x_ne : x <> [].
Proof. apply x_nonempty. exact x_long. Qed.

Local Abbreviation the_rows := (rows (urandom w) (drawn w) files).

Lemma occurrences_basename (p : text) :
  In p files -> occurrences x (basename p) = 0.
Proof.
  intro I. destruct (basename_suffix p) as [a E].
  pose proof (occurrences_suffix x a (basename p)) as L.
  rewrite <- E, (x_absent p I) in L. lia.
Qed.

Lemma occurrences_id (rnd : Z) :
  occurrences x (Uuid.id_of rnd)
  = if Dict.key_eqb x (Uuid.id_of rnd) then 1 else 0.
Proof.
  apply occurrences_same_length; [exact x_ne|].
  rewrite x_length, id_of_length. reflexivity.
Qed.

Lemma sum_rows (f g h : text * text * text -> nat)
  (l : list (text * text * text)) :
  (forall row, In row l -> f row = g row + h row) ->
  list_sum (map f l) = list_sum (map g l) + list_sum (map h l).
Proof.
  induction l as [|row l IH]; intro H; [reflexivity|].
  change (list_sum (map f (row :: l))) with (f row + list_sum (map f l)).
  change (list_sum (map g (row :: l))) with (g row + list_sum (map g l)).
  change (list_sum (map h (row :: l))) with (h row + list_sum (map h l)).
  rewrite IH by (intros r I; apply H; right; exact I).
  rewrite (H row (or_introl eq_refl)). lia.
Qed.

Lemma sum_hits (g : text * text * text -> text)
  (l : list (text * text * text)) :
  (forall row, In row l -> exists rnd, g row = Uuid.id_of rnd) ->
  list_sum (map (fun row => occurrences x (g row)) l) = hits x (map g l).
Proof.
  induction l as [|row l IH]; intro H; [reflexivity|].
  change (list_sum (map (fun row => occurrences x (g row)) (row :: l)))
    with (occurrences x (g row)
          + list_sum (map (fun row => occurrences x (g row)) l)).
  cbn [map]. rewrite hits_cons.
  rewrite IH by (intros r I; apply H; right; exact I).
  destruct (H row (or_introl eq_refl)) as [rnd ->].
  rewrite occurrences_id. reflexivity.
Qed.

Lemma sum_file_refs :
  list_sum (map (fun row => occurrences x (row_file_ref row)) the_rows)
  = hits x (map row_file_ref the_rows).
Proof.
  apply sum_hits. intros row I.
  destruct (rows_shape _ _ _ _ I) as (_ & [j E] & _). eauto.
Qed.

Lemma sum_builds :
  list_sum (map (fun row => occurrences x (row_build row)) the_rows)
  = hits x (map row_build the_rows).
Proof.
  apply sum_hits. intros row I.
  destruct (rows_shape _ _ _ _ I) as (_ & _ & [j E]). eauto.
Qed.

Hypothesis Hdistinct : distinct files = true.

Lemma occurrences_build_section_insert :
  occurrences x (build_section_insert files w)
  = hits x (map row_build the_rows) + hits x (map row_file_ref the_rows).
Proof.
  unfold build_section_insert.
  rewrite (occurrences_join_lines x x_ne) by (apply x_sep; reflexivity).
  rewrite (build_file_entries_rows files w Hdistinct), map_map.
  rewrite <- sum_builds, <- sum_file_refs.
  apply sum_rows. intros row I.
  rewrite (occurrences_build_file_entry x x_sep x_long).
  destruct (rows_shape _ _ _ _ I) as (Hp & _).
  rewrite (occurrences_basename _ Hp). lia.
Qed.

Lemma sum_zero (f g : text * text * text -> nat)
  (l : list (text * text * text)) :
  (forall row, In row l -> f row = g row) ->
  list_sum (map f l) = list_sum (map g l).
Proof.
  intro H. f_equal. apply map_ext_in. exact H.
Qed.

Lemma occurrences_file_ref_insert :
  occurrences x (file_ref_insert files w)
  = hits x (map row_file_ref the_rows).
Proof.
  unfold file_ref_insert.
  rewrite (occurrences_join_lines x x_ne) by (apply x_sep; reflexivity).
  rewrite (file_ref_entries_rows files w Hdistinct), map_map.
  rewrite <- sum_file_refs.
  apply sum_zero. intros row I.
  rewrite (occurrences_file_ref_entry x x_sep x_long).
  destruct (rows_shape _ _ _ _ I) as (Hp & _).
  rewrite (occurrences_basename _ Hp), (x_absent _ Hp). lia.
Qed.

Lemma occurrences_group_insert :
  occurrences x (group_insert files w)
  = hits x (map row_file_ref the_rows).
Proof.
  unfold group_insert.
  rewrite (occurrences_join_headed x x_ne).
  - rewrite (group_entries_rows files w Hdistinct), map_map.
    rewrite <- sum_file_refs.
    apply sum_zero. intros row I.
    rewrite (occurrences_group_entry x x_sep x_long).
    destruct (rows_shape _ _ _ _ I) as (Hp & _).
    rewrite (occurrences_basename _ Hp). lia.
  - intros e I. unfold group_entries in I. apply in_map_iff in I.
    destruct I as (p & <- & _). eexists. eexists.
    split; [reflexivity|]. apply x_sep. reflexivity.
Qed.

Lemma occurrences_source_insert :
  occurrences x (source_insert files w)
  = hits x (map row_build the_rows).
Proof.
  unfold source_insert.
  rewrite (occurrences_join_headed x x_ne).
  - rewrite (source_entries_rows files w Hdistinct), map_map.
    rewrite <- sum_builds.
    apply sum_zero. intros row I.
    rewrite (occurrences_source_entry x x_sep x_long).
    destruct (rows_shape _ _ _ _ I) as (Hp & _).
    rewrite (occurrences_basename _ Hp). lia.
  - intros e I. unfold source_entries in I. apply in_map_iff in I.
    destruct I as (p & <- & _). eexists. eexists.
    split; [reflexivity|]. apply x_sep. reflexivity.
Qed.

End Fragments.

(** The shipped list satisfies what the statements below ask of a list:
    pairwise distinct paths, without backslash or line break, in which no
    identifier can occur. *)
Lemma shipped_list_well_formed :
  distinct NEW_FILES = true /\
  forallb no_backslash NEW_FILES = true /\
  forallb no_newline NEW_FILES = true /\
  forall rnd p, In p NEW_FILES -> occurrences (Uuid.id_of rnd) p = 0.
Proof.
  split; [reflexivity|]. split; [reflexivity|]. split; [reflexivity|].
  intros rnd p I. apply occurrences_shipped_path; [|rewrite id_of_length; lia|exact I].
  intros c Hc. apply id_of_sep. exact Hc.
Qed.

End CountFacts.

(** * The four substitutions *)

Module StepFacts.
Import Str StrFacts Re ReFacts UuidFacts DictFacts RunFacts OccFacts
       RowsFacts CountFacts.

(** The first match and what the substitution does there. *)
Lemma splice_at_first (r : regex) (a b s : text) :
  0 < matches r s ->
  exists pre m post,
    s = pre ++ m ++ post /\
    first_match r pre m post /\
    splice r a b s = pre ++ a ++ m ++ b ++ splice r a b post /\
    matches r s = S (matches r post).
Proof.
  induction s as [|c s IH]; intro H.
  - unfold matches in H. simpl in H. lia.
  - destruct (match_at r (c :: s)) as [n|] eqn:E.
    + destruct (match_at_cut _ _ _ E) as [C L].
      exists [], (firstn n (c :: s)), (skipn n (c :: s)).
      split; [exact C|]. split.
      * split; [rewrite <- C, L; exact E|].
        intros i Hi. simpl in Hi. lia.
      * split.
        -- unfold splice. rewrite (scan_match _ _ _ _ E).
           cbn [fst app]. rewrite expand_around, <- !app_assoc.
           reflexivity.
        -- unfold matches. rewrite (scan_match _ _ _ _ E). reflexivity.
    + rewrite (matches_copy _ _ _ E) in H.
      destruct (IH H) as (pre & m & post & Es & [Fm Fn] & Sp & Mt).
      exists (c :: pre), m, post. split; [simpl; rewrite Es; reflexivity|].
      split; [split; [exact Fm|]|split].
      * intros i Hi. destruct i as [|i].
        -- simpl. rewrite <- Es. exact E.
        -- simpl. apply Fn. simpl in Hi. lia.
      * unfold splice. rewrite (scan_copy _ _ _ _ E). cbn [fst].
        fold (splice r a b s). rewrite Sp. reflexivity.
      * rewrite (matches_copy _ _ _ E). exact Mt.
Qed.

Lemma splice_none (r : regex) (a b s : text) :
  matches r s = 0 -> splice r a b s = s.
Proof.
  intro H. apply (spliced_none r a b s _ _ (splice_spliced r a b s) H).
Qed.

(** *** The anchors *)

Lemma build_section_anchor (m post : text) :
  match_at build_section_pattern (m ++ post) = Some (length m) ->
  m = BUILD_SECTION_END.
Proof. apply match_at_Lit. Qed.

Lemma file_ref_anchor (m post : text) :
  match_at file_ref_pattern (m ++ post) = Some (length m) ->
  m = FILE_REF_SECTION_END.
Proof. apply match_at_Lit. Qed.

Lemma main_group_anchor (m post : text) :
  match_at main_group_pattern (m ++ post) = Some (length m) ->
  exists gap, m = MAIN_GROUP_HEAD ++ gap ++ MAIN_GROUP_TAIL /\
              find MAIN_GROUP_TAIL (gap ++ MAIN_GROUP_TAIL ++ post)
              = Some (length gap).
Proof. apply match_at_Lazy. Qed.

Lemma sources_anchor (m post : text) :
  match_at sources_pattern (m ++ post) = Some (length m) ->
  exists gap, m = SOURCES_HEAD ++ gap ++ SOURCES_TAIL /\
              find SOURCES_TAIL (gap ++ SOURCES_TAIL ++ post)
              = Some (length gap).
Proof. apply match_at_Lazy. Qed.



(** With exactly one match nothing else changes. *)
Lemma splice_once (r : regex) (a b s : text) :
  matches r s = 1 ->
  exists pre m post,
    s = pre ++ m ++ post /\ first_match r pre m post /\
    splice r a b s = pre ++ a ++ m ++ b ++ post.
Proof.
  intro H.
  destruct (splice_at_first r a b s ltac:(lia))
    as (pre & m & post & Es & Fm & Sp & Mt).
  exists pre, m, post. split; [exact Es|]. split; [exact Fm|].
  rewrite Sp, (splice_none r a b post) by lia. reflexivity.
Qed.

End StepFacts.

(** * Counting through the four substitutions *)

Module PipelineFacts.
Import Str StrFacts Re ReFacts UuidFacts DictFacts RunFacts OccFacts
       RowsFacts CountFacts StepFacts.

(** *** Where the fragments begin and end *)

Lemma join_lines_head (es : list text) :
  (forall e, In e es -> exists t, e = TAB :: t) ->
  exists c t, join [NL] es ++ [NL] = c :: t /\ Uuid.is_upper_hex c = false.
Proof.
  destruct es as [|e es]; intro H.
  - exists NL, []. split; reflexivity.
  - destruct (H e (or_introl eq_refl)) as [t ->].
    cbn [join]. destruct es; eexists; eexists; (split; [reflexivity|]);
      reflexivity.
Qed.

Lemma build_section_insert_head (files : list text) (w : world) :
  exists c t, build_section_insert files w = c :: t /\
              Uuid.is_upper_hex c = false.
Proof.
  apply join_lines_head. intros e I. unfold build_file_entries in I.
  apply in_map_iff in I. destruct I as ([p v] & <- & _).
  eexists. reflexivity.
Qed.

Lemma file_ref_insert_head (files : list text) (w : world) :
  exists c t, file_ref_insert files w = c :: t /\
              Uuid.is_upper_hex c = false.
Proof.
  apply join_lines_head. intros e I. unfold file_ref_entries in I.
  apply in_map_iff in I. destruct I as ([p v] & <- & _).
  eexists. reflexivity.
Qed.

Lemma join_entries_last (z : ascii) (es : list text) :
  (forall e, In e es -> exists t, e = t ++ [z]) ->
  join [] es = [] \/ exists t, join [] es = t ++ [z].
Proof.
  induction es as [|e es IH]; intro H; [left; reflexivity|].
  right. destruct (H e (or_introl eq_refl)) as [t ->].
  cbn [join]. destruct es as [|e' es]; [exists t; reflexivity|].
  destruct IH as [E|[t' E]].
  - intros e0 I. apply H. right. exact I.
  - rewrite E. exists t. cbn [app]. rewrite app_nil_r. reflexivity.
  - rewrite E. exists (t ++ [z] ++ t'). cbn [app].
    rewrite <- !app_assoc. reflexivity.
Qed.

Lemma group_entry_last (r fn : text) :
  exists t, group_entry r fn = t ++ [","%char].
Proof.
  exists ([NL; TAB; TAB; TAB; TAB] ++ r ++ chars " /* " ++ fn ++ chars " */").
  unfold group_entry. rewrite <- !app_assoc. reflexivity.
Qed.

Lemma source_entry_last (b fn : text) :
  exists t, source_entry b fn = t ++ [","%char].
Proof.
  exists ([NL; TAB; TAB; TAB; TAB] ++ b ++ chars " /* " ++ fn
            ++ chars " in Sources */").
  unfold source_entry. rewrite <- !app_assoc. reflexivity.
Qed.

Lemma group_insert_last (files : list text) (w : world) :
  group_insert files w = [] \/
  exists t, group_insert files w = t ++ [","%char].
Proof.
  apply join_entries_last. intros e I. unfold group_entries in I.
  apply in_map_iff in I. destruct I as (p & <- & _). apply group_entry_last.
Qed.

Lemma source_insert_last (files : list text) (w : world) :
  source_insert files w = [] \/
  exists t, source_insert files w = t ++ [","%char].
Proof.
  apply join_entries_last. intros e I. unfold source_entries in I.
  apply in_map_iff in I. destruct I as (p & <- & _). apply source_entry_last.
Qed.

(** *** Occurrences of a hexadecimal text through one substitution *)

Section Hex.
Variable x : text.
Hypothesis x_sep : forall c, Uuid.is_upper_hex c = false -> ~ In c x.
Hypothesis x_ne : x <> [].

Lemma before_occurrences (r : regex) (anchor f s : text) :
  (forall m post, match_at r (m ++ post) = Some (length m) -> m = anchor) ->
  (exists c t, anchor = c :: t /\ Uuid.is_upper_hex c = false) ->
  (exists t z, anchor = t ++ [z] /\ Uuid.is_upper_hex z = false) ->
  (exists c t, f = c :: t /\ Uuid.is_upper_hex c = false) ->
  occurrences x (splice r f [] s)
  = occurrences x s + matches r s * occurrences x f.
Proof.
  intros A (c & t & Ec & Hc) (t' & z & Ez & Hz) (c' & f' & Ef & Hf).
  rewrite (spliced_occurrences x x_ne r f [] ) with (s := s) (n := matches r s).
  - rewrite (occurrences_nil x x_ne). lia.
  - intros m post M. rewrite (A _ _ M). exists c, t. auto.
  - intros m post M. rewrite (A _ _ M). exists t', z. auto.
  - right. exists c', f'. auto.
  - left. reflexivity.
  - apply splice_spliced.
Qed.

Lemma after_occurrences (r : regex) (head tail f s : text) :
  (forall m post, match_at r (m ++ post) = Some (length m) ->
                  exists gap, m = head ++ gap ++ tail /\
                              find tail (gap ++ tail ++ post)
                              = Some (length gap)) ->
  (exists c t, head = c :: t /\ Uuid.is_upper_hex c = false) ->
  (exists t z, tail = t ++ [z] /\ Uuid.is_upper_hex z = false) ->
  (f = [] \/ exists t z, f = t ++ [z] /\ Uuid.is_upper_hex z = false) ->
  occurrences x (splice r [] f s)
  = occurrences x s + matches r s * occurrences x f.
Proof.
  intros A (c & t & Ec & Hc) (t' & z & Ez & Hz) Hf.
  rewrite (spliced_occurrences x x_ne r [] f) with (s := s) (n := matches r s).
  - rewrite (occurrences_nil x x_ne). lia.
  - intros m post M. destruct (A _ _ M) as (gap & -> & _).
    rewrite Ec. exists c, (t ++ gap ++ tail). auto.
  - intros m post M. destruct (A _ _ M) as (gap & -> & _).
    rewrite Ez. exists (head ++ gap ++ t'), z.
    rewrite <- !app_assoc. auto.
  - left. reflexivity.
  - destruct Hf as [->|(t0 & z0 & -> & H0)]; [left; reflexivity|].
    right. exists t0, z0. auto.
  - apply splice_spliced.
Qed.

(** Occurrences through the whole transformation. *)
Lemma content4_occurrences (files : list text) (w : world) (s : text) :
  occurrences x (content4 files w s)
  = occurrences x s
    + matches1 files w s * occurrences x (build_section_insert files w)
    + matches2 files w s * occurrences x (file_ref_insert files w)
    + matches3 files w s * occurrences x (group_insert files w)
    + matches4 files w s * occurrences x (source_insert files w).
Proof.
  unfold content4, matches4.
  rewrite (after_occurrences sources_pattern SOURCES_HEAD SOURCES_TAIL).
  2: exact sources_anchor.
  2: eexists; eexists; split; reflexivity.
  2: exists (chars "files = "), "("%char; split; reflexivity.
  2:{ destruct (source_insert_last files w) as [E|[t E]];
        [left; exact E|right; exists t, ","%char; auto]. }
  unfold content3, matches3.
  rewrite (after_occurrences main_group_pattern
             MAIN_GROUP_HEAD MAIN_GROUP_TAIL).
  2: exact main_group_anchor.
  2: eexists; eexists; split; reflexivity.
  2: exists (chars "children = "), "("%char; split; reflexivity.
  2:{ destruct (group_insert_last files w) as [E|[t E]];
        [left; exact E|right; exists t, ","%char; auto]. }
  unfold content2, matches2.
  rewrite (before_occurrences file_ref_pattern FILE_REF_SECTION_END).
  2: exact file_ref_anchor.
  2: eexists; eexists; split; reflexivity.
  2: exists (chars "/* End PBXFileReference section *"), "/"%char;
       split; reflexivity.
  2: apply file_ref_insert_head.
  unfold content1, matches1.
  rewrite (before_occurrences build_section_pattern BUILD_SECTION_END).
  2: exact build_section_anchor.
  2: eexists; eexists; split; reflexivity.
  2: exists (chars "/* End PBXBuildFile section *"), "/"%char;
       split; reflexivity.
  2: apply build_section_insert_head.
  reflexivity.
Qed.

End Hex.

End PipelineFacts.

(** * Lines of the fragments *)

Module LineFacts.
Import Str StrFacts Re ReFacts UuidFacts DictFacts RunFacts RowsFacts.

Lemma no_newline_count (s : text) : no_newline s = true -> count NL s = 0.
Proof.
  unfold no_newline. intro H. apply negb_true_iff in H.
  apply count_zero_iff. exact H.
Qed.

Lemma count_id (rnd : Z) : count NL (Uuid.id_of rnd) = 0.
Proof. apply no_newline_count, id_of_no_newline. Qed.

Lemma count_basename (p : text) :
  count NL p = 0 -> count NL (basename p) = 0.
Proof.
  destruct (basename_suffix p) as [a E]. rewrite E at 1.
  rewrite count_app. lia.
Qed.

Lemma count_build_file_entry (b fn r : text) :
  count NL b = 0 -> count NL fn = 0 -> count NL r = 0 ->
  count NL (build_file_entry b fn r) = 0.
Proof.
  intros Hb Hf Hr. unfold build_file_entry.
  rewrite !count_app, Hb, Hf, Hr. reflexivity.
Qed.

Lemma count_file_ref_entry (r fn p : text) :
  count NL r = 0 -> count NL fn = 0 -> count NL p = 0 ->
  count NL (file_ref_entry r fn p) = 0.
Proof.
  intros Hr Hf Hp. unfold file_ref_entry.
  rewrite !count_app, Hr, Hf, Hp. reflexivity.
Qed.

Lemma count_group_entry (r fn : text) :
  count NL r = 0 -> count NL fn = 0 -> count NL (group_entry r fn) = 1.
Proof.
  intros Hr Hf. unfold group_entry. rewrite !count_app, Hr, Hf. reflexivity.
Qed.

Lemma count_source_entry (b fn : text) :
  count NL b = 0 -> count NL fn = 0 -> count NL (source_entry b fn) = 1.
Proof.
  intros Hb Hf. unfold source_entry. rewrite !count_app, Hb, Hf. reflexivity.
Qed.

(** Entries without a line break, each closed by one: as many lines as
    entries, provided there is an entry. *)
Lemma count_join_lines (es : list text) :
  (forall e, In e es -> count NL e = 0) -> es <> [] ->
  count NL (join [NL] es ++ [NL]) = length es.
Proof.
  intros H Hne. rewrite (join_terminated [NL] es Hne).
  clear Hne. induction es as [|e es IH]; [reflexivity|].
  cbn [map concat length]. rewrite !count_app.
  rewrite (H e (or_introl eq_refl)).
  rewrite IH by (intros e' I; apply H; right; exact I). reflexivity.
Qed.

Lemma count_join_headed (es : list text) :
  (forall e, In e es -> count NL e = 1) ->
  count NL (join [] es) = length es.
Proof.
  intro H. rewrite join_nil_concat.
  induction es as [|e es IH]; [reflexivity|].
  cbn [concat length]. rewrite count_app, (H e (or_introl eq_refl)).
  rewrite IH by (intros e' I; apply H; right; exact I). reflexivity.
Qed.

Section Lines.
Variable files : list text.
Variable w : world.
Hypothesis Hnl : forallb no_newline files = true.

Lemma count_path (p : text) : In p files -> count NL p = 0.
Proof.
  intro I. apply no_newline_count. rewrite forallb_forall in Hnl.
  apply Hnl. exact I.
Qed.

Lemma group_insert_lines : count NL (group_insert files w) = length files.
Proof.
  unfold group_insert. rewrite count_join_headed.
  - unfold group_entries. apply length_map.
  - intros e I. unfold group_entries in I. apply in_map_iff in I.
    destruct I as (p & <- & Ip).
    destruct (file_refs_has files w p Ip) as (r & G & j & ->).
    rewrite (lookup_get _ _ _ G).
    apply count_group_entry;
      [apply count_id|apply count_basename, count_path, Ip].
Qed.

Lemma source_insert_lines :
  count NL (source_insert files w) = length files.
Proof.
  unfold source_insert. rewrite count_join_headed.
  - unfold source_entries. apply length_map.
  - intros e I. unfold source_entries in I. apply in_map_iff in I.
    destruct I as (p & <- & Ip).
    destruct (build_files_has files w p Ip) as (r & G & j & ->).
    rewrite (lookup_get _ _ _ G).
    apply count_source_entry;
      [apply count_id|apply count_basename, count_path, Ip].
Qed.

Hypothesis Hdistinct : distinct files = true.
Hypothesis Hnonempty : files <> [].

Lemma build_file_entries_length :
  length (build_file_entries files w) = length files.
Proof.
  rewrite (build_file_entries_rows files w Hdistinct).
  rewrite length_map. apply rows_length.
Qed.

Lemma file_ref_entries_length :
  length (file_ref_entries files w) = length files.
Proof.
  rewrite (file_ref_entries_rows files w Hdistinct).
  rewrite length_map. apply rows_length.
Qed.

Lemma nonempty_length {A} (l : list A) (n : nat) :
  length l = n -> n <> 0 -> l <> [].
Proof. intros L N E. subst l. simpl in L. congruence. Qed.

Lemma files_length_nonzero : length files <> 0.
Proof. destruct files; [congruence|discriminate]. Qed.

Lemma build_section_insert_lines :
  count NL (build_section_insert files w) = length files.
Proof.
  unfold build_section_insert. rewrite count_join_lines.
  - apply build_file_entries_length.
  - intros e I. unfold build_file_entries in I. apply in_map_iff in I.
    destruct I as ([p v] & <- & I).
    apply build_files_items in I. destruct I as [Ip [j ->]].
    destruct (file_refs_has files w p Ip) as (r & G & j' & ->).
    rewrite (lookup_get _ _ _ G).
    apply count_build_file_entry;
      [apply count_id|apply count_basename, count_path, Ip|apply count_id].
  - apply (nonempty_length _ _ build_file_entries_length).
    apply files_length_nonzero.
Qed.

Lemma file_ref_insert_lines :
  count NL (file_ref_insert files w) = length files.
Proof.
  unfold file_ref_insert. rewrite count_join_lines.
  - apply file_ref_entries_length.
  - intros e I. unfold file_ref_entries in I. apply in_map_iff in I.
    destruct I as ([p v] & <- & I).
    apply file_refs_items in I. destruct I as [Ip [j ->]].
    apply count_file_ref_entry;
      [apply count_id|apply count_basename, count_path, Ip
      |apply count_path, Ip].
  - apply (nonempty_length _ _ file_ref_entries_length).
    apply files_length_nonzero.
Qed.

End Lines.

End LineFacts.

(** * What the script prints *)

Module OutputFacts.
Import RunFacts.

Lemma bind_inv {A B} (m : M A) (k : A -> M B) (w w' : world) (b : B) :
  bind m k w = Ok b w' ->
  exists a w1, m w = Ok a w1 /\ k a w1 = Ok b w'.
Proof.
  unfold bind. destruct (m w) as [a w1|e w1]; [|discriminate].
  intro H. exists a, w1. split; [reflexivity|exact H].
Qed.

Lemma quiet_ret {A} (a : A) : quiet (ret a).
Proof. intros w a' w' H. injection H as _ <-. reflexivity. Qed.

Lemma quiet_bind {A B} (m : M A) (k : A -> M B) :
  quiet m -> (forall a, quiet (k a)) -> quiet (bind m k).
Proof.
  intros Hm Hk w b w' H. apply bind_inv in H.
  destruct H as (a & w1 & H1 & H2).
  rewrite (Hk a _ _ _ H2). apply (Hm _ _ _ H1).
Qed.

Lemma quiet_lift {A} (e : error) (o : option A) : quiet (lift e o).
Proof. destruct o; [apply quiet_ret|]. intros w a w' H. discriminate. Qed.

Lemma quiet_generate_id : quiet generate_id.
Proof. intros w a w' H. injection H as _ <-. reflexivity. Qed.

Lemma quiet_read_file (path : text) : quiet (read_file path).
Proof.
  intros w a w' H. unfold read_file in H.
  destruct (fs w path) as [f|]; [|discriminate].
  destruct (readable f); [|discriminate].
  injection H as _ <-. reflexivity.
Qed.

Lemma quiet_write_file (path content : text) :
  quiet (write_file path content).
Proof.
  intros w a w' H. unfold write_file in H.
  destruct (fs w path) as [f|].
  - destruct (writable f); [|discriminate]. injection H as _ <-. reflexivity.
  - injection H as _ <-. reflexivity.
Qed.

Lemma quiet_foldM {A S} (body : S -> A -> M S) (l : list A) :
  (forall s a, quiet (body s a)) -> forall s, quiet (foldM body l s).
Proof.
  intro H. induction l as [|a l IH]; intro s; [apply quiet_ret|].
  cbn [foldM]. apply quiet_bind; [apply H|exact IH].
Qed.

Lemma quiet_mapM {A B} (f : A -> M B) (l : list A) :
  (forall a, quiet (f a)) -> quiet (mapM f l).
Proof.
  intro H. induction l as [|a l IH]; [apply quiet_ret|].
  cbn [mapM]. apply quiet_bind; [apply H|]. intro b.
  apply quiet_bind; [exact IH|]. intro bs. apply quiet_ret.
Qed.

Lemma quiet_re_sub (r : Re.regex) (repl s : text) : quiet (re_sub r repl s).
Proof. apply quiet_lift. Qed.

Lemma quiet_getitem (d : Dict.t) (k : text) : quiet (getitem d k).
Proof. apply quiet_lift. Qed.

End OutputFacts.

(** * The properties of the specification *)

Section RunOutcome.
Import Str StrFacts Re ReFacts RunFacts StepFacts OutputFacts.

Variable files : list text.
Variable path : text.
Variable w : world.
Variable doc : text.
Hypothesis Hfiles : forallb no_backslash files = true.
Hypothesis Hfs : fs w path = Some (mkfile true true doc).

(** The run succeeds, and the descriptor it leaves is [content4]. *)
Lemma run_descriptor :
  add_files_to_project files path w
  = Ok tt (final_world files path (mkfile true true doc) w) /\
  descriptor path (final_world files path (mkfile true true doc) w)
  = content4 files w doc.
Proof.
  split.
  - apply run_ok; [exact Hfiles|exact Hfs|reflexivity|reflexivity].
  - unfold descriptor, final_world. cbn [fs].
    rewrite DictFacts.key_eqb_refl. reflexivity.
Qed.

End RunOutcome.

(** C5. Every identifier [generate_id] returns is obtained from a
    [uuid4] value [u], a number below 2^128: its first 12 bytes, byte [k]
    being [u / 2^(8 (15 - k)) mod 256], are each rendered as two upper-case
    hexadecimal digits, the digit of [b / 16] and then the digit of
    [b mod 16], and the 24 digits are concatenated.  So the identifier has
    24 characters, all among [0123456789ABCDEF].  The call consumes one
    read of the entropy source and cannot fail. *)
Theorem generate_id_is_24_upper_hex_digits :
  forall w : world,
    let u := Uuid.uuid4 (urandom w (drawn w)) in
    let id := concat (map Uuid.format_02X (firstn 12 (Uuid.bytes u))) in
    generate_id w
    = Ok id (mkworld (fs w) (urandom w) (S (drawn w)) (stdout w)) /\
    (0 <= u < 2 ^ 128)%Z /\
    length (Uuid.bytes u) = 16 /\
    length (firstn 12 (Uuid.bytes u)) = 12 /\
    Forall (fun b => (0 <= b < 256)%Z /\ length (Uuid.format_02X b) = 2)
           (firstn 12 (Uuid.bytes u)) /\
    length id = 24 /\
    forallb Uuid.is_upper_hex id = true /\
    firstn 12 (Uuid.bytes u)
    = map (fun k => ((u / 2 ^ (8 * (15 - Z.of_nat k))) mod 256)%Z) (seq 0 12) /\
    Forall (fun b =>
              Uuid.format_02X b
              = [nth (Z.to_nat (b / 16)) (chars "0123456789ABCDEF") "0"%char;
                 nth (Z.to_nat (b mod 16)) (chars "0123456789ABCDEF") "0"%char])
           (firstn 12 (Uuid.bytes u)) /\
    id = flat_map
           (fun k =>
              [nth (Z.to_nat (((u / 2 ^ (8 * (15 - Z.of_nat k))) mod 256) / 16))
                   (chars "0123456789ABCDEF") "0"%char;
               nth (Z.to_nat (((u / 2 ^ (8 * (15 - Z.of_nat k))) mod 256) mod 16))
                   (chars "0123456789ABCDEF") "0"%char])
           (seq 0 12) /\
    Forall (fun c => In c (chars "0123456789ABCDEF")) id.
Proof.
  intro w. cbv zeta.
  set (u := Uuid.uuid4 (urandom w (drawn w))).
  assert (E : Uuid.id_of (urandom w (drawn w))
              = concat (map Uuid.format_02X (firstn 12 (Uuid.bytes u)))).
  { unfold Uuid.id_of. apply StrFacts.join_nil_concat. }
  assert (R12 : forall b, In b (firstn 12 (Uuid.bytes u)) -> (0 <= b < 256)%Z).
  { intros b Hb. apply (UuidFacts.bytes_range u).
    rewrite <- (firstn_skipn 12 (Uuid.bytes u)).
    apply in_or_app. left. exact Hb. }
  assert (B12 : firstn 12 (Uuid.bytes u)
                = map (fun k => ((u / 2 ^ (8 * (15 - Z.of_nat k))) mod 256)%Z)
                      (seq 0 12)).
  { unfold Uuid.bytes. rewrite firstn_map.
    change (firstn 12 (seq 0 16)) with (seq 0 12).
    apply map_ext_in. intros k Hk. apply in_seq in Hk.
    change 255%Z with (Z.ones 8). rewrite Z.land_ones by lia.
    rewrite Z.shiftr_div_pow2 by lia. reflexivity. }
  assert (F : forall b, (0 <= b < 256)%Z ->
                Uuid.format_02X b
                = [nth (Z.to_nat (b / 16)) (chars "0123456789ABCDEF") "0"%char;
                   nth (Z.to_nat (b mod 16)) (chars "0123456789ABCDEF")
                       "0"%char]).
  { intros b Hb.
    pose proof (UuidFacts.all_bytes
      (fun x => Dict.key_eqb (Uuid.format_02X x)
                  [nth (Z.to_nat (x / 16)) (chars "0123456789ABCDEF") "0"%char;
                   nth (Z.to_nat (x mod 16)) (chars "0123456789ABCDEF")
                       "0"%char])) as A.
    cbv beta in A. specialize (A ltac:(vm_compute; reflexivity) b Hb).
    apply DictFacts.key_eqb_eq. exact A. }
  assert (H : forall c, Uuid.is_upper_hex c = true ->
                        In c (chars "0123456789ABCDEF")).
  { intros c Hc.
    destruct c as [[|] [|] [|] [|] [|] [|] [|] [|]];
      vm_compute in Hc; try discriminate Hc;
      simpl; repeat (first [left; reflexivity | right]). }
  split; [unfold generate_id; rewrite E; reflexivity|].
  split.
  { unfold u, Uuid.uuid4.
    set (i := (urandom w (drawn w) mod 2 ^ 128)%Z).
    assert (Hi : (0 <= i < 2 ^ 128)%Z) by (apply Z.mod_pos_bound; reflexivity).
    assert (B : forall a b, (0 <= a < 2 ^ 128)%Z -> (0 <= b < 2 ^ 128)%Z ->
                            (0 <= Z.lor a b < 2 ^ 128)%Z).
    { intros a b [Ha1 Ha2] [Hb1 Hb2]. split; [apply Z.lor_nonneg; lia|].
      destruct (Z.eq_dec (Z.lor a b) 0) as [Z0|NZ]; [rewrite Z0; reflexivity|].
      assert (P : (0 < Z.lor a b)%Z).
      { pose proof (proj2 (Z.lor_nonneg a b) (conj Ha1 Hb1)). lia. }
      apply Z.log2_lt_pow2; [exact P|].
      rewrite Z.log2_lor by assumption.
      apply Z.max_lub_lt.
      - destruct (Z.eq_dec a 0) as [->|Na]; [reflexivity|].
        apply Z.log2_lt_pow2; lia.
      - destruct (Z.eq_dec b 0) as [->|Nb]; [reflexivity|].
        apply Z.log2_lt_pow2; lia. }
    assert (A : forall a k, (0 <= a < 2 ^ 128)%Z -> (0 <= k)%Z ->
                            (0 <= Z.land a (Z.lnot k) < 2 ^ 128)%Z).
    { intros a k [Ha1 Ha2] Hk. rewrite <- Z.ldiff_land.
      assert (N : (0 <= Z.ldiff a k)%Z) by (apply Z.ldiff_nonneg; left; lia).
      split; [exact N|].
      destruct (Z.eq_dec (Z.ldiff a k) 0) as [Z0|NZ]; [rewrite Z0; reflexivity|].
      apply Z.log2_lt_pow2; [lia|].
      assert (L : (0 <= Z.land a k)%Z) by (apply Z.land_nonneg; left; lia).
      pose proof (Z.log2_lor _ _ N L) as M.
      rewrite Z.lor_ldiff_and in M.
      assert (Pa : (0 < a)%Z).
      { destruct (Z.eq_dec a 0) as [->|Na]; [|lia].
        rewrite Z.ldiff_0_l in NZ. congruence. }
      pose proof (proj1 (Z.log2_lt_pow2 a 128 Pa) Ha2). lia. }
    apply B; [|split; reflexivity || (vm_compute; congruence)].
    apply A; [|vm_compute; congruence].
    apply B; [|split; reflexivity || (vm_compute; congruence)].
    apply A; [exact Hi|vm_compute; congruence]. }
  split; [apply UuidFacts.bytes_length|].
  split; [rewrite length_firstn, UuidFacts.bytes_length; reflexivity|].
  split.
  { apply Forall_forall. intros b Hb. pose proof (R12 b Hb) as R.
    split; [exact R|]. apply UuidFacts.format_02X_byte. exact R. }
  split; [rewrite <- E; apply UuidFacts.id_of_shape|].
  split; [rewrite <- E; apply UuidFacts.id_of_shape|].
  split; [exact B12|].
  split; [apply Forall_forall; intros b Hb; exact (F b (R12 b Hb))|].
  split.
  { rewrite flat_map_concat_map. f_equal.
    rewrite B12 at 1. rewrite map_map. apply map_ext_in. intros k Hk.
    apply F. apply Z.mod_pos_bound. reflexivity. }
  apply Forall_forall. intros c Hc. apply H.
  pose proof (proj2 (UuidFacts.id_of_shape (urandom w (drawn w)))) as A.
  rewrite E in A. rewrite forallb_forall in A. exact (A c Hc).
Qed.

(** C9. Whenever a run completes, what it has printed is one banner line
    followed by one line per path of the list, in the order of the list.
    The banner is the check mark U+2705 (the bytes 226, 156, 133 in UTF-8),
    then [ Added ], the number of paths in decimal and
    [ files to Xcode project]; the line of a path is three spaces, a dash,
    a space and the path. *)
Theorem stdout_is_banner_then_one_line_per_path :
  forall (files : list text) (path : text) (w w' : world),
    add_files_to_project files path w = Ok tt w' ->
    stdout w' = stdout w ++ banner (length files)
                  :: map (fun filepath => chars "   - " ++ filepath) files /\
    stdout w'
    = stdout w
        ++ (["226"%char; "156"%char; "133"%char] ++ chars " Added "
              ++ chars (NilZero.string_of_uint (Nat.to_uint (length files)))
              ++ chars " files to Xcode project")
        :: map (fun filepath =>
                  [" "%char; " "%char; " "%char; "-"%char; " "%char]
                    ++ filepath) files /\
    length (stdout w') = length (stdout w) + 1 + length files.
Proof.
  intros files path w w' H.
  assert (Hs : stdout w' = stdout w ++ banner (length files)
                 :: map (fun filepath => chars "   - " ++ filepath) files);
    [|split; [exact Hs|split;
        [exact Hs
        |rewrite Hs, length_app; cbn [length]; rewrite length_map;
         unfold text; lia]]].
  unfold add_files_to_project in H.
  apply OutputFacts.bind_inv in H. destruct H as (content & w1 & H1 & H).
  apply OutputFacts.quiet_read_file in H1.
  apply OutputFacts.bind_inv in H. destruct H as ([file_refs build_files] & w2 & H2 & H).
  apply OutputFacts.quiet_foldM in H2.
  2:{ intros [d1 d2] p. apply OutputFacts.quiet_bind;
        [apply OutputFacts.quiet_generate_id|]. intro id1.
      apply OutputFacts.quiet_bind; [apply OutputFacts.quiet_generate_id|].
      intro id2. apply OutputFacts.quiet_ret. }
  apply OutputFacts.bind_inv in H. destruct H as (entries1 & w3 & H3 & H).
  apply OutputFacts.quiet_foldM in H3.
  2:{ intros acc [p v]. apply OutputFacts.quiet_bind;
        [apply OutputFacts.quiet_getitem|]. intro r. apply OutputFacts.quiet_ret. }
  apply OutputFacts.bind_inv in H. destruct H as (c1 & w4 & H4 & H).
  apply OutputFacts.quiet_re_sub in H4.
  apply OutputFacts.bind_inv in H. destruct H as (entries2 & w5 & H5 & H).
  apply OutputFacts.quiet_foldM in H5.
  2:{ intros acc [p v]. apply OutputFacts.quiet_ret. }
  apply OutputFacts.bind_inv in H. destruct H as (c2 & w6 & H6 & H).
  apply OutputFacts.quiet_re_sub in H6.
  apply OutputFacts.bind_inv in H. destruct H as (entries3 & w7 & H7 & H).
  apply OutputFacts.quiet_mapM in H7.
  2:{ intro p. apply OutputFacts.quiet_bind;
        [apply OutputFacts.quiet_getitem|]. intro r. apply OutputFacts.quiet_ret. }
  apply OutputFacts.bind_inv in H. destruct H as (c3 & w8 & H8 & H).
  apply OutputFacts.quiet_re_sub in H8.
  apply OutputFacts.bind_inv in H. destruct H as (entries4 & w9 & H9 & H).
  apply OutputFacts.quiet_mapM in H9.
  2:{ intro p. apply OutputFacts.quiet_bind;
        [apply OutputFacts.quiet_getitem|]. intro r. apply OutputFacts.quiet_ret. }
  apply OutputFacts.bind_inv in H. destruct H as (c4 & w10 & H10 & H).
  apply OutputFacts.quiet_re_sub in H10.
  apply OutputFacts.bind_inv in H. destruct H as (u1 & w11 & H11 & H).
  apply OutputFacts.quiet_write_file in H11.
  apply OutputFacts.bind_inv in H. destruct H as (u2 & w12 & H12 & H).
  unfold print in H12. injection H12 as _ <-.
  rewrite RunFacts.loop_print in H. injection H as <-.
  unfold printed. cbn [stdout].
  rewrite H11, H10, H9, H8, H7, H6, H5, H4, H3, H2, H1.
  rewrite <- app_assoc. reflexivity.
Qed.

(** The run on the shipped list and the sample descriptor completes, and
    prints the banner for ten files and the ten paths. *)
Lemma stdout_is_banner_then_one_line_per_path_witness :
  add_files_to_project NEW_FILES PROJECT_PATH SAMPLE_WORLD
  = Ok tt (final_world NEW_FILES PROJECT_PATH
             (mkfile true true SAMPLE_DESCRIPTOR)
             SAMPLE_WORLD) /\
  stdout (final_world NEW_FILES PROJECT_PATH
            (mkfile true true SAMPLE_DESCRIPTOR)
            SAMPLE_WORLD)
  = stdout SAMPLE_WORLD ++ banner (length NEW_FILES)
      :: map (fun filepath => chars "   - " ++ filepath) NEW_FILES /\
  stdout (final_world NEW_FILES PROJECT_PATH
            (mkfile true true SAMPLE_DESCRIPTOR)
            SAMPLE_WORLD)
  = (["226"%char; "156"%char; "133"%char]
       ++ chars " Added 10 files to Xcode project")
    :: map chars
         [ "   - Models/Batch/BatchItem.swift";
           "   - Models/Core/IconPreset.swift";
           "   - Models/Core/IconSettings.swift";
           "   - Services/ImageProcessing/ImageProcessor.swift";
           "   - ViewModels/BatchProcessingManager.swift";
           "   - ViewModels/PresetManager.swift";
           "   - Views/Batch/BatchQueueView.swift";
           "   - Views/Effects/ImageEffectsPanel.swift";
           "   - Views/Presets/PresetLibraryView.swift";
           "   - Views/Preview/ContextPreviewView.swift" ]%string.
Proof.
  assert (R : add_files_to_project NEW_FILES PROJECT_PATH
                SAMPLE_WORLD
              = Ok tt (final_world NEW_FILES PROJECT_PATH
                         (mkfile true true SAMPLE_DESCRIPTOR)
                         SAMPLE_WORLD)).
  { vm_compute. reflexivity. }
  split; [exact R|].
  destruct (stdout_is_banner_then_one_line_per_path NEW_FILES PROJECT_PATH
              SAMPLE_WORLD _ R) as (S1 & S2 & _).
  split; [exact S1|]. rewrite S2. reflexivity.
Defined.

(** C10. For every descriptor the transformation only inserts text: the
    descriptor read is embedded, in order, in the descriptor written, and
    the length grows by the lengths of the inserted fragments, each counted
    once per anchor its substitution met. *)
Theorem transformation_only_inserts :
  forall (files : list text) (path : text) (w : world) (doc : text),
    forallb no_backslash files = true ->
    fs w path = Some (mkfile true true doc) ->
    exists w',
      add_files_to_project files path w = Ok tt w' /\
      Str.embeds doc (descriptor path w') /\
      length (descriptor path w')
      = length doc
        + matches1 files w doc * length (build_section_insert files w)
        + matches2 files w doc * length (file_ref_insert files w)
        + matches3 files w doc * length (group_insert files w)
        + matches4 files w doc * length (source_insert files w).
Proof.
  intros files path w doc Hfiles Hfs.
  destruct (run_descriptor files path w doc Hfiles Hfs) as [R D].
  eexists. split; [exact R|]. rewrite D.
  pose proof (ReFacts.splice_spliced build_section_pattern
                (build_section_insert files w) [] doc) as S1.
  pose proof (ReFacts.splice_spliced file_ref_pattern
                (file_ref_insert files w) [] (content1 files w doc)) as S2.
  pose proof (ReFacts.splice_spliced main_group_pattern
                [] (group_insert files w) (content2 files w doc)) as S3.
  pose proof (ReFacts.splice_spliced sources_pattern
                [] (source_insert files w) (content3 files w doc)) as S4.
  fold (content1 files w doc) in S1. fold (content2 files w doc) in S2.
  fold (content3 files w doc) in S3. fold (content4 files w doc) in S4.
  fold (matches1 files w doc) in S1. fold (matches2 files w doc) in S2.
  fold (matches3 files w doc) in S3. fold (matches4 files w doc) in S4.
  split.
  - pose proof (ReFacts.spliced_embeds _ _ _ _ _ _ S1) as E1.
    pose proof (ReFacts.spliced_embeds _ _ _ _ _ _ S2) as E2.
    pose proof (ReFacts.spliced_embeds _ _ _ _ _ _ S3) as E3.
    pose proof (ReFacts.spliced_embeds _ _ _ _ _ _ S4) as E4.
    eapply StrFacts.embeds_trans; [exact E1|].
    eapply StrFacts.embeds_trans; [exact E2|].
    eapply StrFacts.embeds_trans; [exact E3|exact E4].
  - rewrite (ReFacts.spliced_length _ _ _ _ _ _ S4).
    rewrite (ReFacts.spliced_length _ _ _ _ _ _ S3).
    rewrite (ReFacts.spliced_length _ _ _ _ _ _ S2).
    rewrite (ReFacts.spliced_length _ _ _ _ _ _ S1).
    simpl length. lia.
Qed.

(** The shipped list on the sample descriptor: forty inserted lines. *)
Lemma transformation_only_inserts_witness :
  forallb no_backslash NEW_FILES = true /\
  fs SAMPLE_WORLD PROJECT_PATH
  = Some (mkfile true true SAMPLE_DESCRIPTOR) /\
  exists w',
    add_files_to_project NEW_FILES PROJECT_PATH SAMPLE_WORLD
    = Ok tt w' /\
    Str.embeds SAMPLE_DESCRIPTOR (descriptor PROJECT_PATH w') /\
    length (descriptor PROJECT_PATH w')
    = length SAMPLE_DESCRIPTOR
      + matches1 NEW_FILES SAMPLE_WORLD SAMPLE_DESCRIPTOR
        * length (build_section_insert NEW_FILES SAMPLE_WORLD)
      + matches2 NEW_FILES SAMPLE_WORLD SAMPLE_DESCRIPTOR
        * length (file_ref_insert NEW_FILES SAMPLE_WORLD)
      + matches3 NEW_FILES SAMPLE_WORLD SAMPLE_DESCRIPTOR
        * length (group_insert NEW_FILES SAMPLE_WORLD)
      + matches4 NEW_FILES SAMPLE_WORLD SAMPLE_DESCRIPTOR
        * length (source_insert NEW_FILES SAMPLE_WORLD).
Proof.
  split; [reflexivity|]. split; [reflexivity|].
  apply (transformation_only_inserts NEW_FILES PROJECT_PATH
           SAMPLE_WORLD SAMPLE_DESCRIPTOR);
    reflexivity.
Defined.





(** * Substitutions with an empty fragment *)

Module EmptyFacts.
Import Re ReFacts.

(** Wrapping every match in two empty texts changes nothing. *)
Lemma spliced_empty (r : regex) (s out : text) (n : nat) :
  spliced r [] [] s out n -> out = s.
Proof.
  induction 1 as [|c s out n _ _ IH|m post out n _ _ IH].
  - reflexivity.
  - rewrite IH. reflexivity.
  - cbn [app]. rewrite IH. reflexivity.
Qed.

Lemma splice_empty (r : regex) (s : text) : splice r [] [] s = s.
Proof. apply (spliced_empty r s _ _ (splice_spliced r [] [] s)). Qed.

End EmptyFacts.

(** C2, as stated, fails: in a descriptor with two build-file anchors the
    fragment is put before both, whereas a substitution of the first match
    alone would leave the second as it was. *)
Lemma only_first_match_affected_refuted :
  Re.matches build_section_pattern TWO_BUILD_SECTIONS = 2 /\
  Re.splice_first build_section_pattern
    (build_section_insert NEW_FILES (sample_world TWO_BUILD_SECTIONS)) []
    TWO_BUILD_SECTIONS
  = build_section_insert NEW_FILES (sample_world TWO_BUILD_SECTIONS)
      ++ BUILD_SECTION_END ++ [NL] ++ BUILD_SECTION_END ++ [NL] /\
  main (sample_world TWO_BUILD_SECTIONS)
  = Ok tt (final_world NEW_FILES PROJECT_PATH
             (mkfile true true TWO_BUILD_SECTIONS)
             (sample_world TWO_BUILD_SECTIONS)) /\
  descriptor PROJECT_PATH
    (final_world NEW_FILES PROJECT_PATH (mkfile true true TWO_BUILD_SECTIONS)
       (sample_world TWO_BUILD_SECTIONS))
  = build_section_insert NEW_FILES (sample_world TWO_BUILD_SECTIONS)
      ++ BUILD_SECTION_END ++ [NL]
      ++ build_section_insert NEW_FILES (sample_world TWO_BUILD_SECTIONS)
      ++ BUILD_SECTION_END ++ [NL] /\
  descriptor PROJECT_PATH
    (final_world NEW_FILES PROJECT_PATH (mkfile true true TWO_BUILD_SECTIONS)
       (sample_world TWO_BUILD_SECTIONS))
  <> Re.splice_first build_section_pattern
       (build_section_insert NEW_FILES (sample_world TWO_BUILD_SECTIONS)) []
       TWO_BUILD_SECTIONS.
Proof.
  split; [vm_compute; reflexivity|].
  split; [vm_compute; reflexivity|].
  split; [vm_compute; reflexivity|].
  split; [vm_compute; reflexivity|].
  intro E. apply (f_equal (@length ascii)) in E. vm_compute in E. discriminate.
Qed.

(** A substitution of the first match alone adds the fragment at most
    once. *)
Lemma splice_first_length (r : Re.regex) (a b s : text) :
  length (Re.splice_first r a b s) <= length s + length a + length b.
Proof.
  induction s as [|c s IH]; [simpl; lia|].
  cbn [Re.splice_first].
  destruct (Re.match_at r (c :: s)) as [[|m]|]; [simpl; lia| |simpl; lia].
  rewrite !length_app, length_firstn, length_skipn. simpl length. lia.
Qed.

(** With an empty fragment both substitutions leave the text as it is. *)
Lemma splice_first_empty (r : Re.regex) (s : text) :
  Re.splice_first r [] [] s = s.
Proof.
  induction s as [|c s IH]; [reflexivity|].
  cbn [Re.splice_first].
  destruct (Re.match_at r (c :: s)) as [[|m]|] eqn:E;
    [rewrite IH; reflexivity| |rewrite IH; reflexivity].
  cbn [app firstn]. rewrite firstn_skipn. reflexivity.
Qed.

(** A substitution of every match that equals the substitution of the
    first match alone has met at most one match, unless the fragment is
    empty. *)
Lemma first_alone_once (r : Re.regex) (a b s : text) :
  0 < length a + length b ->
  Re.splice r a b s = Re.splice_first r a b s ->
  Re.matches r s <= 1.
Proof.
  intros P E. apply (f_equal (@length ascii)) in E.
  rewrite (ReFacts.spliced_length _ _ _ _ _ _
             (ReFacts.splice_spliced r a b s)) in E.
  pose proof (splice_first_length r a b s) as L. nia.
Qed.

(** C2, amended. Each of the four insertions is one substitution that
    walks the text from left to right and wraps every match of its anchor
    that does not overlap an earlier one.  It is the substitution of the
    first match alone exactly where the anchor is met at most once: for the
    build-file and the file-reference insertion always, for the two list
    insertions whenever the list of paths is not empty; with an empty list
    their fragment is empty and both substitutions leave the text as it
    is, however often the anchor is met. *)
Theorem every_match_of_an_anchor_is_affected :
  forall (files : list text) (path : text) (w : world) (doc : text),
    forallb no_backslash files = true ->
    fs w path = Some (mkfile true true doc) ->
    exists w',
      add_files_to_project files path w = Ok tt w' /\
      descriptor path w' = content4 files w doc /\
      Re.spliced build_section_pattern (build_section_insert files w) []
        doc (content1 files w doc) (matches1 files w doc) /\
      Re.spliced file_ref_pattern (file_ref_insert files w) []
        (content1 files w doc) (content2 files w doc) (matches2 files w doc) /\
      Re.spliced main_group_pattern [] (group_insert files w)
        (content2 files w doc) (content3 files w doc) (matches3 files w doc) /\
      Re.spliced sources_pattern [] (source_insert files w)
        (content3 files w doc) (content4 files w doc) (matches4 files w doc) /\
      (matches1 files w doc <= 1 ->
       content1 files w doc
       = Re.splice_first build_section_pattern
           (build_section_insert files w) [] doc) /\
      (matches2 files w doc <= 1 ->
       content2 files w doc
       = Re.splice_first file_ref_pattern
           (file_ref_insert files w) [] (content1 files w doc)) /\
      (matches3 files w doc <= 1 ->
       content3 files w doc
       = Re.splice_first main_group_pattern
           [] (group_insert files w) (content2 files w doc)) /\
      (matches4 files w doc <= 1 ->
       content4 files w doc
       = Re.splice_first sources_pattern
           [] (source_insert files w) (content3 files w doc)) /\
      (content1 files w doc
       = Re.splice_first build_section_pattern
           (build_section_insert files w) [] doc ->
       matches1 files w doc <= 1) /\
      (content2 files w doc
       = Re.splice_first file_ref_pattern
           (file_ref_insert files w) [] (content1 files w doc) ->
       matches2 files w doc <= 1) /\
      (files <> [] ->
       content3 files w doc
       = Re.splice_first main_group_pattern
           [] (group_insert files w) (content2 files w doc) ->
       matches3 files w doc <= 1) /\
      (files <> [] ->
       content4 files w doc
       = Re.splice_first sources_pattern
           [] (source_insert files w) (content3 files w doc) ->
       matches4 files w doc <= 1) /\
      (files = [] ->
       content3 files w doc = content2 files w doc /\
       Re.splice_first main_group_pattern [] (group_insert files w)
         (content2 files w doc) = content2 files w doc /\
       content4 files w doc = content3 files w doc /\
       Re.splice_first sources_pattern [] (source_insert files w)
         (content3 files w doc) = content3 files w doc).
Proof.
  intros files path w doc Hfiles Hfs.
  destruct (run_descriptor files path w doc Hfiles Hfs) as [R D].
  eexists. split; [exact R|]. split; [exact D|].
  pose proof (ReFacts.splice_spliced build_section_pattern
                (build_section_insert files w) [] doc) as S1.
  pose proof (ReFacts.splice_spliced file_ref_pattern
                (file_ref_insert files w) [] (content1 files w doc)) as S2.
  pose proof (ReFacts.splice_spliced main_group_pattern
                [] (group_insert files w) (content2 files w doc)) as S3.
  pose proof (ReFacts.splice_spliced sources_pattern
                [] (source_insert files w) (content3 files w doc)) as S4.
  split; [exact S1|]. split; [exact S2|]. split; [exact S3|].
  split; [exact S4|].
  split; [intro H; exact (ReFacts.spliced_once_first _ _ _ _ _ _ S1 H)|].
  split; [intro H; exact (ReFacts.spliced_once_first _ _ _ _ _ _ S2 H)|].
  split; [intro H; exact (ReFacts.spliced_once_first _ _ _ _ _ _ S3 H)|].
  split; [intro H; exact (ReFacts.spliced_once_first _ _ _ _ _ _ S4 H)|].
  assert (P1 : 0 < length (build_section_insert files w) + length (@nil ascii)).
  { unfold build_section_insert. rewrite length_app. simpl. lia. }
  assert (P2 : 0 < length (file_ref_insert files w) + length (@nil ascii)).
  { unfold file_ref_insert. rewrite length_app. simpl. lia. }
  assert (J : forall (e : text) (l : list text),
                0 < length e ->
                0 < length (@nil ascii) + length (Str.join [] (e :: l))).
  { intros e l He. destruct l as [|e' l]; cbn [Str.join length Nat.add];
      [exact He|rewrite length_app; lia]. }
  assert (P3 : files <> [] ->
               0 < length (@nil ascii) + length (group_insert files w)).
  { intro N. destruct files as [|p files']; [congruence|].
    unfold group_insert, group_entries. cbn [map]. apply J.
    unfold group_entry. rewrite length_app. cbn [length]. lia. }
  assert (P4 : files <> [] ->
               0 < length (@nil ascii) + length (source_insert files w)).
  { intro N. destruct files as [|p files']; [congruence|].
    unfold source_insert, source_entries. cbn [map]. apply J.
    unfold source_entry. rewrite length_app. cbn [length]. lia. }
  split; [exact (first_alone_once _ _ _ _ P1)|].
  split; [exact (first_alone_once _ _ _ _ P2)|].
  split; [intro N; exact (first_alone_once _ _ _ _ (P3 N))|].
  split; [intro N; exact (first_alone_once _ _ _ _ (P4 N))|].
  intros ->. unfold content4, content3, source_insert, group_insert.
  cbn [source_entries group_entries map Str.join].
  rewrite !EmptyFacts.splice_empty, !splice_first_empty. auto.
Qed.

(** The shipped list on the descriptor with two build-file anchors. *)
Lemma every_match_of_an_anchor_is_affected_witness :
  forallb no_backslash NEW_FILES = true /\
  fs (sample_world TWO_BUILD_SECTIONS) PROJECT_PATH
  = Some (mkfile true true TWO_BUILD_SECTIONS) /\
  matches1 NEW_FILES (sample_world TWO_BUILD_SECTIONS) TWO_BUILD_SECTIONS = 2 /\
  exists w',
    add_files_to_project NEW_FILES PROJECT_PATH
      (sample_world TWO_BUILD_SECTIONS) = Ok tt w' /\
    Re.spliced build_section_pattern
      (build_section_insert NEW_FILES (sample_world TWO_BUILD_SECTIONS)) []
      TWO_BUILD_SECTIONS
      (content1 NEW_FILES (sample_world TWO_BUILD_SECTIONS) TWO_BUILD_SECTIONS)
      (matches1 NEW_FILES (sample_world TWO_BUILD_SECTIONS) TWO_BUILD_SECTIONS) /\
    content1 NEW_FILES (sample_world TWO_BUILD_SECTIONS) TWO_BUILD_SECTIONS
    <> Re.splice_first build_section_pattern
         (build_section_insert NEW_FILES (sample_world TWO_BUILD_SECTIONS)) []
         TWO_BUILD_SECTIONS.
Proof.
  split; [reflexivity|]. split; [reflexivity|].
  assert (M : matches1 NEW_FILES (sample_world TWO_BUILD_SECTIONS)
                TWO_BUILD_SECTIONS = 2) by (vm_compute; reflexivity).
  split; [exact M|].
  destruct (every_match_of_an_anchor_is_affected NEW_FILES PROJECT_PATH
              (sample_world TWO_BUILD_SECTIONS) TWO_BUILD_SECTIONS
              eq_refl eq_refl)
    as (w' & R & _ & S1 & _ & _ & _ & _ & _ & _ & _ & C1 & _).
  exists w'. split; [exact R|]. split; [exact S1|].
  intro E. apply C1 in E. rewrite M in E. lia.
Defined.

Section OneLinePerFile.
Import Str StrFacts Re ReFacts RunFacts RowsFacts StepFacts LineFacts.

Variable files : list text.
Variable w : world.
Variable doc : text.

Lemma anchors_once_matches :
  anchors_once files w doc = true ->
  matches1 files w doc = 1 /\ matches2 files w doc = 1 /\
  matches3 files w doc = 1 /\ matches4 files w doc = 1.
Proof.
  unfold anchors_once. intro H.
  apply andb_true_iff in H. destruct H as [H H4].
  apply andb_true_iff in H. destruct H as [H H3].
  apply andb_true_iff in H. destruct H as [H1 H2].
  apply Nat.eqb_eq in H1, H2, H3, H4. auto.
Qed.

Lemma put_before_once (r : regex) (anchor frag s : text) :
  (forall m post, match_at r (m ++ post) = Some (length m) -> m = anchor) ->
  matches r s = 1 ->
  put_before anchor frag s (splice r frag [] s).
Proof.
  intros A H.
  destruct (splice_once r frag [] s H) as (pre & m & post & Es & Fm & Sp).
  pose proof (A _ _ (proj1 Fm)) as ->.
  exists pre, post. split; [exact Es|exact Sp].
Qed.

Lemma put_after_once (r : regex) (head tail frag s : text) :
  (forall m post, match_at r (m ++ post) = Some (length m) ->
                  exists gap, m = head ++ gap ++ tail /\
                              find tail (gap ++ tail ++ post)
                              = Some (length gap)) ->
  matches r s = 1 ->
  put_after head tail frag s (splice r [] frag s).
Proof.
  intros A H.
  destruct (splice_once r [] frag s H) as (pre & m & post & Es & Fm & Sp).
  destruct (A _ _ (proj1 Fm)) as (gap & -> & _).
  exists pre, gap, post. split; [exact Es|exact Sp].
Qed.

(** Line breaks through the four substitutions. *)
Lemma content4_line_breaks :
  count NL (content4 files w doc)
  = count NL doc
    + matches1 files w doc * count NL (build_section_insert files w)
    + matches2 files w doc * count NL (file_ref_insert files w)
    + matches3 files w doc * count NL (group_insert files w)
    + matches4 files w doc * count NL (source_insert files w).
Proof.
  unfold content4, matches4.
  rewrite (spliced_count _ _ _ NL _ _ _ (splice_spliced _ _ _ _)).
  unfold content3, matches3.
  rewrite (spliced_count _ _ _ NL _ _ _ (splice_spliced _ _ _ _)).
  unfold content2, matches2.
  rewrite (spliced_count _ _ _ NL _ _ _ (splice_spliced _ _ _ _)).
  unfold content1, matches1.
  rewrite (spliced_count _ _ _ NL _ _ _ (splice_spliced _ _ _ _)).
  simpl count. lia.
Qed.

(** With distinct paths the [i]-th path has the identifiers of the reads
    [2i] and [2i+1]. *)
Lemma ids_of_path (i : nat) (p : text) :
  distinct files = true ->
  nth_error files i = Some p ->
  lookup (file_refs_of files w) p = file_ref_id w i /\
  lookup (build_files_of files w) p = build_id w i.
Proof.
  intros Hd Hn.
  pose proof (rows_nth (urandom w) files (drawn w) i p Hn) as Hr.
  apply nth_error_In in Hr.
  split.
  - apply (lookup_file_ref files w Hd _ Hr).
  - apply (lookup_build files w Hd _ Hr).
Qed.

End OneLinePerFile.

(** C1, as stated, fails in four ways.  (1) A path listed twice gets one
    line, not two, in the build-file and file-reference sections.  (2) In a
    descriptor where the file-reference anchor ends on the first character
    of the build-file anchor, each anchor occurs once, but the first
    insertion breaks the file-reference anchor and that section gets no
    line.  (3) A path with a backslash and a letter makes the run fail.
    (4) A path with a line break adds more than one line per section. *)
Lemma two_ids_and_one_line_per_file_refuted :
  (anchors_once LISTED_TWICE SAMPLE_WORLD SAMPLE_DESCRIPTOR = true /\
   add_files_to_project LISTED_TWICE PROJECT_PATH SAMPLE_WORLD
   = Ok tt (final_world LISTED_TWICE PROJECT_PATH
              (mkfile true true SAMPLE_DESCRIPTOR) SAMPLE_WORLD) /\
   length (build_file_entries LISTED_TWICE SAMPLE_WORLD) = 1 /\
   length (file_ref_entries LISTED_TWICE SAMPLE_WORLD) = 1 /\
   Str.count NL (descriptor PROJECT_PATH
                   (final_world LISTED_TWICE PROJECT_PATH
                      (mkfile true true SAMPLE_DESCRIPTOR) SAMPLE_WORLD))
   = Str.count NL SAMPLE_DESCRIPTOR + 6) /\
  (Re.matches build_section_pattern OVERLAPPING_ANCHORS = 1 /\
   Re.matches file_ref_pattern OVERLAPPING_ANCHORS = 1 /\
   Re.matches main_group_pattern OVERLAPPING_ANCHORS = 1 /\
   Re.matches sources_pattern OVERLAPPING_ANCHORS = 1 /\
   main (sample_world OVERLAPPING_ANCHORS)
   = Ok tt (final_world NEW_FILES PROJECT_PATH
              (mkfile true true OVERLAPPING_ANCHORS)
              (sample_world OVERLAPPING_ANCHORS)) /\
   content2 NEW_FILES (sample_world OVERLAPPING_ANCHORS) OVERLAPPING_ANCHORS
   = content1 NEW_FILES (sample_world OVERLAPPING_ANCHORS) OVERLAPPING_ANCHORS /\
   Str.count NL (descriptor PROJECT_PATH
                   (final_world NEW_FILES PROJECT_PATH
                      (mkfile true true OVERLAPPING_ANCHORS)
                      (sample_world OVERLAPPING_ANCHORS)))
   = Str.count NL OVERLAPPING_ANCHORS + 30) /\
  add_files_to_project WITH_BAD_ESCAPE PROJECT_PATH SAMPLE_WORLD
  = Raise ReError (drawn_more SAMPLE_WORLD 2) /\
  (anchors_once WITH_LINE_BREAK SAMPLE_WORLD SAMPLE_DESCRIPTOR = true /\
   add_files_to_project WITH_LINE_BREAK PROJECT_PATH SAMPLE_WORLD
   = Ok tt (final_world WITH_LINE_BREAK PROJECT_PATH
              (mkfile true true SAMPLE_DESCRIPTOR) SAMPLE_WORLD) /\
   Str.count NL (descriptor PROJECT_PATH
                   (final_world WITH_LINE_BREAK PROJECT_PATH
                      (mkfile true true SAMPLE_DESCRIPTOR) SAMPLE_WORLD))
   = Str.count NL SAMPLE_DESCRIPTOR + 10).
Proof.
  repeat split; vm_compute; reflexivity.
Qed.

(** C1, amended. For a list of [n >= 1] pairwise distinct paths without
    backslash or line break, and a descriptor in which every anchor is met
    exactly once by its substitution, the run reads the entropy source
    [2n] times, two identifiers per path, and puts [n] lines at each of the
    four anchors and nothing anywhere else. *)
Theorem two_ids_and_one_line_per_file :
  forall (files : list text) (path : text) (w : world) (doc : text),
    0 < length files ->
    distinct files = true ->
    forallb no_backslash files = true ->
    forallb no_newline files = true ->
    fs w path = Some (mkfile true true doc) ->
    anchors_once files w doc = true ->
    exists w',
      add_files_to_project files path w = Ok tt w' /\
      drawn w' = drawn w + 2 * length files /\
      (forall i p, nth_error files i = Some p ->
                   lookup (file_refs_of files w) p = file_ref_id w i /\
                   lookup (build_files_of files w) p = build_id w i) /\
      length (build_file_entries files w) = length files /\
      Str.count NL (build_section_insert files w) = length files /\
      put_before BUILD_SECTION_END (build_section_insert files w)
        doc (content1 files w doc) /\
      length (file_ref_entries files w) = length files /\
      Str.count NL (file_ref_insert files w) = length files /\
      put_before FILE_REF_SECTION_END (file_ref_insert files w)
        (content1 files w doc) (content2 files w doc) /\
      length (group_entries files w) = length files /\
      Str.count NL (group_insert files w) = length files /\
      put_after MAIN_GROUP_HEAD MAIN_GROUP_TAIL (group_insert files w)
        (content2 files w doc) (content3 files w doc) /\
      length (source_entries files w) = length files /\
      Str.count NL (source_insert files w) = length files /\
      put_after SOURCES_HEAD SOURCES_TAIL (source_insert files w)
        (content3 files w doc) (content4 files w doc) /\
      descriptor path w' = content4 files w doc /\
      Str.count NL (descriptor path w')
      = Str.count NL doc + 4 * length files.
Proof.
  intros files path w doc Hn Hd Hbs Hnl Hfs Ha.
  destruct (run_descriptor files path w doc Hbs Hfs) as [R D].
  destruct (anchors_once_matches files w doc Ha) as (M1 & M2 & M3 & M4).
  assert (Hne : files <> []) by (destruct files; [simpl in Hn; lia|discriminate]).
  pose proof (LineFacts.build_section_insert_lines files w Hnl Hd Hne) as L1.
  pose proof (LineFacts.file_ref_insert_lines files w Hnl Hd Hne) as L2.
  pose proof (LineFacts.group_insert_lines files w Hnl) as L3.
  pose proof (LineFacts.source_insert_lines files w Hnl) as L4.
  eexists. split; [exact R|]. split; [reflexivity|].
  split; [intros i p Hi; apply ids_of_path; assumption|].
  split; [apply LineFacts.build_file_entries_length; assumption|].
  split; [exact L1|].
  split; [apply put_before_once;
          [exact StepFacts.build_section_anchor|exact M1]|].
  split; [apply LineFacts.file_ref_entries_length; assumption|].
  split; [exact L2|].
  split; [apply put_before_once; [exact StepFacts.file_ref_anchor|exact M2]|].
  split; [unfold group_entries; apply length_map|].
  split; [exact L3|].
  split; [apply put_after_once; [exact StepFacts.main_group_anchor|exact M3]|].
  split; [unfold source_entries; apply length_map|].
  split; [exact L4|].
  split; [apply put_after_once; [exact StepFacts.sources_anchor|exact M4]|].
  split; [exact D|].
  rewrite D, content4_line_breaks, M1, M2, M3, M4, L1, L2, L3, L4. lia.
Qed.

(** The shipped list on the sample descriptor: twenty identifiers, ten
    lines at each anchor. *)
Lemma two_ids_and_one_line_per_file_witness :
  0 < length NEW_FILES /\
  distinct NEW_FILES = true /\
  forallb no_backslash NEW_FILES = true /\
  forallb no_newline NEW_FILES = true /\
  fs SAMPLE_WORLD PROJECT_PATH
  = Some (mkfile true true SAMPLE_DESCRIPTOR) /\
  anchors_once NEW_FILES SAMPLE_WORLD SAMPLE_DESCRIPTOR
  = true /\
  exists w',
    add_files_to_project NEW_FILES PROJECT_PATH SAMPLE_WORLD
    = Ok tt w' /\
    drawn w' = 20 /\
    Str.count NL (descriptor PROJECT_PATH w')
    = Str.count NL SAMPLE_DESCRIPTOR + 40.
Proof.
  assert (H1 : 0 < length NEW_FILES) by (simpl; lia).
  assert (H6 : anchors_once NEW_FILES SAMPLE_WORLD
                 SAMPLE_DESCRIPTOR = true) by (vm_compute; reflexivity).
  split; [exact H1|]. split; [reflexivity|]. split; [reflexivity|].
  split; [reflexivity|]. split; [reflexivity|]. split; [exact H6|].
  destruct (two_ids_and_one_line_per_file NEW_FILES PROJECT_PATH
              SAMPLE_WORLD SAMPLE_DESCRIPTOR
              H1 eq_refl eq_refl eq_refl eq_refl H6)
    as (w' & R & Dr & _ & _ & _ & _ & _ & _ & _ & _ & _ & _ & _ & _ & _ & _ & C).
  exists w'. split; [exact R|]. split; [exact Dr|exact C].
Defined.

Section IdentifierCount.
Import Str StrFacts Re ReFacts UuidFacts RunFacts OccFacts RowsFacts
       CountFacts StepFacts PipelineFacts.

Variable files : list text.
Variable w : world.
Variable doc : text.
Hypothesis Hdistinct : distinct files = true.

Local Abbreviation refs :=
  (map row_file_ref (rows (urandom w) (drawn w) files)).
Local Abbreviation builds :=
  (map row_build (rows (urandom w) (drawn w) files)).

(** Occurrences of an identifier that is in no path, through the
    transformation. *)
Lemma identifier_occurrences (rnd : Z) :
  (forall p, In p files -> occurrences (Uuid.id_of rnd) p = 0) ->
  let x := Uuid.id_of rnd in
  occurrences x (build_section_insert files w) = hits x builds + hits x refs /\
  occurrences x (file_ref_insert files w) = hits x refs /\
  occurrences x (group_insert files w) = hits x refs /\
  occurrences x (source_insert files w) = hits x builds /\
  occurrences x (content4 files w doc)
  = occurrences x doc
    + matches1 files w doc * (hits x builds + hits x refs)
    + matches2 files w doc * hits x refs
    + matches3 files w doc * hits x refs
    + matches4 files w doc * hits x builds.
Proof.
  intros Habs x.
  assert (Hsep : forall c, Uuid.is_upper_hex c = false -> ~ In c x)
    by (intros c Hc; apply id_of_sep; exact Hc).
  assert (Hlen : length x = 24) by apply id_of_length.
  pose proof (occurrences_build_section_insert files w x Hsep Hlen Habs
                Hdistinct) as O1.
  pose proof (occurrences_file_ref_insert files w x Hsep Hlen Habs
                Hdistinct) as O2.
  pose proof (occurrences_group_insert files w x Hsep Hlen Habs
                Hdistinct) as O3.
  pose proof (occurrences_source_insert files w x Hsep Hlen Habs
                Hdistinct) as O4.
  repeat split; try assumption.
  rewrite (content4_occurrences x Hsep (id_of_nonempty rnd)).
  rewrite O1, O2, O3, O4. reflexivity.
Qed.

Hypothesis Hids : distinct (generated_ids w (length files)) = true.
Hypothesis Hunseen : ids_unseen files w doc = true.

Lemma unseen_generated (x : text) :
  In x (generated_ids w (length files)) ->
  occurrences x doc = 0 /\ forall p, In p files -> occurrences x p = 0.
Proof.
  intro I. unfold ids_unseen in Hunseen.
  rewrite forallb_forall in Hunseen. specialize (Hunseen x I).
  apply andb_true_iff in Hunseen. destruct Hunseen as [H1 H2].
  split; [apply Nat.eqb_eq; exact H1|].
  intros p Ip. rewrite forallb_forall in H2.
  apply Nat.eqb_eq. apply (H2 p Ip).
Qed.

Lemma file_ref_id_hits (i : nat) :
  i < length files ->
  hits (file_ref_id w i) refs = 1 /\ hits (file_ref_id w i) builds = 0.
Proof.
  intro Hi. destruct (file_ref_id_generated files w i Hi) as [G C].
  pose proof (hits_generated files w _ Hids G) as S.
  pose proof (hits_in _ _ C) as L. lia.
Qed.

Lemma build_id_hits (i : nat) :
  i < length files ->
  hits (build_id w i) refs = 0 /\ hits (build_id w i) builds = 1.
Proof.
  intro Hi. destruct (build_id_generated files w i Hi) as [G C].
  pose proof (hits_generated files w _ Hids G) as S.
  pose proof (hits_in _ _ C) as L. lia.
Qed.

(** The entries of the [i]-th path. *)
Lemma entries_of_path (i : nat) (p : text) :
  nth_error files i = Some p ->
  In (build_file_entry (build_id w i) (basename p) (file_ref_id w i))
     (build_file_entries files w) /\
  In (file_ref_entry (file_ref_id w i) (basename p) p)
     (file_ref_entries files w) /\
  In (group_entry (file_ref_id w i) (basename p)) (group_entries files w) /\
  In (source_entry (build_id w i) (basename p)) (source_entries files w).
Proof.
  intro Hn.
  pose proof (rows_nth (urandom w) files (drawn w) i p Hn) as Hr.
  apply nth_error_In in Hr.
  rewrite (build_file_entries_rows files w Hdistinct).
  rewrite (file_ref_entries_rows files w Hdistinct).
  rewrite (group_entries_rows files w Hdistinct).
  rewrite (source_entries_rows files w Hdistinct).
  repeat split.
  - apply (in_map (fun row => build_file_entry (row_build row)
                                (basename (row_path row)) (row_file_ref row))
             _ _ Hr).
  - apply (in_map (fun row => file_ref_entry (row_file_ref row)
                                (basename (row_path row)) (row_path row))
             _ _ Hr).
  - apply (in_map (fun row => group_entry (row_file_ref row)
                                (basename (row_path row))) _ _ Hr).
  - apply (in_map (fun row => source_entry (row_build row)
                                (basename (row_path row))) _ _ Hr).
Qed.

End IdentifierCount.

(** C3, as stated, fails: on the sample descriptor, where every anchor is
    met once and no identifier of the run occurs beforehand, the
    file-reference identifier of the first path occurs three times in the
    descriptor written, not twice. *)
Lemma file_ref_id_occurs_twice_refuted :
  anchors_once NEW_FILES SAMPLE_WORLD SAMPLE_DESCRIPTOR = true /\
  Re.matches build_section_pattern SAMPLE_DESCRIPTOR = 1 /\
  Re.matches file_ref_pattern SAMPLE_DESCRIPTOR = 1 /\
  Re.matches main_group_pattern SAMPLE_DESCRIPTOR = 1 /\
  Re.matches sources_pattern SAMPLE_DESCRIPTOR = 1 /\
  distinct (generated_ids SAMPLE_WORLD (length NEW_FILES)) = true /\
  ids_unseen NEW_FILES SAMPLE_WORLD SAMPLE_DESCRIPTOR = true /\
  main SAMPLE_WORLD
  = Ok tt (final_world NEW_FILES PROJECT_PATH
             (mkfile true true SAMPLE_DESCRIPTOR) SAMPLE_WORLD) /\
  Str.occurrences (file_ref_id SAMPLE_WORLD 0)
    (descriptor PROJECT_PATH
       (final_world NEW_FILES PROJECT_PATH
          (mkfile true true SAMPLE_DESCRIPTOR) SAMPLE_WORLD)) = 3 /\
  Str.occurrences (file_ref_id SAMPLE_WORLD 0)
    (build_file_entry (build_id SAMPLE_WORLD 0) (chars "BatchItem.swift")
                      (file_ref_id SAMPLE_WORLD 0)) = 1.
Proof.
  repeat split; vm_compute; reflexivity.
Qed.

(** C3, amended. For pairwise distinct paths without backslash, a
    descriptor in which every anchor is met exactly once by its
    substitution, and identifiers that are pairwise distinct and occur
    neither in the descriptor read nor in a path, the file-reference
    identifier of a path occurs in exactly three places of the descriptor
    written: once in the build-file fragment (the [fileRef] field of the
    entry of that path), once in the file-reference fragment and once in
    the group fragment (the entries of that path), and not in the
    build-phase fragment. *)
Theorem file_ref_id_occurs_three_times :
  forall (files : list text) (path : text) (w : world) (doc : text)
         (i : nat) (p : text),
    distinct files = true ->
    forallb no_backslash files = true ->
    fs w path = Some (mkfile true true doc) ->
    anchors_once files w doc = true ->
    distinct (generated_ids w (length files)) = true ->
    ids_unseen files w doc = true ->
    nth_error files i = Some p ->
    exists w',
      add_files_to_project files path w = Ok tt w' /\
      Str.occurrences (file_ref_id w i) (descriptor path w') = 3 /\
      Str.occurrences (file_ref_id w i) (build_section_insert files w) = 1 /\
      Str.occurrences (file_ref_id w i) (file_ref_insert files w) = 1 /\
      Str.occurrences (file_ref_id w i) (group_insert files w) = 1 /\
      Str.occurrences (file_ref_id w i) (source_insert files w) = 0 /\
      In (build_file_entry (build_id w i) (basename p) (file_ref_id w i))
         (build_file_entries files w) /\
      In (file_ref_entry (file_ref_id w i) (basename p) p)
         (file_ref_entries files w) /\
      In (group_entry (file_ref_id w i) (basename p)) (group_entries files w).
Proof.
  intros files path w doc i p Hd Hbs Hfs Ha Hids Hun Hn.
  destruct (run_descriptor files path w doc Hbs Hfs) as [R D].
  destruct (anchors_once_matches files w doc Ha) as (M1 & M2 & M3 & M4).
  assert (Hi : i < length files) by (apply nth_error_Some; congruence).
  destruct (CountFacts.file_ref_id_generated files w i Hi) as [G _].
  destruct (unseen_generated files w doc Hun _ G) as [U0 Up].
  destruct (identifier_occurrences files w doc Hd _ Up)
    as (O1 & O2 & O3 & O4 & O).
  fold (file_ref_id w i) in O1, O2, O3, O4, O.
  destruct (file_ref_id_hits files w Hids i Hi) as [Hr Hb].
  destruct (entries_of_path files w Hd i p Hn) as (E1 & E2 & E3 & _).
  eexists. split; [exact R|].
  rewrite D, O, O1, O2, O3, O4, U0, M1, M2, M3, M4, Hr, Hb.
  repeat split; assumption || reflexivity.
Qed.

(** The first path of the shipped list on the sample descriptor. *)
Lemma file_ref_id_occurs_three_times_witness :
  distinct NEW_FILES = true /\
  forallb no_backslash NEW_FILES = true /\
  fs SAMPLE_WORLD PROJECT_PATH = Some (mkfile true true SAMPLE_DESCRIPTOR) /\
  anchors_once NEW_FILES SAMPLE_WORLD SAMPLE_DESCRIPTOR = true /\
  distinct (generated_ids SAMPLE_WORLD (length NEW_FILES)) = true /\
  ids_unseen NEW_FILES SAMPLE_WORLD SAMPLE_DESCRIPTOR = true /\
  nth_error NEW_FILES 0 = Some (chars "Models/Batch/BatchItem.swift") /\
  exists w',
    add_files_to_project NEW_FILES PROJECT_PATH SAMPLE_WORLD = Ok tt w' /\
    Str.occurrences (file_ref_id SAMPLE_WORLD 0) (descriptor PROJECT_PATH w') = 3.
Proof.
  assert (H4 : anchors_once NEW_FILES SAMPLE_WORLD SAMPLE_DESCRIPTOR = true)
    by (vm_compute; reflexivity).
  assert (H5 : distinct (generated_ids SAMPLE_WORLD (length NEW_FILES)) = true)
    by (vm_compute; reflexivity).
  assert (H6 : ids_unseen NEW_FILES SAMPLE_WORLD SAMPLE_DESCRIPTOR = true)
    by (vm_compute; reflexivity).
  split; [reflexivity|]. split; [reflexivity|]. split; [reflexivity|].
  split; [exact H4|]. split; [exact H5|]. split; [exact H6|].
  split; [reflexivity|].
  destruct (file_ref_id_occurs_three_times NEW_FILES PROJECT_PATH SAMPLE_WORLD SAMPLE_DESCRIPTOR
              0 (chars "Models/Batch/BatchItem.swift")
              eq_refl eq_refl eq_refl H4 H5 H6 eq_refl)
    as (w' & R & O & _).
  exists w'. split; [exact R|exact O].
Defined.

(** C6, as stated, fails for a path that is listed twice: on the sample
    descriptor, where every anchor is met once and no identifier of the run
    occurs beforehand, the build-file identifier the path keeps (the one
    drawn at its second listing) occurs three times in the descriptor
    written, once in the build-file section and twice in the build phase,
    and the one drawn at its first listing does not occur at all. *)
Lemma build_id_occurs_twice_refuted :
  Re.matches build_section_pattern SAMPLE_DESCRIPTOR = 1 /\
  Re.matches file_ref_pattern SAMPLE_DESCRIPTOR = 1 /\
  Re.matches main_group_pattern SAMPLE_DESCRIPTOR = 1 /\
  Re.matches sources_pattern SAMPLE_DESCRIPTOR = 1 /\
  anchors_once LISTED_TWICE SAMPLE_WORLD SAMPLE_DESCRIPTOR = true /\
  distinct (generated_ids SAMPLE_WORLD (length LISTED_TWICE)) = true /\
  ids_unseen LISTED_TWICE SAMPLE_WORLD SAMPLE_DESCRIPTOR = true /\
  add_files_to_project LISTED_TWICE PROJECT_PATH SAMPLE_WORLD
  = Ok tt (after_run LISTED_TWICE SAMPLE_WORLD) /\
  Dict.get (chars "A.swift") (build_files_of LISTED_TWICE SAMPLE_WORLD)
  = Some (build_id SAMPLE_WORLD 1) /\
  Str.occurrences (build_id SAMPLE_WORLD 1)
    (descriptor PROJECT_PATH (after_run LISTED_TWICE SAMPLE_WORLD)) = 3 /\
  Str.occurrences (build_id SAMPLE_WORLD 1)
    (build_section_insert LISTED_TWICE SAMPLE_WORLD) = 1 /\
  Str.occurrences (build_id SAMPLE_WORLD 1)
    (source_insert LISTED_TWICE SAMPLE_WORLD) = 2 /\
  Str.occurrences (build_id SAMPLE_WORLD 0)
    (descriptor PROJECT_PATH (after_run LISTED_TWICE SAMPLE_WORLD)) = 0.
Proof.
  repeat split; vm_compute; reflexivity.
Qed.

(** C6, amended. For pairwise distinct paths without backslash and
    identifiers that are pairwise distinct and occur neither in the
    descriptor read nor in a path, the build-file identifier of a path
    occurs in the descriptor written once for every match of the build-file
    anchor and once for every match of the build-phase anchor, in the
    entries of that path, and nowhere else.  So it occurs in exactly two
    places whenever the build-file and the build-phase substitution each
    meet their anchor exactly once, whatever becomes of the two other
    anchors. *)
Theorem build_id_occurs_twice :
  forall (files : list text) (path : text) (w : world) (doc : text)
         (i : nat) (p : text),
    distinct files = true ->
    forallb no_backslash files = true ->
    fs w path = Some (mkfile true true doc) ->
    distinct (generated_ids w (length files)) = true ->
    ids_unseen files w doc = true ->
    nth_error files i = Some p ->
    exists w',
      add_files_to_project files path w = Ok tt w' /\
      Str.occurrences (build_id w i) (descriptor path w')
      = matches1 files w doc + matches4 files w doc /\
      (matches1 files w doc = 1 -> matches4 files w doc = 1 ->
       Str.occurrences (build_id w i) (descriptor path w') = 2) /\
      Str.occurrences (build_id w i) (build_section_insert files w) = 1 /\
      Str.occurrences (build_id w i) (file_ref_insert files w) = 0 /\
      Str.occurrences (build_id w i) (group_insert files w) = 0 /\
      Str.occurrences (build_id w i) (source_insert files w) = 1 /\
      In (build_file_entry (build_id w i) (basename p) (file_ref_id w i))
         (build_file_entries files w) /\
      In (source_entry (build_id w i) (basename p)) (source_entries files w).
Proof.
  intros files path w doc i p Hd Hbs Hfs Hids Hun Hn.
  destruct (run_descriptor files path w doc Hbs Hfs) as [R D].
  assert (Hi : i < length files) by (apply nth_error_Some; congruence).
  destruct (CountFacts.build_id_generated files w i Hi) as [G _].
  destruct (unseen_generated files w doc Hun _ G) as [U0 Up].
  destruct (identifier_occurrences files w doc Hd _ Up)
    as (O1 & O2 & O3 & O4 & O).
  fold (build_id w i) in O1, O2, O3, O4, O.
  destruct (build_id_hits files w Hids i Hi) as [Hr Hb].
  destruct (entries_of_path files w Hd i p Hn) as (E1 & _ & _ & E4).
  assert (T : Str.occurrences (build_id w i) (content4 files w doc)
              = matches1 files w doc + matches4 files w doc).
  { rewrite O, U0, Hr, Hb. lia. }
  eexists. split; [exact R|]. rewrite D.
  split; [exact T|].
  split; [intros M1 M4; rewrite T, M1, M4; reflexivity|].
  rewrite O1, O2, O3, O4, Hr, Hb.
  repeat split; assumption || reflexivity.
Qed.

(** The last path of the shipped list, on the sample descriptor and on a
    descriptor in which the first insertion breaks the file-reference
    anchor: the build-file identifier occurs twice in both. *)
Lemma build_id_occurs_twice_witness :
  distinct NEW_FILES = true /\
  forallb no_backslash NEW_FILES = true /\
  fs SAMPLE_WORLD PROJECT_PATH = Some (mkfile true true SAMPLE_DESCRIPTOR) /\
  distinct (generated_ids SAMPLE_WORLD (length NEW_FILES)) = true /\
  ids_unseen NEW_FILES SAMPLE_WORLD SAMPLE_DESCRIPTOR = true /\
  nth_error NEW_FILES 9 = Some (chars "Views/Preview/ContextPreviewView.swift") /\
  matches1 NEW_FILES SAMPLE_WORLD SAMPLE_DESCRIPTOR = 1 /\
  matches4 NEW_FILES SAMPLE_WORLD SAMPLE_DESCRIPTOR = 1 /\
  (exists w',
     add_files_to_project NEW_FILES PROJECT_PATH SAMPLE_WORLD = Ok tt w' /\
     Str.occurrences (build_id SAMPLE_WORLD 9) (descriptor PROJECT_PATH w')
     = 2) /\
  fs (sample_world OVERLAPPING_ANCHORS) PROJECT_PATH
  = Some (mkfile true true OVERLAPPING_ANCHORS) /\
  ids_unseen NEW_FILES (sample_world OVERLAPPING_ANCHORS) OVERLAPPING_ANCHORS
  = true /\
  matches1 NEW_FILES (sample_world OVERLAPPING_ANCHORS) OVERLAPPING_ANCHORS
  = 1 /\
  matches2 NEW_FILES (sample_world OVERLAPPING_ANCHORS) OVERLAPPING_ANCHORS
  = 0 /\
  matches4 NEW_FILES (sample_world OVERLAPPING_ANCHORS) OVERLAPPING_ANCHORS
  = 1 /\
  (exists w',
     add_files_to_project NEW_FILES PROJECT_PATH
       (sample_world OVERLAPPING_ANCHORS) = Ok tt w' /\
     Str.occurrences (build_id (sample_world OVERLAPPING_ANCHORS) 9)
       (descriptor PROJECT_PATH w') = 2).
Proof.
  assert (H5 : distinct (generated_ids SAMPLE_WORLD (length NEW_FILES)) = true)
    by (vm_compute; reflexivity).
  assert (H6 : ids_unseen NEW_FILES SAMPLE_WORLD SAMPLE_DESCRIPTOR = true)
    by (vm_compute; reflexivity).
  assert (M1 : matches1 NEW_FILES SAMPLE_WORLD SAMPLE_DESCRIPTOR = 1)
    by (vm_compute; reflexivity).
  assert (M4 : matches4 NEW_FILES SAMPLE_WORLD SAMPLE_DESCRIPTOR = 1)
    by (vm_compute; reflexivity).
  assert (K6 : ids_unseen NEW_FILES (sample_world OVERLAPPING_ANCHORS)
                 OVERLAPPING_ANCHORS = true) by (vm_compute; reflexivity).
  assert (N1 : matches1 NEW_FILES (sample_world OVERLAPPING_ANCHORS)
                 OVERLAPPING_ANCHORS = 1) by (vm_compute; reflexivity).
  assert (N4 : matches4 NEW_FILES (sample_world OVERLAPPING_ANCHORS)
                 OVERLAPPING_ANCHORS = 1) by (vm_compute; reflexivity).
  split; [reflexivity|]. split; [reflexivity|]. split; [reflexivity|].
  split; [exact H5|]. split; [exact H6|]. split; [reflexivity|].
  split; [exact M1|]. split; [exact M4|].
  split.
  { destruct (build_id_occurs_twice NEW_FILES PROJECT_PATH SAMPLE_WORLD
                SAMPLE_DESCRIPTOR
                9 (chars "Views/Preview/ContextPreviewView.swift")
                eq_refl eq_refl eq_refl H5 H6 eq_refl)
      as (w' & R & _ & O & _).
    exists w'. split; [exact R|exact (O M1 M4)]. }
  split; [reflexivity|]. split; [exact K6|]. split; [exact N1|].
  split; [vm_compute; reflexivity|]. split; [exact N4|].
  destruct (build_id_occurs_twice NEW_FILES PROJECT_PATH
              (sample_world OVERLAPPING_ANCHORS) OVERLAPPING_ANCHORS
              9 (chars "Views/Preview/ContextPreviewView.swift")
              eq_refl eq_refl eq_refl H5 K6 eq_refl)
    as (w' & R & _ & O & _).
  exists w'. split; [exact R|exact (O N1 N4)].
Defined.

Section TwoRuns.
Import Str StrFacts Re ReFacts UuidFacts DictFacts RunFacts OccFacts
       RowsFacts CountFacts StepFacts PipelineFacts.

Variable files : list text.
Variable path : text.
Variable w : world.
Variable doc : text.

Local Abbreviation w1 := (final_world files path (mkfile true true doc) w).

Lemma distinct_app (a b : list text) :
  distinct (a ++ b) = true ->
  distinct a = true /\ distinct b = true /\
  forall x, In x a -> In x b -> False.
Proof.
  induction a as [|y a IH]; simpl; intro H.
  - split; [reflexivity|]. split; [exact H|]. intros x [].
  - apply andb_true_iff in H. destruct H as [H1 H2].
    destruct (IH H2) as (Da & Db & Dj).
    apply negb_true_iff in H1. rewrite existsb_app in H1.
    apply orb_false_iff in H1. destruct H1 as [Ha Hb].
    split; [rewrite Ha, Da; reflexivity|]. split; [exact Db|].
    intros x [->|Ia] Ib; [|exact (Dj x Ia Ib)].
    assert (E : existsb (Dict.key_eqb x) b = true).
    { apply existsb_exists. exists x. split; [exact Ib|apply key_eqb_refl]. }
    congruence.
Qed.

Lemma map_seq_shift {A} (f : nat -> A) (k len : nat) :
  forall s, map f (seq (k + s) len) = map (fun j => f (k + j)) (seq s len).
Proof.
  induction len as [|len IH]; intro s; [reflexivity|].
  cbn [seq map]. f_equal.
  rewrite <- IH. f_equal. f_equal. lia.
Qed.

(** The identifiers of two runs are those of the first, then those of the
    second. *)
Lemma ids_of_two_runs_split :
  ids_of_two_runs files w
  = generated_ids w (length files) ++ generated_ids w1 (length files).
Proof.
  unfold ids_of_two_runs, generated_ids, final_world. cbn [urandom drawn].
  replace (2 * (2 * length files))
    with (2 * length files + 2 * length files) by lia.
  rewrite seq_app, map_app. f_equal.
  rewrite <- (Nat.add_0_r (0 + 2 * length files)).
  cbn [Nat.add].
  rewrite (map_seq_shift (fun j => Uuid.id_of (urandom w (drawn w + j)))).
  apply map_ext. intro j. f_equal. f_equal. lia.
Qed.

Lemma columns_generated (v : world) (x : text) :
  In x (map row_file_ref (rows (urandom v) (drawn v) files)) \/
  In x (map row_build (rows (urandom v) (drawn v) files)) ->
  In x (generated_ids v (length files)).
Proof.
  intro H. unfold generated_ids. rewrite <- rows_ids.
  apply in_flat_map.
  destruct H as [H|H]; apply in_map_iff in H; destruct H as (row & <- & I);
    exists row; split; try exact I; simpl; auto.
Qed.

Lemma hits_foreign (v : world) (x : text) :
  ~ In x (generated_ids v (length files)) ->
  hits x (map row_file_ref (rows (urandom v) (drawn v) files)) = 0 /\
  hits x (map row_build (rows (urandom v) (drawn v) files)) = 0.
Proof.
  intro H. split; apply hits_not_in; intro I; apply H;
    apply columns_generated; auto.
Qed.

End TwoRuns.

Section Growth.
Import Str StrFacts Re ReFacts RunFacts.

Variable files : list text.
Variable w : world.
Variable doc : text.

Lemma content4_length :
  length (content4 files w doc)
  = length doc
    + matches1 files w doc * length (build_section_insert files w)
    + matches2 files w doc * length (file_ref_insert files w)
    + matches3 files w doc * length (group_insert files w)
    + matches4 files w doc * length (source_insert files w).
Proof.
  unfold content4, matches4.
  rewrite (spliced_length _ _ _ _ _ _ (splice_spliced _ _ _ _)).
  unfold content3, matches3.
  rewrite (spliced_length _ _ _ _ _ _ (splice_spliced _ _ _ _)).
  unfold content2, matches2.
  rewrite (spliced_length _ _ _ _ _ _ (splice_spliced _ _ _ _)).
  unfold content1, matches1.
  rewrite (spliced_length _ _ _ _ _ _ (splice_spliced _ _ _ _)).
  simpl length. lia.
Qed.

Lemma build_section_insert_nonempty :
  0 < length (build_section_insert files w).
Proof.
  unfold build_section_insert. rewrite length_app. simpl. lia.
Qed.

Lemma anchors_present_matches :
  anchors_present files w doc = true ->
  0 < matches1 files w doc /\ 0 < matches2 files w doc /\
  0 < matches3 files w doc /\ 0 < matches4 files w doc.
Proof.
  unfold anchors_present. intro H.
  apply andb_true_iff in H. destruct H as [H H4].
  apply andb_true_iff in H. destruct H as [H H3].
  apply andb_true_iff in H. destruct H as [H1 H2].
  apply Nat.ltb_lt in H1, H2, H3, H4. auto.
Qed.

End Growth.

(** C7, as stated, fails: a second run need not double every entry.  In
    this descriptor every anchor occurs once, and the first run meets each
    of them; but the build-file anchor ends on the slash the file-reference
    anchor begins with, so the file-reference fragment of the first run is
    written into it.  The second run finds no build-file anchor and adds no
    build-file entry: its build-file identifiers occur once, in the build
    phase only, and its file-reference identifiers twice. *)
Lemma second_run_duplicates_every_entry_refuted :
  Re.matches build_section_pattern SHARED_SLASH = 1 /\
  Re.matches file_ref_pattern SHARED_SLASH = 1 /\
  Re.matches main_group_pattern SHARED_SLASH = 1 /\
  Re.matches sources_pattern SHARED_SLASH = 1 /\
  anchors_once NEW_FILES (sample_world SHARED_SLASH) SHARED_SLASH = true /\
  distinct (ids_of_two_runs NEW_FILES (sample_world SHARED_SLASH)) = true /\
  ids_of_two_runs_unseen NEW_FILES (sample_world SHARED_SLASH) SHARED_SLASH
  = true /\
  main (sample_world SHARED_SLASH)
  = Ok tt (after_run NEW_FILES (sample_world SHARED_SLASH)) /\
  main (after_run NEW_FILES (sample_world SHARED_SLASH))
  = Ok tt (after_run NEW_FILES
             (after_run NEW_FILES (sample_world SHARED_SLASH))) /\
  Re.matches build_section_pattern
    (descriptor PROJECT_PATH (after_run NEW_FILES (sample_world SHARED_SLASH)))
  = 0 /\
  Str.occurrences (chars "isa = PBXBuildFile;")
    (descriptor PROJECT_PATH (after_run NEW_FILES (sample_world SHARED_SLASH)))
  = 10 /\
  Str.occurrences (chars "isa = PBXBuildFile;")
    (descriptor PROJECT_PATH
       (after_run NEW_FILES (after_run NEW_FILES (sample_world SHARED_SLASH))))
  = 10 /\
  Str.occurrences (chars "isa = PBXFileReference;")
    (descriptor PROJECT_PATH
       (after_run NEW_FILES (after_run NEW_FILES (sample_world SHARED_SLASH))))
  = 20 /\
  Str.occurrences
    (build_id (after_run NEW_FILES (sample_world SHARED_SLASH)) 0)
    (descriptor PROJECT_PATH
       (after_run NEW_FILES (after_run NEW_FILES (sample_world SHARED_SLASH))))
  = 1 /\
  Str.occurrences
    (file_ref_id (after_run NEW_FILES (sample_world SHARED_SLASH)) 0)
    (descriptor PROJECT_PATH
       (after_run NEW_FILES (after_run NEW_FILES (sample_world SHARED_SLASH))))
  = 2.
Proof.
  repeat split; vm_compute; reflexivity.
Qed.

(** C7, amended. The operation is not idempotent.  Take pairwise distinct
    paths without backslash, a descriptor in which every anchor is met in
    the first run and again in the second, and identifiers that are
    pairwise distinct over both runs and occur neither in the descriptor
    read nor in a path.  Then the second run reads fresh entropy, writes a
    longer descriptor, and for every path the entries of both runs are
    there: the identifiers of the first run occur as often as before (at
    least three times the file-reference identifier, at least twice the
    build-file identifier), and the identifiers of the second run,
    different from those of the first and absent before, occur at least as
    often. *)
Theorem second_run_duplicates_every_entry :
  forall (files : list text) (path : text) (w : world) (doc : text)
         (i : nat) (p : text),
    distinct files = true ->
    forallb no_backslash files = true ->
    fs w path = Some (mkfile true true doc) ->
    anchors_present files w doc = true ->
    anchors_present files
      (final_world files path (mkfile true true doc) w)
      (content4 files w doc) = true ->
    distinct (ids_of_two_runs files w) = true ->
    ids_of_two_runs_unseen files w doc = true ->
    nth_error files i = Some p ->
    exists w1 w2,
      add_files_to_project files path w = Ok tt w1 /\
      add_files_to_project files path w1 = Ok tt w2 /\
      drawn w1 = drawn w + 2 * length files /\
      drawn w2 = drawn w1 + 2 * length files /\
      length (descriptor path w1) < length (descriptor path w2) /\
      descriptor path w2 <> descriptor path w1 /\
      file_ref_id w1 i <> file_ref_id w i /\
      build_id w1 i <> build_id w i /\
      In (build_file_entry (build_id w1 i) (basename p) (file_ref_id w1 i))
         (build_file_entries files w1) /\
      In (file_ref_entry (file_ref_id w1 i) (basename p) p)
         (file_ref_entries files w1) /\
      In (group_entry (file_ref_id w1 i) (basename p))
         (group_entries files w1) /\
      In (source_entry (build_id w1 i) (basename p))
         (source_entries files w1) /\
      3 <= Str.occurrences (file_ref_id w i) (descriptor path w1) /\
      Str.occurrences (file_ref_id w i) (descriptor path w2)
      = Str.occurrences (file_ref_id w i) (descriptor path w1) /\
      2 <= Str.occurrences (build_id w i) (descriptor path w1) /\
      Str.occurrences (build_id w i) (descriptor path w2)
      = Str.occurrences (build_id w i) (descriptor path w1) /\
      Str.occurrences (file_ref_id w1 i) (descriptor path w1) = 0 /\
      3 <= Str.occurrences (file_ref_id w1 i) (descriptor path w2) /\
      Str.occurrences (build_id w1 i) (descriptor path w1) = 0 /\
      2 <= Str.occurrences (build_id w1 i) (descriptor path w2).
Proof.
  intros files path w doc i p Hd Hbs Hfs Ha1 Ha2 Hids Hun Hn.
  set (w1 := final_world files path (mkfile true true doc) w) in *.
  set (doc1 := content4 files w doc) in *.
  destruct (run_descriptor files path w doc Hbs Hfs) as [R1 D1].
  fold w1 in R1, D1. fold doc1 in D1.
  assert (Hfs1 : fs w1 path = Some (mkfile true true doc1)).
  { unfold w1, final_world. cbn [fs].
    rewrite DictFacts.key_eqb_refl. reflexivity. }
  destruct (run_descriptor files path w1 doc1 Hbs Hfs1) as [R2 D2].
  set (w2 := final_world files path (mkfile true true doc1) w1) in *.
  assert (Hi : i < length files) by (apply nth_error_Some; congruence).
  rewrite (ids_of_two_runs_split files path w doc) in Hids.
  fold w1 in Hids.
  destruct (distinct_app _ _ Hids) as (Da & Db & Dj).
  assert (U : forall x, In x (generated_ids w (length files)) \/
                        In x (generated_ids w1 (length files)) ->
                        Str.occurrences x doc = 0 /\
                        forall q, In q files -> Str.occurrences x q = 0).
  { intros x Hx. unfold ids_of_two_runs_unseen in Hun.
    rewrite (ids_of_two_runs_split files path w doc) in Hun. fold w1 in Hun.
    rewrite forallb_forall in Hun.
    specialize (Hun x (proj2 (in_app_iff _ _ x) Hx)).
    apply andb_true_iff in Hun. destruct Hun as [H1 H2].
    split; [apply Nat.eqb_eq; exact H1|].
    intros q Iq. rewrite forallb_forall in H2.
    apply Nat.eqb_eq. apply (H2 q Iq). }
  destruct (anchors_present_matches files w doc Ha1) as (M1 & M2 & M3 & M4).
  destruct (anchors_present_matches files w1 doc1 Ha2) as (N1 & N2 & N3 & N4).
  destruct (CountFacts.file_ref_id_generated files w i Hi) as [Gr1 _].
  destruct (CountFacts.build_id_generated files w i Hi) as [Gb1 _].
  destruct (CountFacts.file_ref_id_generated files w1 i Hi) as [Gr2 _].
  destruct (CountFacts.build_id_generated files w1 i Hi) as [Gb2 _].
  (* the four identifiers through the first run *)
  destruct (identifier_occurrences files w doc Hd _
              (proj2 (U _ (or_introl Gr1)))) as (_ & _ & _ & _ & Or11).
  destruct (identifier_occurrences files w doc Hd _
              (proj2 (U _ (or_introl Gb1)))) as (_ & _ & _ & _ & Ob11).
  destruct (identifier_occurrences files w doc Hd _
              (proj2 (U _ (or_intror Gr2)))) as (_ & _ & _ & _ & Or21).
  destruct (identifier_occurrences files w doc Hd _
              (proj2 (U _ (or_intror Gb2)))) as (_ & _ & _ & _ & Ob21).
  (* and through the second *)
  destruct (identifier_occurrences files w1 doc1 Hd _
              (proj2 (U _ (or_introl Gr1)))) as (_ & _ & _ & _ & Or12).
  destruct (identifier_occurrences files w1 doc1 Hd _
              (proj2 (U _ (or_introl Gb1)))) as (_ & _ & _ & _ & Ob12).
  destruct (identifier_occurrences files w1 doc1 Hd _
              (proj2 (U _ (or_intror Gr2)))) as (_ & _ & _ & _ & Or22).
  destruct (identifier_occurrences files w1 doc1 Hd _
              (proj2 (U _ (or_intror Gb2)))) as (_ & _ & _ & _ & Ob22).
  fold (file_ref_id w i) in Or11, Or12. fold (build_id w i) in Ob11, Ob12.
  fold (file_ref_id w1 i) in Or21, Or22. fold (build_id w1 i) in Ob21, Ob22.
  fold doc1 in Or11, Ob11, Or21, Ob21.
  rewrite <- D2 in Or12, Ob12, Or22, Ob22.
  rewrite <- D1 in Or11, Ob11, Or21, Ob21, Or12, Ob12, Or22, Ob22.
  fold w2 in Or12, Ob12, Or22, Ob22.
  (* which identifier is in which column *)
  destruct (file_ref_id_hits files w Da i Hi) as [A1 A2].
  destruct (build_id_hits files w Da i Hi) as [A3 A4].
  destruct (file_ref_id_hits files w1 Db i Hi) as [B1 B2].
  destruct (build_id_hits files w1 Db i Hi) as [B3 B4].
  destruct (hits_foreign files w1 (file_ref_id w i)
              (fun I => Dj _ Gr1 I)) as [C1 C2].
  destruct (hits_foreign files w1 (build_id w i)
              (fun I => Dj _ Gb1 I)) as [C3 C4].
  destruct (hits_foreign files w (file_ref_id w1 i)
              (fun I => Dj _ I Gr2)) as [C5 C6].
  destruct (hits_foreign files w (build_id w1 i)
              (fun I => Dj _ I Gb2)) as [C7 C8].
  rewrite A1, A2, (proj1 (U _ (or_introl Gr1))) in Or11.
  rewrite A3, A4, (proj1 (U _ (or_introl Gb1))) in Ob11.
  rewrite C5, C6, (proj1 (U _ (or_intror Gr2))) in Or21.
  rewrite C7, C8, (proj1 (U _ (or_intror Gb2))) in Ob21.
  rewrite C1, C2 in Or12. rewrite C3, C4 in Ob12.
  rewrite B1, B2 in Or22. rewrite B3, B4 in Ob22.
  destruct (entries_of_path files w1 Hd i p Hn) as (E1 & E2 & E3 & E4).
  assert (L : length (descriptor path w1) < length (descriptor path w2)).
  { rewrite D2, D1, (content4_length files w1 doc1).
    pose proof (build_section_insert_nonempty files w1) as F.
    nia. }
  rewrite <- D1 in N1, N2, N3, N4.
  exists w1, w2.
  split; [exact R1|]. split; [exact R2|].
  split; [reflexivity|]. split; [reflexivity|].
  split; [exact L|].
  split; [intro E; rewrite E in L; lia|].
  split; [intro E; rewrite E in Gr2; exact (Dj _ Gr1 Gr2)|].
  split; [intro E; rewrite E in Gb2; exact (Dj _ Gb1 Gb2)|].
  split; [exact E1|]. split; [exact E2|]. split; [exact E3|].
  split; [exact E4|].
  repeat split; lia.
Qed.

(** Two runs of the shipped list on the sample descriptor, first path. *)
Lemma second_run_duplicates_every_entry_witness :
  distinct NEW_FILES = true /\
  forallb no_backslash NEW_FILES = true /\
  fs SAMPLE_WORLD PROJECT_PATH = Some (mkfile true true SAMPLE_DESCRIPTOR) /\
  anchors_present NEW_FILES SAMPLE_WORLD SAMPLE_DESCRIPTOR = true /\
  anchors_present NEW_FILES
    (final_world NEW_FILES PROJECT_PATH
       (mkfile true true SAMPLE_DESCRIPTOR) SAMPLE_WORLD)
    (content4 NEW_FILES SAMPLE_WORLD SAMPLE_DESCRIPTOR) = true /\
  distinct (ids_of_two_runs NEW_FILES SAMPLE_WORLD) = true /\
  ids_of_two_runs_unseen NEW_FILES SAMPLE_WORLD SAMPLE_DESCRIPTOR = true /\
  nth_error NEW_FILES 0 = Some (chars "Models/Batch/BatchItem.swift") /\
  exists w1 w2,
    add_files_to_project NEW_FILES PROJECT_PATH SAMPLE_WORLD = Ok tt w1 /\
    add_files_to_project NEW_FILES PROJECT_PATH w1 = Ok tt w2 /\
    descriptor PROJECT_PATH w2 <> descriptor PROJECT_PATH w1 /\
    file_ref_id w1 0 <> file_ref_id SAMPLE_WORLD 0 /\
    3 <= Str.occurrences (file_ref_id SAMPLE_WORLD 0) (descriptor PROJECT_PATH w2) /\
    3 <= Str.occurrences (file_ref_id w1 0) (descriptor PROJECT_PATH w2).
Proof.
  assert (H4 : anchors_present NEW_FILES SAMPLE_WORLD SAMPLE_DESCRIPTOR = true)
    by (vm_compute; reflexivity).
  assert (H5 : anchors_present NEW_FILES
                 (final_world NEW_FILES PROJECT_PATH
                    (mkfile true true SAMPLE_DESCRIPTOR) SAMPLE_WORLD)
                 (content4 NEW_FILES SAMPLE_WORLD SAMPLE_DESCRIPTOR) = true)
    by (vm_compute; reflexivity).
  assert (H6 : distinct (ids_of_two_runs NEW_FILES SAMPLE_WORLD) = true)
    by (vm_compute; reflexivity).
  assert (H7 : ids_of_two_runs_unseen NEW_FILES SAMPLE_WORLD SAMPLE_DESCRIPTOR
               = true) by (vm_compute; reflexivity).
  split; [reflexivity|]. split; [reflexivity|]. split; [reflexivity|].
  split; [exact H4|]. split; [exact H5|]. split; [exact H6|].
  split; [exact H7|]. split; [reflexivity|].
  destruct (second_run_duplicates_every_entry NEW_FILES PROJECT_PATH
              SAMPLE_WORLD SAMPLE_DESCRIPTOR
              0 (chars "Models/Batch/BatchItem.swift")
              eq_refl eq_refl eq_refl H4 H5 H6 H7 eq_refl)
    as (w1 & w2 & R1 & R2 & _ & _ & _ & Ne & Nr & _ & _ & _ & _ & _
        & O1 & E1 & _ & _ & _ & O2 & _).
  exists w1, w2. split; [exact R1|]. split; [exact R2|].
  split; [exact Ne|]. split; [exact Nr|].
  split; [rewrite E1; exact O1|exact O2].
Defined.
(** * The run, case by case *)

Module OutcomeFacts.
Import Str StrFacts Re ReFacts RunFacts.

(** The run up to the first substitution: the text is read and the
    identifiers are drawn; the lookups cannot fail. *)
Lemma run_outcome (files : list text) (path : text) (w : world) :
  add_files_to_project files path w = outcome_of_run files path w.
Proof.
  unfold outcome_of_run, add_files_to_project.
  destruct (fs w path) as [f|] eqn:Hfs.
  2:{ unfold bind at 1, read_file. rewrite Hfs. reflexivity. }
  destruct (readable f) eqn:Hr.
  2:{ unfold bind at 1, read_file. rewrite Hfs, Hr. reflexivity. }
  rewrite (bind_Ok _ _ w w (data f))
    by (unfold read_file; rewrite Hfs, Hr; reflexivity).
  erewrite bind_Ok by apply loop_generate.
  rewrite (surjective_pairing
             (assign (urandom w) (drawn w) files (Dict.empty, Dict.empty))).
  fold (file_refs_of files w). fold (build_files_of files w).
  erewrite bind_Ok.
  2:{ apply loop_build_file_entries. intros p v I.
      apply build_files_items in I. destruct I as [I _].
      destruct (file_refs_has files w p I) as (r & G & _). congruence. }
  cbn [app]. fold (build_file_entries files w).
  fold (build_section_insert files w).
  unfold rewritten.
  unfold bind at 1. unfold re_sub at 1.
  destruct (Re.sub build_section_pattern
              (build_section_insert files w ++ GROUP1) (data f)) as [c1|];
    [|reflexivity].
  cbn [lift]. unfold ret at 1.
  erewrite bind_Ok by apply loop_file_ref_entries.
  cbn [app]. fold (file_ref_entries files w).
  fold (file_ref_insert files w).
  unfold bind at 1. unfold re_sub at 1.
  destruct (Re.sub file_ref_pattern
              (file_ref_insert files w ++ GROUP1) c1) as [c2|];
    [|reflexivity].
  cbn [lift]. unfold ret at 1.
  erewrite bind_Ok.
  2:{ apply (comprehension_lookup (file_refs_of files w)
               (fun id filepath => group_entry id (basename filepath))).
      intros p I. destruct (file_refs_has files w p I) as (r & G & _).
      congruence. }
  fold (group_entries files w). fold (group_insert files w).
  unfold bind at 1. unfold re_sub at 1.
  destruct (Re.sub main_group_pattern
              (GROUP1 ++ group_insert files w) c2) as [c3|];
    [|reflexivity].
  cbn [lift]. unfold ret at 1.
  erewrite bind_Ok.
  2:{ apply (comprehension_lookup (build_files_of files w)
               (fun id filepath => source_entry id (basename filepath))).
      intros p I. destruct (build_files_has files w p I) as (r & G & _).
      congruence. }
  fold (source_entries files w). fold (source_insert files w).
  unfold bind at 1. unfold re_sub at 1.
  destruct (Re.sub sources_pattern
              (GROUP1 ++ source_insert files w) c3) as [c4|];
    [|reflexivity].
  cbn [lift]. unfold ret at 1.
  destruct (writable f) eqn:Hw.
  - erewrite bind_Ok.
    2:{ unfold write_file. cbn [drawn_more fs]. rewrite Hfs, Hw. reflexivity. }
    erewrite bind_Ok by reflexivity.
    rewrite loop_print.
    unfold written_world, printed, store, drawn_more, report.
    cbn [fs urandom drawn stdout]. rewrite <- app_assoc. reflexivity.
  - unfold bind at 1. unfold write_file. cbn [drawn_more fs].
    rewrite Hfs, Hw. reflexivity.
Qed.

End OutcomeFacts.

(** * Failure, success and the edges of a run *)

Module EdgeFacts.
Import Str StrFacts Re ReFacts TemplateFacts RunFacts StepFacts OutcomeFacts.

(** With paths free of backslashes no template is refused. *)
Lemma rewritten_clean (files : list text) (w : world) (content : text) :
  forallb no_backslash files = true ->
  rewritten files w content = Some (content4 files w content).
Proof.
  intro H. unfold rewritten.
  rewrite (sub_before _ _ _ (build_section_insert_clean files w H)).
  fold (content1 files w content).
  rewrite (sub_before _ _ _ (file_ref_insert_clean files w H)).
  fold (content2 files w content).
  rewrite (sub_after _ _ _ (group_insert_clean files w H))
    by (rewrite group_insert_head; reflexivity).
  fold (content3 files w content).
  rewrite (sub_after _ _ _ (source_insert_clean files w H))
    by (rewrite source_insert_head; reflexivity).
  reflexivity.
Qed.

Lemma splice_newline_length (r : regex) (s : text) :
  length (splice r [NL] [] s) = length s + matches r s.
Proof.
  rewrite (spliced_length _ _ _ _ _ _ (splice_spliced r [NL] [] s)).
  simpl. lia.
Qed.

End EdgeFacts.

(** X3. A run that completes has changed one file only, the descriptor,
    which could be read and written before and now holds the text read
    after the four substitutions; every other path is as it was, and the
    entropy source was read exactly [2n] times. *)
Theorem completed_run_rewrites_only_the_descriptor :
  forall (files : list text) (path : text) (w w' : world),
    add_files_to_project files path w = Ok tt w' ->
    (exists f content,
        fs w path = Some f /\ readable f = true /\ writable f = true /\
        rewritten files w (data f) = Some content /\
        fs w' path = Some (mkfile true true content)) /\
    (forall q, q <> path -> fs w' q = fs w q) /\
    urandom w' = urandom w /\
    drawn w' = drawn w + 2 * length files.
Proof.
  intros files path w w' H.
  rewrite OutcomeFacts.run_outcome in H. unfold outcome_of_run in H.
  destruct (fs w path) as [f|] eqn:Hfs; [|discriminate].
  destruct (readable f) eqn:Hr; [|discriminate].
  destruct (rewritten files w (data f)) as [c|] eqn:Hc; [|discriminate].
  destruct (writable f) eqn:Hw; [|discriminate].
  injection H as <-. unfold written_world. cbn [fs urandom drawn].
  split; [|split; [|split; reflexivity]].
  - exists f, c. rewrite DictFacts.key_eqb_refl, Hr. auto.
  - intros q Hq. apply DictFacts.key_eqb_neq in Hq. rewrite Hq. reflexivity.
Qed.

(** The shipped list on the sample world: the descriptor is rewritten, no
    other path appears. *)
Lemma completed_run_rewrites_only_the_descriptor_witness :
  add_files_to_project NEW_FILES PROJECT_PATH SAMPLE_WORLD
  = Ok tt (final_world NEW_FILES PROJECT_PATH
             (mkfile true true SAMPLE_DESCRIPTOR) SAMPLE_WORLD) /\
  (forall q, q <> PROJECT_PATH ->
             fs (final_world NEW_FILES PROJECT_PATH
                   (mkfile true true SAMPLE_DESCRIPTOR) SAMPLE_WORLD) q
             = fs SAMPLE_WORLD q) /\
  drawn (final_world NEW_FILES PROJECT_PATH
           (mkfile true true SAMPLE_DESCRIPTOR) SAMPLE_WORLD)
  = drawn SAMPLE_WORLD + 2 * length NEW_FILES.
Proof.
  assert (R : add_files_to_project NEW_FILES PROJECT_PATH SAMPLE_WORLD
              = Ok tt (final_world NEW_FILES PROJECT_PATH
                         (mkfile true true SAMPLE_DESCRIPTOR) SAMPLE_WORLD))
    by (vm_compute; reflexivity).
  split; [exact R|].
  destruct (completed_run_rewrites_only_the_descriptor NEW_FILES PROJECT_PATH
              SAMPLE_WORLD _ R) as (_ & F & _ & D).
  split; [exact F|exact D].
Defined.

(** X4. With an empty list the run still succeeds and still rewrites the
    descriptor: one empty line is put before every end-of-section marker of
    the build-file and of the file-reference section (the two fragments are
    a lone line break), the two lists are left as they are, no identifier
    is drawn and the banner alone is printed. *)
Theorem empty_list_adds_blank_lines :
  forall (path : text) (w : world) (doc : text),
    fs w path = Some (mkfile true true doc) ->
    exists w',
      add_files_to_project [] path w = Ok tt w' /\
      descriptor path w'
      = Re.splice file_ref_pattern [NL] []
          (Re.splice build_section_pattern [NL] [] doc) /\
      length (descriptor path w')
      = length doc + Re.matches build_section_pattern doc
        + Re.matches file_ref_pattern
            (Re.splice build_section_pattern [NL] [] doc) /\
      drawn w' = drawn w /\
      stdout w' = stdout w ++ [banner 0].
Proof.
  intros path w doc Hfs.
  destruct (run_descriptor [] path w doc eq_refl Hfs) as [R D].
  assert (C : content4 [] w doc
              = Re.splice file_ref_pattern [NL] []
                  (Re.splice build_section_pattern [NL] [] doc)).
  { unfold content4, content3. cbn [source_insert source_entries map Str.join].
    cbn [group_insert group_entries map Str.join].
    rewrite !EmptyFacts.splice_empty. reflexivity. }
  eexists. split; [exact R|]. rewrite D, C.
  split; [reflexivity|].
  split; [rewrite !EdgeFacts.splice_newline_length; reflexivity|].
  split; [unfold final_world; cbn [drawn length]; lia|reflexivity].
Qed.

(** The empty list on the sample world. *)
Lemma empty_list_adds_blank_lines_witness :
  fs SAMPLE_WORLD PROJECT_PATH = Some (mkfile true true SAMPLE_DESCRIPTOR) /\
  exists w',
    add_files_to_project [] PROJECT_PATH SAMPLE_WORLD = Ok tt w' /\
    length (descriptor PROJECT_PATH w') = length SAMPLE_DESCRIPTOR + 2 /\
    drawn w' = 0.
Proof.
  split; [reflexivity|].
  destruct (empty_list_adds_blank_lines PROJECT_PATH SAMPLE_WORLD
              SAMPLE_DESCRIPTOR eq_refl) as (w' & R & _ & L & Dr & _).
  exists w'. split; [exact R|]. split; [|exact Dr].
  rewrite L. vm_compute. reflexivity.
Defined.

(** X5. A descriptor with none of the four anchors is written back
    unchanged, and the run reports success all the same: it draws the [2n]
    identifiers and prints the banner and the paths. *)
Theorem descriptor_without_anchors_is_unchanged :
  forall (files : list text) (path : text) (w : world) (doc : text),
    forallb no_backslash files = true ->
    fs w path = Some (mkfile true true doc) ->
    Re.matches build_section_pattern doc = 0 ->
    Re.matches file_ref_pattern doc = 0 ->
    Re.matches main_group_pattern doc = 0 ->
    Re.matches sources_pattern doc = 0 ->
    exists w',
      add_files_to_project files path w = Ok tt w' /\
      descriptor path w' = doc /\
      drawn w' = drawn w + 2 * length files /\
      stdout w' = stdout w ++ banner (length files)
                    :: map (fun filepath => chars "   - " ++ filepath) files.
Proof.
  intros files path w doc Hfiles Hfs M1 M2 M3 M4.
  destruct (run_descriptor files path w doc Hfiles Hfs) as [R D].
  assert (C1 : content1 files w doc = doc)
    by (apply StepFacts.splice_none; exact M1).
  assert (C2 : content2 files w doc = doc).
  { unfold content2. rewrite C1. apply StepFacts.splice_none. exact M2. }
  assert (C3 : content3 files w doc = doc).
  { unfold content3. rewrite C2. apply StepFacts.splice_none. exact M3. }
  assert (C4 : content4 files w doc = doc).
  { unfold content4. rewrite C3. apply StepFacts.splice_none. exact M4. }
  eexists. split; [exact R|]. rewrite D, C4.
  split; [reflexivity|]. split; reflexivity.
Qed.

(** The shipped list on a descriptor of one line without anchor. *)
Lemma descriptor_without_anchors_is_unchanged_witness :
  forallb no_backslash NEW_FILES = true /\
  fs (sample_world (chars "// !$*UTF8*$!")) PROJECT_PATH
  = Some (mkfile true true (chars "// !$*UTF8*$!")) /\
  Re.matches build_section_pattern (chars "// !$*UTF8*$!") = 0 /\
  Re.matches file_ref_pattern (chars "// !$*UTF8*$!") = 0 /\
  Re.matches main_group_pattern (chars "// !$*UTF8*$!") = 0 /\
  Re.matches sources_pattern (chars "// !$*UTF8*$!") = 0 /\
  exists w',
    add_files_to_project NEW_FILES PROJECT_PATH
      (sample_world (chars "// !$*UTF8*$!")) = Ok tt w' /\
    descriptor PROJECT_PATH w' = chars "// !$*UTF8*$!" /\
    drawn w' = 20.
Proof.
  split; [reflexivity|]. split; [reflexivity|]. split; [reflexivity|].
  split; [reflexivity|]. split; [reflexivity|]. split; [reflexivity|].
  destruct (descriptor_without_anchors_is_unchanged NEW_FILES PROJECT_PATH
              (sample_world (chars "// !$*UTF8*$!")) (chars "// !$*UTF8*$!")
              eq_refl eq_refl eq_refl eq_refl eq_refl eq_refl)
    as (w' & R & D & Dr & _).
  exists w'. split; [exact R|]. split; [exact D|exact Dr].
Defined.

(** * The dictionaries of an arbitrary list *)

Module KeyFacts.
Import Dict DictFacts RunFacts.

Lemma get_set_same (k v : text) (d : Dict.t) : get k (set k v d) = Some v.
Proof.
  induction d as [|[k0 v0] d IH]; simpl.
  - rewrite key_eqb_refl. reflexivity.
  - destruct (key_eqb k k0) eqn:E; simpl; rewrite E; [reflexivity|exact IH].
Qed.

Lemma get_set_other (k k' v : text) (d : Dict.t) :
  k' <> k -> get k' (set k v d) = get k' d.
Proof.
  intro N. induction d as [|[k0 v0] d IH]; simpl.
  - apply key_eqb_neq in N. rewrite N. reflexivity.
  - destruct (key_eqb k k0) eqn:E; simpl.
    + apply key_eqb_eq in E. subst k0.
      apply key_eqb_neq in N. rewrite N. reflexivity.
    + rewrite IH. reflexivity.
Qed.

Lemma get_items (k v : text) (d : Dict.t) : get k d = Some v -> In (k, v) d.
Proof.
  induction d as [|[k0 v0] d IH]; simpl; [discriminate|].
  destruct (key_eqb k k0) eqn:E.
  - apply key_eqb_eq in E. subst k0. intro H. injection H as ->.
    left. reflexivity.
  - intro H. right. apply IH. exact H.
Qed.

(** The keys after an assignment depend on the keys before only. *)
Lemma keys_set_congr (k v1 v2 : text) (d1 d2 : Dict.t) :
  map fst d1 = map fst d2 ->
  map fst (set k v1 d1) = map fst (set k v2 d2).
Proof.
  revert d2. induction d1 as [|[k1 x1] d1 IH]; intros [|[k2 x2] d2] H;
    try discriminate; [reflexivity|].
  simpl in H. injection H as -> H. simpl.
  destruct (key_eqb k k2); simpl; [rewrite H|rewrite (IH d2 H)]; reflexivity.
Qed.

Lemma keys_set_NoDup (k v : text) (d : Dict.t) :
  NoDup (map fst d) -> NoDup (map fst (set k v d)).
Proof.
  induction d as [|[k0 v0] d IH]; simpl; intro N.
  - constructor; [intros []|constructor].
  - inversion N as [|? ? Hk Hd]; subst.
    destruct (key_eqb k k0) eqn:E; simpl; [exact N|].
    constructor; [|apply IH; exact Hd].
    intro I. apply keys_set in I. destruct I as [->|I]; [|contradiction].
    rewrite key_eqb_refl in E. discriminate.
Qed.

Lemma assign_keys_equal (rnd : nat -> Z) (files : list text) :
  forall k d,
    map fst (fst d) = map fst (snd d) ->
    map fst (fst (assign rnd k files d))
    = map fst (snd (assign rnd k files d)).
Proof.
  induction files as [|p files IH]; intros k d H; [exact H|].
  cbn [assign]. apply IH. cbn [fst snd]. apply keys_set_congr. exact H.
Qed.

Lemma assign_keys_NoDup (rnd : nat -> Z) (files : list text) :
  forall k d,
    NoDup (map fst (fst d)) ->
    NoDup (map fst (fst (assign rnd k files d))).
Proof.
  induction files as [|p files IH]; intros k d H; [exact H|].
  cbn [assign]. apply IH. cbn [fst]. apply keys_set_NoDup. exact H.
Qed.

(** A path that is not listed keeps what it had. *)
Lemma assign_get_other (rnd : nat -> Z) (files : list text) (p : text) :
  ~ In p files ->
  forall k d,
    get p (fst (assign rnd k files d)) = get p (fst d) /\
    get p (snd (assign rnd k files d)) = get p (snd d).
Proof.
  induction files as [|q files IH]; intros N k d; [split; reflexivity|].
  cbn [assign].
  destruct (IH (fun I => N (or_intror I)) (S (S k))
              (set q (Uuid.id_of (rnd k)) (fst d),
               set q (Uuid.id_of (rnd (S k))) (snd d))) as [H1 H2].
  cbn [fst snd] in H1, H2.
  assert (Q : p <> q) by (intro E; apply N; left; symmetry; exact E).
  rewrite H1, H2, !(get_set_other q p) by exact Q. split; reflexivity.
Qed.

(** A listed path has the identifiers of its last listing. *)
Lemma assign_get_last (rnd : nat -> Z) (files : list text) (p : text) :
  forall i k d,
    nth_error files i = Some p ->
    (forall j, i < j -> nth_error files j <> Some p) ->
    get p (fst (assign rnd k files d)) = Some (Uuid.id_of (rnd (k + 2 * i))) /\
    get p (snd (assign rnd k files d))
    = Some (Uuid.id_of (rnd (k + 2 * i + 1))).
Proof.
  induction files as [|q files IH]; intros i k d Hn Hl.
  - destruct i; discriminate.
  - destruct i as [|i].
    + simpl in Hn. injection Hn as ->. cbn [assign].
      assert (N : ~ In p files).
      { intro I. apply In_nth_error in I. destruct I as [j Hj].
        apply (Hl (S j)); [lia|exact Hj]. }
      destruct (assign_get_other rnd files p N (S (S k))
                  (set p (Uuid.id_of (rnd k)) (fst d),
                   set p (Uuid.id_of (rnd (S k))) (snd d))) as [H1 H2].
      cbn [fst snd] in H1, H2.
      rewrite H1, H2, !get_set_same, Nat.add_0_r, Nat.add_1_r.
      split; reflexivity.
    + simpl in Hn. cbn [assign].
      destruct (IH i (S (S k))
                  (set q (Uuid.id_of (rnd k)) (fst d),
                   set q (Uuid.id_of (rnd (S k))) (snd d)) Hn) as [H1 H2].
      { intros j Hj. apply (Hl (S j)). lia. }
      rewrite H1, H2.
      replace (S (S k) + 2 * i) with (k + 2 * S i) by lia.
      split; reflexivity.
Qed.

End KeyFacts.

(** X7. However often a path is listed, it has one key in each dictionary:
    the two dictionaries have the same keys in the same order, without
    repetition, and these are the listed paths.  So the build-file and the
    file-reference section get one entry per distinct path, as many as
    there are paths exactly when no path is listed twice, while the group
    list and the build phase get one entry per listing. *)
Theorem one_dictionary_entry_per_distinct_path :
  forall (files : list text) (w : world),
    NoDup (map fst (Dict.items (file_refs_of files w))) /\
    map fst (Dict.items (build_files_of files w))
    = map fst (Dict.items (file_refs_of files w)) /\
    (forall p, In p (map fst (Dict.items (file_refs_of files w)))
               <-> In p files) /\
    length (build_file_entries files w) = length (file_ref_entries files w) /\
    length (file_ref_entries files w) <= length files /\
    (length (file_ref_entries files w) = length files <-> NoDup files) /\
    length (group_entries files w) = length files /\
    length (source_entries files w) = length files.
Proof.
  intros files w. unfold Dict.items.
  assert (N : NoDup (map fst (file_refs_of files w))).
  { apply KeyFacts.assign_keys_NoDup. constructor. }
  assert (E : map fst (build_files_of files w) = map fst (file_refs_of files w)).
  { symmetry. apply KeyFacts.assign_keys_equal. reflexivity. }
  assert (K : forall p, In p (map fst (file_refs_of files w)) <-> In p files).
  { intro p. destruct (RunFacts.assign_keys (urandom w) files (drawn w)
                         (Dict.empty, Dict.empty) p) as [K _].
    unfold file_refs_of. rewrite K. simpl. tauto. }
  assert (L : length (file_ref_entries files w)
              = length (map fst (file_refs_of files w))).
  { unfold file_ref_entries, Dict.items. rewrite !length_map. reflexivity. }
  assert (L' : length (build_file_entries files w)
               = length (map fst (build_files_of files w))).
  { unfold build_file_entries, Dict.items. rewrite !length_map. reflexivity. }
  assert (Le : length (map fst (file_refs_of files w)) <= length files).
  { apply NoDup_incl_length; [exact N|]. intros p I. apply K. exact I. }
  split; [exact N|]. split; [exact E|]. split; [exact K|].
  split; [rewrite L, L', E; reflexivity|].
  split; [rewrite L; exact Le|].
  split; [|split; [unfold group_entries|unfold source_entries];
           apply length_map].
  rewrite L. split.
  - intro H. apply (NoDup_incl_NoDup N); [lia|].
    intros p I. apply K. exact I.
  - intro Nf. apply Nat.le_antisymm; [exact Le|].
    apply NoDup_incl_length; [exact Nf|]. intros p I. apply K. exact I.
Qed.

(** X8. A path listed more than once takes, in both dictionaries, the
    identifiers drawn at its last listing; those drawn at its earlier
    listings are overwritten. *)
Theorem last_listing_gives_the_identifiers :
  forall (files : list text) (w : world) (i : nat) (p : text),
    nth_error files i = Some p ->
    (forall j, i < j -> nth_error files j <> Some p) ->
    Dict.get p (file_refs_of files w) = Some (file_ref_id w i) /\
    Dict.get p (build_files_of files w) = Some (build_id w i) /\
    In (file_ref_entry (file_ref_id w i) (basename p) p)
       (file_ref_entries files w) /\
    In (build_file_entry (build_id w i) (basename p) (file_ref_id w i))
       (build_file_entries files w).
Proof.
  intros files w i p Hn Hl.
  destruct (KeyFacts.assign_get_last (urandom w) files p i (drawn w)
              (Dict.empty, Dict.empty) Hn Hl) as [G1 G2].
  fold (file_refs_of files w) in G1. fold (build_files_of files w) in G2.
  fold (file_ref_id w i) in G1. fold (build_id w i) in G2.
  split; [exact G1|]. split; [exact G2|]. split.
  - unfold file_ref_entries, Dict.items.
    apply (in_map (fun '(filepath, id) =>
                     file_ref_entry id (basename filepath) filepath)
             _ _ (KeyFacts.get_items _ _ _ G1)).
  - unfold build_file_entries, Dict.items.
    pose proof (in_map (fun '(filepath, id) =>
                          build_file_entry id (basename filepath)
                            (lookup (file_refs_of files w) filepath))
                  _ _ (KeyFacts.get_items _ _ _ G2)) as I.
    cbn beta iota in I. rewrite (RunFacts.lookup_get _ _ _ G1) in I. exact I.
Qed.

(** A path listed twice: it has the identifiers of the second listing. *)
Lemma last_listing_gives_the_identifiers_witness :
  nth_error LISTED_TWICE 1 = Some (chars "A.swift") /\
  Dict.get (chars "A.swift") (file_refs_of LISTED_TWICE SAMPLE_WORLD)
  = Some (file_ref_id SAMPLE_WORLD 1) /\
  Dict.get (chars "A.swift") (build_files_of LISTED_TWICE SAMPLE_WORLD)
  = Some (build_id SAMPLE_WORLD 1).
Proof.
  split; [reflexivity|].
  assert (L : forall j, 1 < j -> nth_error LISTED_TWICE j <> Some (chars "A.swift")).
  { intros j Hj. destruct j as [|[|j]]; [lia|lia|].
    simpl. destruct j; discriminate. }
  destruct (last_listing_gives_the_identifiers LISTED_TWICE SAMPLE_WORLD 1
              (chars "A.swift") eq_refl L) as (G1 & G2 & _).
  split; [exact G1|exact G2].
Defined.

(** X9. The entries of a run refer to each other, for every list: the
    identifier of an entry of the group list is the identifier of the
    file-reference entry of the same path, and an entry of the build phase
    has the identifier of a build-file entry of the same path, whose
    [fileRef] is the identifier of the file-reference entry of that path. *)
Theorem entries_refer_to_each_other :
  forall (files : list text) (w : world),
    (forall e, In e (group_entries files w) ->
       exists p r,
         In p files /\ e = group_entry r (basename p) /\
         In (file_ref_entry r (basename p) p) (file_ref_entries files w)) /\
    (forall e, In e (source_entries files w) ->
       exists p b r,
         In p files /\ e = source_entry b (basename p) /\
         In (build_file_entry b (basename p) r) (build_file_entries files w) /\
         In (file_ref_entry r (basename p) p) (file_ref_entries files w)).
Proof.
  intros files w.
  assert (F : forall p, In p files ->
                exists r, Dict.get p (file_refs_of files w) = Some r /\
                          In (file_ref_entry r (basename p) p)
                             (file_ref_entries files w)).
  { intros p Ip. destruct (RunFacts.file_refs_has files w p Ip) as (r & G & _).
    exists r. split; [exact G|].
    unfold file_ref_entries, Dict.items.
    apply (in_map (fun '(filepath, id) =>
                     file_ref_entry id (basename filepath) filepath)
             _ _ (KeyFacts.get_items _ _ _ G)). }
  split; intros e I.
  - unfold group_entries in I. apply in_map_iff in I.
    destruct I as (p & <- & Ip). destruct (F p Ip) as (r & G & E).
    exists p, r. rewrite (RunFacts.lookup_get _ _ _ G). auto.
  - unfold source_entries in I. apply in_map_iff in I.
    destruct I as (p & <- & Ip). destruct (F p Ip) as (r & G & E).
    destruct (RunFacts.build_files_has files w p Ip) as (b & Gb & _).
    exists p, b, r. rewrite (RunFacts.lookup_get _ _ _ Gb).
    split; [exact Ip|]. split; [reflexivity|]. split; [|exact E].
    unfold build_file_entries, Dict.items.
    pose proof (in_map (fun '(filepath, id) =>
                          build_file_entry id (basename filepath)
                            (lookup (file_refs_of files w) filepath))
                  _ _ (KeyFacts.get_items _ _ _ Gb)) as J.
    cbn beta iota in J. rewrite (RunFacts.lookup_get _ _ _ G) in J. exact J.
Qed.

(** * File names and identifier layout *)

Module NameFacts.
Import Str StrFacts.

Lemma split_no_sep (sep : ascii) (s : text) :
  ~ In sep s -> split sep s = [s].
Proof.
  induction s as [|c s IH]; intro N; [reflexivity|].
  cbn [split]. destruct (Ascii.eqb c sep) eqn:E.
  - apply Ascii.eqb_eq in E. subst c. exfalso. apply N. left. reflexivity.
  - rewrite IH; [reflexivity|]. intro I. apply N. right. exact I.
Qed.

Lemma split_app (sep : ascii) (d f : text) :
  split sep (d ++ sep :: f) = split sep d ++ split sep f.
Proof.
  induction d as [|c d IH].
  - cbn [app split]. rewrite Ascii.eqb_refl. reflexivity.
  - cbn [app split]. rewrite IH. destruct (Ascii.eqb c sep); [reflexivity|].
    pose proof (split_nonempty sep d) as Hne.
    destruct (split sep d) as [|h t]; [congruence|reflexivity].
Qed.

Lemma last_app_nonempty (A : Type) (l1 l2 : list A) (d : A) :
  l2 <> [] -> last (l1 ++ l2) d = last l2 d.
Proof.
  intro N. induction l1 as [|x l1 IH]; [reflexivity|].
  cbn [app]. destruct (l1 ++ l2) as [|y l] eqn:E.
  - destruct l1; [simpl in E; congruence|discriminate].
  - exact IH.
Qed.

Lemma split_fields_no_sep (sep : ascii) (s : text) :
  Forall (fun f => ~ In sep f) (split sep s).
Proof.
  induction s as [|c s IH]; [repeat constructor; intros []|].
  cbn [split]. destruct (Ascii.eqb c sep) eqn:E.
  - constructor; [intros []|exact IH].
  - destruct (split sep s) as [|h t]; [repeat constructor|].
    + intros [->|[]]. rewrite Ascii.eqb_refl in E. discriminate.
    + inversion IH as [|? ? Hh Ht]; subst. constructor; [|exact Ht].
      intros [->|I]; [rewrite Ascii.eqb_refl in E; discriminate|].
      apply Hh. exact I.
Qed.

Lemma last_Forall (A : Type) (P : A -> Prop) (l : list A) (d : A) :
  l <> [] -> Forall P l -> P (last l d).
Proof.
  intros N F. induction F as [|x l Hx F IH]; [congruence|].
  destruct l as [|y l]; [exact Hx|]. apply IH. discriminate.
Qed.

End NameFacts.

Module LayoutFacts.
Import Uuid UuidFacts.

Lemma or_below (n : nat) (t c lo hi : Z) :
  forallb (fun t => (lo <=? Z.lor t c)%Z && (Z.lor t c <? hi)%Z)
          (map Z.of_nat (seq 0 n)) = true ->
  (0 <= t < Z.of_nat n)%Z -> (lo <= Z.lor t c < hi)%Z.
Proof.
  intros H Ht. rewrite forallb_forall in H.
  specialize (H t). cbv beta in H.
  assert (I : In t (map Z.of_nat (seq 0 n))).
  { apply in_map_iff. exists (Z.to_nat t). split; [lia|].
    apply in_seq. lia. }
  apply H in I. apply andb_true_iff in I. destruct I as [A1 A2].
  apply Z.leb_le in A1. apply Z.ltb_lt in A2. split; assumption.
Qed.

(** Byte 6 of a version-4 value has the version in its high half. *)
Lemma version_byte (rnd : Z) :
  (64 <= Z.land (Z.shiftr (uuid4 rnd) 72) 255 < 80)%Z.
Proof.
  unfold uuid4. cbv zeta.
  set (x := Z.lor _ (Z.shiftl 32768 48)).
  rewrite Z.shiftr_lor, Z.shiftr_land, Z.land_lor_distr_l, <- Z.land_assoc.
  change (Z.land (Z.shiftr (Z.lnot (Z.shiftl 61440 64)) 72) 255) with 15%Z.
  change (Z.land (Z.shiftr (Z.shiftl 4 76) 72) 255) with 64%Z.
  apply (or_below 16); [vm_compute; reflexivity|].
  change 15%Z with (Z.ones 4). rewrite Z.land_ones by lia.
  apply Z.mod_pos_bound. reflexivity.
Qed.

(** Byte 8 of a version-4 value has the variant in its two high bits. *)
Lemma variant_byte (rnd : Z) :
  (128 <= Z.land (Z.shiftr (uuid4 rnd) 56) 255 < 192)%Z.
Proof.
  unfold uuid4. cbv zeta.
  set (i := (rnd mod 2 ^ 128)%Z).
  rewrite Z.shiftr_lor, Z.land_lor_distr_l.
  change (Z.land (Z.shiftr (Z.shiftl 4 76) 56) 255) with 0%Z.
  rewrite Z.lor_0_r.
  rewrite Z.shiftr_land, <- Z.land_assoc.
  change (Z.land (Z.shiftr (Z.lnot (Z.shiftl 61440 64)) 56) 255) with 255%Z.
  rewrite Z.shiftr_lor, Z.land_lor_distr_l.
  change (Z.land (Z.shiftr (Z.shiftl 32768 48) 56) 255) with 128%Z.
  rewrite Z.shiftr_land, <- Z.land_assoc.
  change (Z.land (Z.shiftr (Z.lnot (Z.shiftl 49152 48)) 56) 255) with 63%Z.
  apply (or_below 64); [vm_compute; reflexivity|].
  change 63%Z with (Z.ones 6). rewrite Z.land_ones by lia.
  apply Z.mod_pos_bound. reflexivity.
Qed.

Lemma format_02X_high (b : Z) :
  (0 <= b < 256)%Z ->
  ((64 <= b < 80)%Z -> hd "0"%char (format_02X b) = "4"%char) /\
  ((128 <= b < 192)%Z ->
   In (hd "0"%char (format_02X b)) (chars "89AB")).
Proof.
  intro Hb.
  pose proof (all_bytes
    (fun x => implb ((64 <=? x)%Z && (x <? 80)%Z)
                (Ascii.eqb (hd "0"%char (format_02X x)) "4"%char)
              && implb ((128 <=? x)%Z && (x <? 192)%Z)
                   (existsb (Ascii.eqb (hd "0"%char (format_02X x)))
                      (chars "89AB")))) as A.
  cbv beta in A. specialize (A ltac:(vm_compute; reflexivity) b Hb).
  apply andb_true_iff in A. destruct A as [A1 A2]. split; intro R.
  - replace ((64 <=? b)%Z && (b <? 80)%Z) with true in A1
      by (symmetry; apply andb_true_iff; lia).
    apply Ascii.eqb_eq. exact A1.
  - replace ((128 <=? b)%Z && (b <? 192)%Z) with true in A2
      by (symmetry; apply andb_true_iff; lia).
    apply existsb_exists in A2. destruct A2 as (c & I & E).
    apply Ascii.eqb_eq in E. rewrite E. exact I.
Qed.

(** The character at an even place of a concatenation of pairs. *)
Lemma nth_concat_pairs (l : list text) :
  Forall (fun t => length t = 2) l ->
  forall k d, nth (2 * k) (concat l) d = hd d (nth k l []).
Proof.
  induction 1 as [|t l L _ IH]; intros k d.
  - destruct k; reflexivity.
  - destruct t as [|a [|b [|? ?]]]; try discriminate.
    destruct k as [|k]; [reflexivity|].
    replace (2 * S k) with (S (S (2 * k))) by lia.
    cbn [concat app nth]. apply IH.
Qed.

End LayoutFacts.

(** X10. The file name of an entry is the part of the path after its last
    slash: a text without a slash is its own file name, and it is the file
    name of every path that ends with a slash followed by it.  A file name
    never contains a slash. *)
Theorem basename_is_the_part_after_the_last_slash :
  forall f : text,
    ~ In "/"%char f ->
    basename f = f /\
    (forall d, basename (d ++ "/"%char :: f) = f) /\
    (forall p, ~ In "/"%char (basename p)).
Proof.
  intros f N. unfold basename. split; [|split].
  - rewrite (NameFacts.split_no_sep _ _ N). reflexivity.
  - intro d. rewrite NameFacts.split_app, NameFacts.last_app_nonempty
      by apply StrFacts.split_nonempty.
    rewrite (NameFacts.split_no_sep _ _ N). reflexivity.
  - intro p. apply (NameFacts.last_Forall _ (fun f => ~ In "/"%char f)).
    + apply StrFacts.split_nonempty.
    + apply NameFacts.split_fields_no_sep.
Qed.

(** The file name of a path of the shipped list. *)
Lemma basename_is_the_part_after_the_last_slash_witness :
  ~ In "/"%char (chars "BatchItem.swift") /\
  basename (chars "Models/Batch/BatchItem.swift")
  = chars "BatchItem.swift".
Proof.
  assert (N : ~ In "/"%char (chars "BatchItem.swift")).
  { simpl. intro I. repeat (destruct I as [I|I]; [discriminate|]). exact I. }
  split; [exact N|].
  destruct (basename_is_the_part_after_the_last_slash _ N) as (_ & H & _).
  exact (H (chars "Models/Batch")).
Defined.

(** X11. Not all 24 digits of an identifier are random: whatever the
    entropy read, the 13th digit is [4], the version of the UUID, and the
    17th is one of [8], [9], [A], [B], its variant. *)
Theorem generated_id_carries_version_and_variant :
  forall rnd : Z,
    nth 12 (Uuid.id_of rnd) "0"%char = "4"%char /\
    In (nth 16 (Uuid.id_of rnd) "0"%char) (chars "89AB").
Proof.
  intro rnd. unfold Uuid.id_of. rewrite StrFacts.join_nil_concat.
  assert (F : Forall (fun t => length t = 2)
                (map Uuid.format_02X (firstn 12 (Uuid.bytes (Uuid.uuid4 rnd))))).
  { apply Forall_forall. intros t Ht. apply in_map_iff in Ht.
    destruct Ht as (b & <- & Hb). apply UuidFacts.format_02X_byte.
    apply (UuidFacts.bytes_range (Uuid.uuid4 rnd)).
    rewrite <- (firstn_skipn 12 (Uuid.bytes (Uuid.uuid4 rnd))).
    apply in_or_app. left. exact Hb. }
  change 12 with (2 * 6) at 1. change 16 with (2 * 8).
  rewrite !(LayoutFacts.nth_concat_pairs _ F).
  set (u := Uuid.uuid4 rnd). unfold Uuid.bytes.
  cbn [seq map firstn nth].
  change (8 * (15 - Z.of_nat 6))%Z with 72%Z.
  change (8 * (15 - Z.of_nat 8))%Z with 56%Z.
  pose proof (LayoutFacts.version_byte rnd) as V.
  pose proof (LayoutFacts.variant_byte rnd) as W. fold u in V, W.
  split.
  - apply LayoutFacts.format_02X_high; [lia|exact V].
  - apply LayoutFacts.format_02X_high; [lia|exact W].
Qed.
